(** * SEM planner: the keyword collector and the industry mapper

    A shallow embedding of [src/modules/keyword_collector.py], of the
    part of [src/modules/llm_agent.py] it calls, and of the link loop of
    [src/modules/scraper.py].  The browser, the clock,
    the file system and the language model are outside the program: every
    call that leaves the Python code is an operation [op] answered by an
    [environment], and the program's state is the log of the operations it
    has issued so far.  The readings of the clock are Python floats:
    IEEE 754 doubles, the kernel's binary64 numbers with their rounding
    to nearest even.  An exception is one of class [Exception], which
    every [except] clause of the source catches.  The [print] and
    [logger] calls are left out, and with them the reading of [page.url]
    that one of them prints. *)

From Stdlib Require Import List ZArith NArith Bool String Ascii Lia.
From Stdlib Require Import PrimFloat.
Import ListNotations.
Set Implicit Arguments.


(* ================================================================== *)
(** ** Python strings *)
(* ================================================================== *)

Module Py.

(** A Python [str] is a sequence of Unicode code points. *)
Definition str := list N.

(** An ASCII literal, one code point per character. *)
Definition u (s : string) : str :=
  List.map N_of_ascii (list_ascii_of_string s).

(** The double quote and the newline, which literals do not hold. *)
Definition dq : str := [34%N].
Definition nl : str := [10%N].

(** [a == b] on strings. *)
Fixpoint str_eqb (a b : str) : bool :=
  match a, b with
  | [], [] => true
  | x :: a', y :: b' => N.eqb x y && str_eqb a' b'
  | _, _ => false
  end.

(** [x in xs] for a list of strings. *)
Definition mem (x : str) (xs : list str) : bool := existsb (str_eqb x) xs.

(** [str.isspace] on one code point (CPython's [_PyUnicode_IsWhitespace]). *)
Definition isspace (c : N) : bool :=
  (((9 <=? c) && (c <=? 13)) || ((28 <=? c) && (c <=? 32))
   || (c =? 133) || (c =? 160) || (c =? 5760)
   || ((8192 <=? c) && (c <=? 8202))
   || (c =? 8232) || (c =? 8233) || (c =? 8239) || (c =? 8287)
   || (c =? 12288))%N.

Fixpoint lstrip (s : str) : str :=
  match s with
  | c :: s' => if isspace c then lstrip s' else s
  | [] => []
  end.

Definition rstrip (s : str) : str := rev (lstrip (rev s)).

(** [s.strip()] *)
Definition strip (s : str) : str := rstrip (lstrip s).

(** [s.startswith(p)] *)
Fixpoint startswith (p s : str) : bool :=
  match p, s with
  | [], _ => true
  | x :: p', y :: s' => N.eqb x y && startswith p' s'
  | _ :: _, [] => false
  end.

(** [sub in s] *)
Fixpoint contains (sub s : str) : bool :=
  startswith sub s ||
  match s with
  | [] => false
  | _ :: s' => contains sub s'
  end.

(** [s.replace(old, new)] for a non-empty [old]: occurrences are taken
    left to right and do not overlap; [skip] counts the code points of an
    occurrence still to be dropped. *)
Fixpoint replace_from (old new : str) (skip : nat) (s : str) : str :=
  match s with
  | [] => []
  | c :: s' =>
      match skip with
      | S k => replace_from old new k s'
      | O => if startswith old s
             then new ++ replace_from old new (List.length old - 1) s'
             else c :: replace_from old new 0 s'
      end
  end.

Definition replace (old new s : str) : str := replace_from old new 0 s.

(** [sep.join(xs)] *)
Fixpoint join (sep : str) (xs : list str) : str :=
  match xs with
  | [] => []
  | [x] => x
  | x :: rest => x ++ sep ++ join sep rest
  end.

(** Truth value of a string: non-empty. *)
Definition truthy (s : str) : bool :=
  match s with [] => false | _ => true end.

Definition is_ascii (s : str) : bool := forallb (fun c => (c <? 128)%N) s.

(** [str.lower] on ASCII: A-Z go to a-z.  Python's full case mapping
    agrees with it on ASCII strings; see [lower_spec]. *)
Definition ascii_lower (s : str) : str :=
  List.map (fun c => if ((65 <=? c) && (c <=? 90))%N then (c + 32)%N else c) s.

(** What is assumed of [str.lower]: on an ASCII string it is
    [ascii_lower].  Nothing is assumed outside ASCII. *)
Definition lower_spec (lower : str -> str) : Prop :=
  forall s, is_ascii s = true -> lower s = ascii_lower s.

End Py.
Import Py.

(* ================================================================== *)
(** ** Values read from the configuration document *)
(* ================================================================== *)

(** A value of the YAML document as the collector observes it: a string,
    a list, or anything else with its truth value.  [text] is what
    [str(v)] gives; for a list it is carried, Python's [repr] of the
    items is not computed. *)
#[warnings="-register-all"]
Inductive pyval : Type :=
| PyStr (s : str)
| PyList (items : list pyval) (text : str)
| PyOther (truth : bool) (text : str).

Definition py_bool (v : pyval) : bool :=
  match v with
  | PyStr s => truthy s
  | PyList items _ => match items with [] => false | _ => true end
  | PyOther b _ => b
  end.

Definition py_str (v : pyval) : str :=
  match v with
  | PyStr s => s
  | PyList _ text => text
  | PyOther _ text => text
  end.

(** The configuration: a dict with string keys, as a list of bindings of
    which the first for a key counts. *)
Definition config := list (str * pyval).

Fixpoint config_get (key : str) (c : config) : option pyval :=
  match c with
  | [] => None
  | (k, v) :: rest => if str_eqb key k then Some v else config_get key rest
  end.

(** [os.path.dirname] of [posixpath]: the part up to the last slash,
    without its trailing slashes unless it is made of slashes only. *)
Fixpoint drop_to_slash (s : str) : str :=
  match s with
  | [] => []
  | c :: s' => if (c =? 47)%N then s else drop_to_slash s'
  end.

Fixpoint drop_slashes (s : str) : str :=
  match s with
  | [] => []
  | c :: s' => if (c =? 47)%N then drop_slashes s' else s
  end.

Definition dirname (p : str) : str :=
  let head := rev (drop_to_slash (rev p)) in
  if forallb (fun c => (c =? 47)%N) head then head
  else rev (drop_slashes (rev head)).

(* ================================================================== *)
(** ** Operations, environments and the program monad *)
(* ================================================================== *)

(** A Python exception: its class and its message. *)
Inductive exn : Type := Exn (cls msg : string).

(** An element handle of the page. *)
Definition elem := N.

(** What [chat.completions.create] returns, as far as
    [generate_completion] reads it. *)
Record message := { content : option str }.
Record choice := { choice_message : option message }.
Record completion := { choices : list choice }.

(** Every call that leaves the embedded code.  There is one browser, one
    page and one language-model client per run, so the handles are not
    arguments.  [Click] is [click(force=True)]; the state of
    [WaitForSelector] is [Some "visible"] where the call passes
    [state="visible"] and [None] where it passes none.  [Time] is
    [time.time()], in seconds; [UrlNetloc url] is [urlparse(url).netloc];
    [MakeDirs] is [os.makedirs(path, exist_ok=True)]; [GetEnv] is
    [os.getenv]; [GroqClient] builds the client and [ChatCreate] is its
    [chat.completions.create]; [FileOpen] opens the file for writing,
    [FileWriteRows] is the [writeheader] or the [writerows] of the
    [csv.DictWriter], with the rows it writes, and [FileClose] the exit
    of the file's [with] block; [PlaywrightStart] and [PlaywrightStop]
    are the entry and the exit of [with sync_playwright()]. *)
Inductive op : Type :=
| WaitForSelector (selector : str) (timeout : Z) (state : option str)
| QuerySelector (selector : str)
| QuerySelectorAll (selector : str)
| WaitForTimeout (ms : Z)
| KeyboardPress (key : str)
| Screenshot (path : str)
| Goto (url : str) (timeout : Z)
| WaitForLoadState (state : str) (timeout : Z)
| Click (e : elem)
| SelectText (e : elem)
| TypeText (e : elem) (text : str) (delay : Z)
| IsVisible (e : elem)
| IsEnabled (e : elem)
| InnerText (e : elem)
| ElemQuerySelectorAll (e : elem) (selector : str)
| PlaywrightStart
| PlaywrightStop
| Launch
| NewContext
| NewPage
| BrowserClose
| MakeDirs (path : str)
| UrlNetloc (url : str)
| Time
| GetEnv (name : str)
| GroqClient (api_key : str)
| ChatCreate (prompt : str)
| FileOpen (path : str)
| FileWriteRows (rows : list (list str))
| FileClose.

(** The type of what an operation returns. *)
Definition resp (o : op) : Type :=
  match o with
  | WaitForSelector _ _ _ => option elem
  | QuerySelector _ => option elem
  | QuerySelectorAll _ => list elem
  | ElemQuerySelectorAll _ _ => list elem
  | IsVisible _ => bool
  | IsEnabled _ => bool
  | InnerText _ => str
  | UrlNetloc _ => str
  | Time => float
  | GetEnv _ => option str
  | ChatCreate _ => completion
  | _ => unit
  end.

(** The operations issued so far, oldest first. *)
Definition trace := list op.

(** An operation returns or raises. *)
Inductive reply (A : Type) : Type :=
| Returns (a : A)
| Raises (e : exn).
Arguments Raises {A} e.

(** The world outside the program: it answers an operation knowing all
    that was issued before it. *)
Definition environment := trace -> forall o : op, reply (resp o).

(** How a piece of program ends: with a value, with an exception, or not
    at all ([Diverge], a loop out of fuel). *)
Inductive outcome (A : Type) : Type :=
| Ok (a : A)
| Raise (e : exn)
| Diverge.
Arguments Raise {A} e.
Arguments Diverge {A}.

Definition M (A : Type) : Type := trace -> outcome A * trace.

Definition ret {A} (a : A) : M A := fun t => (Ok a, t).

Definition raise {A} (e : exn) : M A := fun t => (Raise e, t).

Definition diverge {A} : M A := fun t => (Diverge, t).

Definition bind {A B} (m : M A) (k : A -> M B) : M B :=
  fun t =>
    match m t with
    | (Ok a, t1) => k a t1
    | (Raise e, t1) => (Raise e, t1)
    | (Diverge, t1) => (Diverge, t1)
    end.

(** [try: m  except: h] *)
Definition try_except {A} (m : M A) (h : exn -> M A) : M A :=
  fun t =>
    match m t with
    | (Raise e, t1) => h e t1
    | r => r
    end.

(** [try: m  finally: c], also the exit of a [with] block. *)
Definition try_finally {A} (m : M A) (c : M unit) : M A :=
  fun t =>
    match m t with
    | (Diverge, t1) => (Diverge, t1)
    | (r, t1) =>
        match c t1 with
        | (Ok _, t2) => (r, t2)
        | (Raise e, t2) => (Raise e, t2)
        | (Diverge, t2) => (Diverge, t2)
        end
    end.

Declare Scope prog_scope.
Delimit Scope prog_scope with prog.
Notation "x <- m ;; k" := (bind m (fun x => k))
  (at level 61, m at next level, right associativity) : prog_scope.
Notation "m ;; k" := (bind m (fun _ => k))
  (at level 61, right associativity) : prog_scope.
Open Scope prog_scope.

(** [with enter as _: body], leaving through [leave]. *)
Definition with_block {A} (enter leave : M unit) (body : M A) : M A :=
  enter ;; try_finally body leave.

Definition wrap {A} (r : reply A) : outcome A :=
  match r with
  | Returns a => Ok a
  | Raises e => Raise e
  end.

(** Issue an operation: the environment answers from the log, and the
    operation is logged whether it returns or raises. *)
Definition call (env : environment) (o : op) : M (resp o) :=
  fun t => (wrap (env t o), t ++ [o]).

(** A program that ends with a value from every log. *)
Definition returns {A} (m : M A) : Prop :=
  forall t, exists a t', m t = (Ok a, t').

(** A program that ends, with a value or an exception, from every log. *)
Definition halts {A} (m : M A) : Prop :=
  forall t, fst (m t) <> Diverge.

(** Every operation the program adds to the log satisfies [P], however
    the program ends. *)
Definition issues (P : op -> Prop) {A : Type} (m : M A) : Prop :=
  forall t, exists new, snd (m t) = t ++ new /\ Forall P new.

(* ================================================================== *)
(** ** Locator candidates *)
(* ================================================================== *)

(** A double-quoted piece of a selector. *)
Definition q (s : str) : str := dq ++ s ++ dq.

Definition visible : option str := Some (u "visible").

Definition website_selectors : list str :=
  [ u "input[name=" ++ q (u "websiteURLOrKeyword") ++ u "]";
    u "input[data-testid=" ++ q (u "websiteURLOrKeyword") ++ u "]";
    u ".MuiInputBase-input";
    u "input[type=" ++ q (u "text") ++ u "]" ].

Definition industry_selectors : list str :=
  [ u "[aria-label=" ++ q (u "industry") ++ u "]";
    u "div[role=" ++ q (u "combobox") ++ u "] .MuiSelect-select";
    u ".MuiSelect-select";
    u ".sc-jYGMYt.sc-igAlAF.eZHANI.kHFAsD.MuiSelect-select" ].

Definition menu_selectors (industry_value : str) : list str :=
  [ u "li[role=" ++ q (u "option") ++ u "]:has-text(" ++ q industry_value ++ u ")";
    u ".MuiMenuItem-root:has-text(" ++ q industry_value ++ u ")";
    u "[role=" ++ q (u "option") ++ u "]:has-text(" ++ q industry_value ++ u ")";
    u "li:has-text(" ++ q industry_value ++ u ")" ].

Definition location_selectors : list str :=
  [ u "[aria-label=" ++ q (u "location") ++ u "] input";
    u "input[aria-autocomplete=" ++ q (u "list") ++ u "]";
    u ".MuiAutocomplete-input";
    u "input[role=" ++ q (u "combobox") ++ u "]";
    u "input[type=" ++ q (u "text") ++ u "][autocomplete=" ++ q (u "off") ++ u "]" ].

Definition autocomplete_selectors (location_value : str) : list str :=
  [ u "[role=" ++ q (u "option") ++ u "]:has-text(" ++ q location_value ++ u ")";
    u "[role=" ++ q (u "option") ++ u "]";
    u ".MuiAutocomplete-option:has-text(" ++ q location_value ++ u ")";
    u ".MuiAutocomplete-option";
    u "li[role=" ++ q (u "option") ++ u "]:has-text(" ++ q location_value ++ u ")";
    u "li[role=" ++ q (u "option") ++ u "]" ].

Definition continue_testid_selector : str :=
  u "button[data-testid=" ++ q (u "buttonContinue") ++ u "]".

Definition continue_text_selector : str :=
  u "button:has-text(" ++ q (u "Continue") ++ u ")".

(** The multiplication sign of the fifth close-button pattern is U+00D7. *)
Definition close_selectors : list str :=
  [ u "button[aria-label*=" ++ q (u "close") ++ u "]";
    u "button[aria-label*=" ++ q (u "Close") ++ u "]";
    u ".close";
    u "[data-testid*=" ++ q (u "close") ++ u "]";
    u "button:has-text(" ++ q [215%N] ++ u ")";
    u "button:has-text(" ++ q (u "Close") ++ u ")";
    u "button:has-text(" ++ q (u "No thanks") ++ u ")";
    u "button:has-text(" ++ q (u "Skip") ++ u ")";
    u "button:has-text(" ++ q (u "Later") ++ u ")" ].

Definition loading_selectors : list str :=
  [ u "[data-testid*=" ++ q (u "loading") ++ u "]";
    u ".loading";
    u "[class*=" ++ q (u "loading") ++ u "]";
    u "[role=" ++ q (u "progressbar") ++ u "]";
    u "text=" ++ q (u "Loading");
    u "text=" ++ q (u "Please wait");
    u "text=" ++ q (u "Analyzing");
    u "text=" ++ q (u "Processing") ].

Definition results_selectors : list str :=
  [ u "table tbody tr";
    u "table tr td";
    u "[data-testid*=" ++ q (u "results") ++ u "]";
    u ".results";
    u "[class*=" ++ q (u "result") ++ u "]";
    u "[class*=" ++ q (u "keyword") ++ u "]";
    u ".MuiTable-root";
    u ".MuiDataGrid-root";
    u "[role=" ++ q (u "grid") ++ u "]";
    u "[role=" ++ q (u "table") ++ u "]" ].

(* ================================================================== *)
(** ** The result record and the row tests of the extractor *)
(* ================================================================== *)

(** One [keyword_data] dict: its four keys. *)
Record keyword_data := {
  keyword : str;
  monthly_volume : str;
  cpc : str;
  competition : str
}.

Definition header_words : list str :=
  [ u "keyword"; u "search term"; u "phrase"; u "query" ].

(** Hyphen, en dash (U+2013), em dash (U+2014) and N/A. *)
Definition placeholders : list str :=
  [ u "-"; [8211%N]; [8212%N]; u "N/A" ].

Definition rejected_keywords : list str :=
  [ u "keyword"; u "search term"; u "phrase" ].

Definition fieldnames : list str :=
  [ u "keyword"; u "monthly_volume"; u "cpc"; u "competition" ].

(** The row [csv.DictWriter] writes for a record. *)
Definition csv_row (k : keyword_data) : list str :=
  [ keyword k; monthly_volume k; cpc k; competition k ].

Section RowTests.

Variable lower : str -> str.

(** [any(header in cell_texts[0].lower() for header in [...])] *)
Definition is_header_row (cell_texts : list str) : bool :=
  existsb (fun header => contains header (lower (nth 0 cell_texts [])))
          header_words.

(** [any(cell_text.strip() and cell_text.strip() not in [...] ...)] *)
Definition has_content (cell_texts : list str) : bool :=
  existsb (fun cell_text =>
             truthy (strip cell_text) && negb (mem (strip cell_text) placeholders))
          cell_texts.

Definition make_keyword_data (cell_texts : list str) : keyword_data :=
  {| keyword := if 0 <? List.length cell_texts then nth 0 cell_texts [] else [];
     monthly_volume :=
       if 1 <? List.length cell_texts then nth 1 cell_texts [] else u "N/A";
     cpc := if 2 <? List.length cell_texts then nth 2 cell_texts [] else u "N/A";
     competition :=
       if 3 <? List.length cell_texts then nth 3 cell_texts [] else u "N/A" |}.

(** The test before [keywords.append]. *)
Definition meaningful (k : keyword_data) : bool :=
  truthy (keyword k) && (1 <? List.length (keyword k))
  && negb (mem (lower (keyword k)) rejected_keywords).

(** One row of a table once its cell texts are read: the new value of
    [header_found] and the record appended, if any. *)
Definition classify_row (header_found : bool) (cell_texts : list str)
  : bool * option keyword_data :=
  if is_header_row cell_texts then (true, None)
  else if negb (has_content cell_texts) then (header_found, None)
  else if header_found && (2 <=? List.length cell_texts)
       then let keyword_data := make_keyword_data cell_texts in
            if meaningful keyword_data
            then (header_found, Some keyword_data)
            else (header_found, None)
       else (header_found, None).

End RowTests.

(** What holds of a record the row rules let through. *)
Definition sound_record (lower : str -> str) (k : keyword_data) : Prop :=
  keyword k <> []
  /\ 1 < List.length (keyword k)
  /\ (forall w, In w header_words -> contains w (lower (keyword k)) = false)
  /\ ~ In (lower (keyword k)) header_words.

(* ================================================================== *)
(** ** llm_agent.py *)
(* ================================================================== *)

Definition valid_industries : list str :=
  [ u "Automotive"; u "Beauty & Personal Care"; u "Business Services";
    u "Education"; u "Finance & Insurance"; u "Health & Medical";
    u "Home & Garden"; u "Legal Services"; u "Real Estate";
    u "Retail & E-commerce"; u "Technology"; u "Travel & Hospitality";
    u "Food & Beverage"; u "Entertainment"; u "Non-profit"; u "Construction";
    u "Manufacturing"; u "Agriculture"; u "Sports & Recreation" ].

Definition business_services : str := u "Business Services".

(** The prompt of [map_industry_to_wordstream], line by line; the lines
    after the first keep the four spaces of the source's indentation. *)
Definition industry_prompt (industry : str) : str :=
  u "Given the user's industry " ++ q (strip industry)
    ++ u ", map it to the closest matching option from WordStream's industry dropdown."
    ++ nl
  ++ u "    " ++ nl
  ++ u "    Valid WordStream industries:" ++ nl
  ++ u "    " ++ join nl (List.map (fun ind => u "- " ++ ind) valid_industries) ++ nl
  ++ u "    " ++ nl
  ++ u "    Rules:" ++ nl
  ++ u "    1. Return only the exact matching industry name from the list above" ++ nl
  ++ u "    2. If no close match exists, return " ++ q (u "Business Services") ++ nl
  ++ u "    3. Do not include any explanation or additional text" ++ nl
  ++ u "    4. The response must be one of the valid industries listed above" ++ nl
  ++ u "    " ++ nl
  ++ u "    Industry to map: " ++ q (strip industry) ++ u " ".

(** The [form_data] dict. *)
Record form_data := {
  website : str;
  industry : str;
  location : str
}.

Definition industry_keys : list str :=
  [ u "Industry"; u "industry"; u "INDUSTRY"; u "business_type"; u "sector" ].

Definition location_keys : list str :=
  [ u "locations"; u "location"; u "address"; u "city"; u "primary_location" ].

(** The loop over [location_keys]: the value [form_data["location"]] is
    set to, if the loop sets it. *)
Fixpoint find_location (c : config) (keys : list str) : option str :=
  match keys with
  | [] => None
  | key :: rest =>
      match config_get key c with
      | Some location_value =>
          if py_bool location_value then
            match location_value with
            | PyList (first :: _) _ => Some (strip (py_str first))
            | PyStr s => if truthy (strip s) then Some (strip s)
                         else find_location c rest
            | _ => find_location c rest
            end
          else find_location c rest
      | None => find_location c rest
      end
  end.

Section LlmAgent.

Variable env : environment.

Local Abbreviation io := (call env).

(** The [except] clauses of [get_llm] and of [generate_completion] log and
    re-raise. *)
Definition get_llm : M unit :=
  api_key <- io (GetEnv (u "GROQ_API_KEY")) ;;
  match api_key with
  | Some key =>
      if truthy key
      then try_except (io (GroqClient key)) (fun e => raise e)
      else raise (Exn "ValueError" "GROQ_API_KEY environment variable not set")
  | None => raise (Exn "ValueError" "GROQ_API_KEY environment variable not set")
  end.

(** The model name and the temperature of the request are constants of
    the source; the operation carries the prompt. *)
Definition generate_completion (prompt : str) : M str :=
  if negb (truthy prompt) || negb (truthy (strip prompt))
  then raise (Exn "ValueError" "Prompt cannot be empty")
  else
    try_except
      (completion <- io (ChatCreate prompt) ;;
       match choices completion with
       | [] => raise (Exn "ValueError" "No completion choices returned from API")
       | first :: _ =>
           match choice_message first with
           | None => raise (Exn "ValueError" "No message in completion choice")
           | Some m =>
               match content m with
               | Some text =>
                   if truthy text then ret (strip text)
                   else raise (Exn "ValueError" "Empty content in completion")
               | None => raise (Exn "ValueError" "Empty content in completion")
               end
           end
       end)
      (fun e => raise e).

Definition map_industry_to_wordstream (industry : str) : M str :=
  if negb (truthy industry) || negb (truthy (strip industry))
  then ret business_services
  else
    try_except
      (mapped_industry <- generate_completion (industry_prompt industry) ;;
       if mem mapped_industry valid_industries
       then ret mapped_industry
       else ret business_services)
      (fun _ => ret business_services).

(** The loop over [industry_keys] of [extract_form_data]: the mapped
    industry of the first key that is present with a true value and whose
    mapping does not raise. *)
Fixpoint find_industry (c : config) (keys : list str) : M (option str) :=
  match keys with
  | [] => ret None
  | key :: rest =>
      match config_get key c with
      | Some v =>
          if py_bool v then
            mapped <- try_except
                        (x <- map_industry_to_wordstream (py_str v) ;; ret (Some x))
                        (fun _ => ret None) ;;
            match mapped with
            | Some x => ret (Some x)
            | None => find_industry c rest
            end
          else find_industry c rest
      | None => find_industry c rest
      end
  end.

(** [config] is a dict here, so the [isinstance] test at the top passes. *)
Definition extract_form_data (c : config) : M form_data :=
  let website :=
    match config_get (u "brand_website") c with
    | Some (PyStr s) => strip s
    | _ => []
    end in
  mapped <- find_industry c industry_keys ;;
  ret {| website := website;
         industry := match mapped with
                     | Some x => x
                     | None => business_services
                     end;
         location := match find_location c location_keys with
                     | Some l => l
                     | None => []
                     end |}.

End LlmAgent.

(* ================================================================== *)
(** ** keyword_collector.py: the interaction helpers *)
(* ================================================================== *)

Section Collector.

Variable lower : str -> str.
Variable env : environment.

Local Abbreviation io := (call env).

(** The resolution loop of the three fillers:
    [for selector in selectors: try: x = wait_for_selector(...);
     if x: break  except: continue]. *)
Fixpoint first_visible (selectors : list str) : M (option elem) :=
  match selectors with
  | [] => ret None
  | selector :: rest =>
      found <- try_except (io (WaitForSelector selector 2000 visible))
                          (fun _ => ret None) ;;
      match found with
      | Some e => ret (Some e)
      | None => first_visible rest
      end
  end.

(** The option loop of the dropdown and of the autocomplete: wait for the
    candidate, click it, pause, and stop; any exception of the three goes
    to the next candidate.  Returns the flag the loop sets. *)
Fixpoint click_first_option (selectors : list str) : M bool :=
  match selectors with
  | [] => ret false
  | selector :: rest =>
      clicked <- try_except
                   (option <- io (WaitForSelector selector 3000 visible) ;;
                    match option with
                    | Some e =>
                        io (Click e) ;; io (WaitForTimeout 1000) ;; ret true
                    | None => ret false
                    end)
                   (fun _ => ret false) ;;
      if clicked then ret true else click_first_option rest
  end.

Definition fill_website_field (website_url : str) : M bool :=
  try_except
    (website_input <- first_visible website_selectors ;;
     match website_input with
     | None => ret false
     | Some e =>
         io (Click e) ;;
         io (WaitForTimeout 500) ;;
         io (SelectText e) ;;
         io (TypeText e website_url 100) ;;
         io (WaitForTimeout 1000) ;;
         ret true
     end)
    (fun _ => ret false).

Definition fill_industry_dropdown (industry_value : str) : M bool :=
  if negb (truthy industry_value) || str_eqb industry_value (u "All Industries")
  then ret true
  else
    try_except
      (industry_dropdown <- first_visible industry_selectors ;;
       match industry_dropdown with
       | None => ret false
       | Some e =>
           io (Click e) ;;
           io (WaitForTimeout 2000) ;;
           try_except
             (option_found <- click_first_option (menu_selectors industry_value) ;;
              if negb option_found
              then io (KeyboardPress (u "Escape")) ;; ret false
              else ret true)
             (fun _ => io (KeyboardPress (u "Escape")) ;; ret false)
       end)
      (fun _ => ret false).

Definition fill_location_autocomplete (location_value : str) : M bool :=
  if negb (truthy location_value)
  then ret true
  else
    try_except
      (location_input <- first_visible location_selectors ;;
       match location_input with
       | None => ret false
       | Some e =>
           io (Click e) ;;
           io (WaitForTimeout 500) ;;
           io (SelectText e) ;;
           io (KeyboardPress (u "Delete")) ;;
           io (WaitForTimeout 500) ;;
           io (TypeText e location_value 100) ;;
           io (WaitForTimeout 2000) ;;
           try_except
             (option_selected <-
                click_first_option (autocomplete_selectors location_value) ;;
              (if negb option_selected
               then io (KeyboardPress (u "Tab")) ;; io (WaitForTimeout 500)
               else ret tt) ;;
              ret true)
             (fun _ => io (KeyboardPress (u "Tab")) ;; ret true)
       end)
      (fun _ => ret false).

Definition click_continue_button (timeout : Z) : M bool :=
  try_except
    (continue_button <- io (WaitForSelector continue_testid_selector timeout None) ;;
     continue_button <-
       match continue_button with
       | Some e => ret (Some e)
       | None => io (WaitForSelector continue_text_selector 2000 None)
       end ;;
     match continue_button with
     | None => ret false
     | Some e =>
         is_visible <- io (IsVisible e) ;;
         unusable <- (if negb is_visible then ret true
                      else is_enabled <- io (IsEnabled e) ;; ret (negb is_enabled)) ;;
         if (unusable : bool) then ret false
         else io (Click e) ;; io (WaitForTimeout 2000) ;; ret true
     end)
    (fun _ => ret false).

(* ================================================================== *)
(** ** keyword_collector.py: the table extractor *)
(* ================================================================== *)

(** [[cell.inner_text().strip() for cell in cells]] *)
Fixpoint inner_texts (cells : list elem) : M (list str) :=
  match cells with
  | [] => ret []
  | cell :: rest =>
      text <- io (InnerText cell) ;;
      texts <- inner_texts rest ;;
      ret (strip text :: texts)
  end.

(** The body of the loop over rows. *)
Definition row_step (row : elem) (header_found : bool)
  : M (bool * option keyword_data) :=
  cells <- io (ElemQuerySelectorAll row (u "td, th")) ;;
  match cells with
  | [] => ret (header_found, None)
  | _ =>
      cell_texts <- inner_texts cells ;;
      ret (classify_row lower header_found cell_texts)
  end.

(** The loop over the rows of one table.  [keywords] is the list the
    function appends to: it is passed on explicitly and comes back next to
    the outcome, because the records appended before an exception stay in
    it. *)
Fixpoint rows_loop (rows : list elem) (header_found : bool)
         (keywords : list keyword_data) (t : trace)
  : list keyword_data * outcome unit * trace :=
  match rows with
  | [] => (keywords, Ok tt, t)
  | row :: rest =>
      match row_step row header_found t with
      | (Ok (header_found', Some k), t1) =>
          rows_loop rest header_found' (keywords ++ [k]) t1
      | (Ok (header_found', None), t1) =>
          rows_loop rest header_found' keywords t1
      | (Raise e, t1) => (keywords, Raise e, t1)
      | (Diverge, t1) => (keywords, Diverge, t1)
      end
  end.

(** The loop over tables; [header_found] starts false in each. *)
Fixpoint tables_loop (tables : list elem) (keywords : list keyword_data)
         (t : trace) : list keyword_data * outcome unit * trace :=
  match tables with
  | [] => (keywords, Ok tt, t)
  | table :: rest =>
      match io (ElemQuerySelectorAll table (u "tr")) t with
      | (Ok rows, t1) =>
          match rows_loop rows false keywords t1 with
          | (keywords', Ok _, t2) => tables_loop rest keywords' t2
          | r => r
          end
      | (Raise e, t1) => (keywords, Raise e, t1)
      | (Diverge, t1) => (keywords, Diverge, t1)
      end
  end.

(** The whole body is in one [try]; the [except] prints and the function
    returns [keywords] as it stands. *)
Definition extract_keywords_from_table : M (list keyword_data) :=
  fun t =>
    match io (QuerySelectorAll (u "table")) t with
    | (Ok tables, t1) =>
        match tables_loop tables [] t1 with
        | (keywords, Diverge, t2) => (Diverge, t2)
        | (keywords, _, t2) => (Ok keywords, t2)
        end
    | (Raise _, t1) => (Ok [], t1)
    | (Diverge, t1) => (Diverge, t1)
    end.

(* ================================================================== *)
(** ** keyword_collector.py: collect_keywords *)
(* ================================================================== *)

(** [clean_url]: a value that is not a string has no [startswith];
    [urlparse(url).netloc] is answered by the environment. *)
Definition clean_url (url : pyval) : M str :=
  match url with
  | PyStr url =>
      let url := if startswith (u "http://") url || startswith (u "https://") url
                 then url else u "https://" ++ url in
      netloc <- io (UrlNetloc url) ;;
      ret (replace (u "www.") [] netloc)
  | _ => raise (Exn "AttributeError" "object has no attribute 'startswith'")
  end.

(** The loop over [close_selectors]. *)
Fixpoint click_first_close (selectors : list str) : M unit :=
  match selectors with
  | [] => ret tt
  | close_selector :: rest =>
      clicked <- try_except
                   (close_button <- io (QuerySelector close_selector) ;;
                    match close_button with
                    | Some e =>
                        is_visible <- io (IsVisible e) ;;
                        if (is_visible : bool)
                        then io (Click e) ;; io (WaitForTimeout 1000) ;; ret true
                        else ret false
                    | None => ret false
                    end)
                   (fun _ => ret false) ;;
      if clicked then ret tt else click_first_close rest
  end.

Definition dismiss_popups : M unit :=
  try_except
    (click_first_close close_selectors ;;
     io (KeyboardPress (u "Escape")) ;;
     io (WaitForTimeout 1000))
    (fun _ => ret tt).

(** Navigation, up to the screenshot after the popups. *)
Definition open_form (timeout : Z) : M unit :=
  io (Goto (u "https://tools.wordstream.com/fkt") timeout) ;;
  io (WaitForLoadState (u "networkidle") timeout) ;;
  io (WaitForTimeout 3000) ;;
  io (Screenshot (u "step1_loaded.png")) ;;
  dismiss_popups ;;
  io (Screenshot (u "step1_after_popup.png")).

(** What follows a filled website field up to the screenshot of the
    filled form: the form data from the language model and the two
    optional fields. *)
Definition fill_optional_fields (c : config) : M unit :=
  get_llm env ;;
  form_data <- extract_form_data env c ;;
  (if truthy (industry form_data)
      && negb (str_eqb (industry form_data) (u "All Industries"))
   then _ <- fill_industry_dropdown (industry form_data) ;; ret tt
   else ret tt) ;;
  (if truthy (location form_data)
   then _ <- fill_location_autocomplete (location form_data) ;; ret tt
   else ret tt) ;;
  io (Screenshot (u "step2_filled.png")).

Definition submit_form : M unit :=
  continue_success <- click_continue_button 5000 ;;
  if (continue_success : bool) then ret tt
  else raise (Exn "Exception" "Failed to click Continue button").

(** [any(el.is_visible() for el in elements)] *)
Fixpoint any_visible (elements : list elem) : M bool :=
  match elements with
  | [] => ret false
  | el :: rest =>
      is_visible <- io (IsVisible el) ;;
      if (is_visible : bool) then ret true else any_visible rest
  end.

(** The selector a loading pattern is queried with: a pattern that starts
    with [text=] loses these five characters and is put between double
    quotes after [text=] again. *)
Definition loading_query (selector : str) : str :=
  if startswith (u "text=") selector
  then u "text=" ++ q (skipn 5 selector)
  else selector.

(** The loop over [loading_selectors]: the value of [loading_visible]. *)
Fixpoint any_loading (selectors : list str) : M bool :=
  match selectors with
  | [] => ret false
  | selector :: rest =>
      seen <- try_except
                (elements <- io (QuerySelectorAll (loading_query selector)) ;;
                 any_visible elements)
                (fun _ => ret false) ;;
      if seen then ret true else any_loading rest
  end.

(** [max_wait_time = 120000], an [int] that the comparison takes at its
    exact value, which is a double. *)
Definition max_wait_time : float := 120000%float.

(** [current_time - start_time > max_wait_time]: the difference is
    rounded to a double, and the test is false on a NaN. *)
Definition over_ceiling (current_time start_time : float) : bool :=
  PrimFloat.ltb max_wait_time (PrimFloat.sub current_time start_time).

(** [time.time() * 1000], rounded to a double. *)
Definition now_ms : M float :=
  seconds <- io Time ;; ret (PrimFloat.mul seconds 1000%float).

(** The [while True] loop, with fuel for its iterations. *)
Fixpoint loading_loop (fuel : nat) (start_time : float) : M unit :=
  match fuel with
  | O => diverge
  | S fuel' =>
      current_time <- now_ms ;;
      if over_ceiling current_time start_time then ret tt
      else
        loading_visible <- any_loading loading_selectors ;;
        if negb loading_visible then ret tt
        else io (WaitForTimeout 3000) ;; loading_loop fuel' start_time
  end.

(** From the pause after the click to the pause after the loop. *)
Definition wait_for_results (fuel : nat) : M unit :=
  io (WaitForTimeout 10000) ;;
  io (Screenshot (u "step3_after_continue.png")) ;;
  start_time <- now_ms ;;
  loading_loop fuel start_time ;;
  io (WaitForTimeout 5000).

(** The loop over [results_selectors], with the two variables it sets:
    [results_found] is set before the extractor is called, so it stays
    set if that call should raise and the loop goes on. *)
Fixpoint scan_results (selectors : list str) (results_found : bool)
         (keywords : list keyword_data) : M (bool * list keyword_data) :=
  match selectors with
  | [] => ret (results_found, keywords)
  | selector :: rest =>
      elements <- try_except
                    (elements <- io (QuerySelectorAll selector) ;; ret (Some elements))
                    (fun _ => ret None) ;;
      match elements with
      | Some (_ :: _) =>
          if contains (u "table") selector then
            extracted <- try_except
                           (k <- extract_keywords_from_table ;; ret (Some k))
                           (fun _ => ret None) ;;
            match extracted with
            | Some k => ret (true, k)
            | None => scan_results rest true keywords
            end
          else ret (true, keywords)
      | _ => scan_results rest results_found keywords
      end
  end.

Definition find_results : M (list keyword_data) :=
  io (Screenshot (u "step4_results.png")) ;;
  found <- scan_results results_selectors false [] ;;
  if negb (fst found)
  then io (Screenshot (u "no_results_found.png")) ;; ret []
  else ret (snd found).

(** The body of the [try] of [collect_keywords]. *)
Definition automation (c : config) (brand_website : str) (timeout : Z)
           (fuel : nat) : M (list keyword_data) :=
  open_form timeout ;;
  success <- fill_website_field brand_website ;;
  (if (success : bool) then io (Screenshot (u "step2_website_filled.png"))
   else raise (Exn "Exception" "Failed to fill website field")) ;;
  fill_optional_fields c ;;
  submit_form ;;
  wait_for_results fuel ;;
  find_results.

(** The [with sync_playwright()] block: launch, context, page, then
    [try: ... except: screenshot; raise  finally: browser.close()]. *)
Definition browser_session (c : config) (brand_website : str) (timeout : Z)
           (fuel : nat) : M (list keyword_data) :=
  with_block (io PlaywrightStart) (io PlaywrightStop)
    (io Launch ;;
     io NewContext ;;
     io NewPage ;;
     try_finally
       (try_except (automation c brand_website timeout fuel)
                   (fun e => io (Screenshot (u "error_screenshot.png")) ;; raise e))
       (io BrowserClose)).

(** The two branches after the browser: header and rows, or header
    alone; the file is closed on the way out of its [with] block. *)
Definition save_results (output_csv : str) (keywords : list keyword_data)
  : M unit :=
  match keywords with
  | _ :: _ =>
      with_block (io (FileOpen output_csv)) (io FileClose)
        (io (FileWriteRows [fieldnames]) ;;
         io (FileWriteRows (List.map csv_row keywords)))
  | [] =>
      with_block (io (FileOpen output_csv)) (io FileClose)
        (io (FileWriteRows [fieldnames]))
  end.

Definition collect_keywords (c : config) (output_csv : str) (timeout : Z)
           (fuel : nat) : M unit :=
  io (MakeDirs (dirname output_csv)) ;;
  match config_get (u "brand_website") c with
  | Some brand_website =>
      if py_bool brand_website then
        clean_url brand_website ;;
        keywords <- browser_session c (py_str brand_website) timeout fuel ;;
        save_results output_csv keywords
      else raise (Exn "Exception" "No brand_website found in config file")
  | None => raise (Exn "Exception" "No brand_website found in config file")
  end.

End Collector.

(* ================================================================== *)
(** ** scraper.py: the choice of the internal links *)
(* ================================================================== *)

Section Scraper.

(** [urljoin] and [urlparse(_).netloc] of [urllib.parse]: pure functions
    of which nothing is assumed. *)
Variable urljoin : str -> str -> str.
Variable netloc : str -> str.

(** The loop of [scrape] over the anchors of the page.  [links] holds,
    for each anchor in turn, what [a.get_attribute('href')] gives: a
    string, [None], or an exception, which leaves [scrape] since the loop
    has no [try].  The limit is tested at the end of the body, after the
    append. *)
Fixpoint internal_links_loop (url base : str) (max_links : Z)
         (links : list (reply (option str))) (internal_links : list str)
  : outcome (list str) :=
  match links with
  | [] => Ok internal_links
  | Raises e :: _ => Raise e
  | Returns href :: rest =>
      let internal_links :=
        match href with
        | Some href =>
            if truthy href then
              let abs_url := urljoin url href in
              if str_eqb (netloc abs_url) base && negb (str_eqb abs_url url)
              then internal_links ++ [abs_url]
              else internal_links
            else internal_links
        | None => internal_links
        end in
      if (max_links <=? Z.of_nat (List.length internal_links))%Z
      then Ok internal_links
      else internal_links_loop url base max_links rest internal_links
  end.

(** [internal_links] as [scrape] has it after the loop. *)
Definition internal_links (url : str) (max_links : Z)
           (links : list (reply (option str))) : outcome (list str) :=
  internal_links_loop url (netloc url) max_links links [].

End Scraper.

(* ================================================================== *)
(** ** Pages as data, and what it means for an environment to show one *)
(* ================================================================== *)

(** A table as the rows of its cells' inner texts. *)
Definition table_text := list (list str).

(** The records the extractor's row rules give for the rows of one
    table, read off the texts. *)
Fixpoint records_of_rows (lower : str -> str) (rows : table_text)
         (header_found : bool) : list keyword_data :=
  match rows with
  | [] => []
  | [] :: rest => records_of_rows lower rest header_found
  | cells :: rest =>
      match classify_row lower header_found (List.map strip cells) with
      | (header_found', Some k) => k :: records_of_rows lower rest header_found'
      | (header_found', None) => records_of_rows lower rest header_found'
      end
  end.

Definition records_of_tables (lower : str -> str) (tables : list table_text)
  : list keyword_data :=
  flat_map (fun rows => records_of_rows lower rows false) tables.

(** The environment answers the extractor's queries with the given
    tables, whatever was issued before. *)
Definition shows_cells (env : environment) (cells : list elem)
           (texts : list str) : Prop :=
  Forall2 (fun cell text => forall t, env t (InnerText cell) = Returns text)
          cells texts.

Definition shows_rows (env : environment) (rows : list elem)
           (texts : table_text) : Prop :=
  Forall2 (fun row cell_texts =>
             exists cells,
               (forall t, env t (ElemQuerySelectorAll row (u "td, th"))
                          = Returns cells)
               /\ shows_cells env cells cell_texts)
          rows texts.

Definition shows_tables (env : environment) (tables : list table_text) : Prop :=
  exists handles,
    (forall t, env t (QuerySelectorAll (u "table")) = Returns handles)
    /\ Forall2 (fun table texts =>
                  exists rows,
                    (forall t, env t (ElemQuerySelectorAll table (u "tr"))
                               = Returns rows)
                    /\ shows_rows env rows texts)
               handles tables.

(* ================================================================== *)
(** ** Example environments *)
(* ================================================================== *)

Definition timeout_error : exn := Exn "TimeoutError" "Timeout exceeded".

(** A page with nothing on it: waiting for a selector times out, queries
    find nothing, everything else returns. *)
Definition quiet : environment :=
  fun _ o =>
    match o as o' return reply (resp o') with
    | WaitForSelector _ _ _ => Raises timeout_error
    | QuerySelector _ => Returns None
    | QuerySelectorAll _ => Returns []
    | ElemQuerySelectorAll _ _ => Returns []
    | IsVisible _ => Returns false
    | IsEnabled _ => Returns false
    | InnerText _ => Returns []
    | UrlNetloc _ => Returns []
    | Time => Returns 0%float
    | GetEnv _ => Returns None
    | ChatCreate _ => Returns {| choices := [] |}
    | WaitForTimeout _ => Returns tt
    | KeyboardPress _ => Returns tt
    | Screenshot _ => Returns tt
    | Goto _ _ => Returns tt
    | WaitForLoadState _ _ => Returns tt
    | Click _ => Returns tt
    | SelectText _ => Returns tt
    | TypeText _ _ _ => Returns tt
    | PlaywrightStart => Returns tt
    | PlaywrightStop => Returns tt
    | Launch => Returns tt
    | NewContext => Returns tt
    | NewPage => Returns tt
    | BrowserClose => Returns tt
    | MakeDirs _ => Returns tt
    | GroqClient _ => Returns tt
    | FileOpen _ => Returns tt
    | FileWriteRows _ => Returns tt
    | FileClose => Returns tt
    end.

(** A static page holding tables.  Table [i] has handle [i+1], its row
    [j] has handle [1000*(i+1) + j+1], and cell [k] of a row with handle
    [r] has handle [1000*r + k+1]. *)
Definition handles_under (parent : N) (n : nat) : list elem :=
  List.map (fun k => (1000 * parent + N.of_nat k + 1)%N) (seq 0 n).

Definition table_at (tables : list table_text) (h : N) : table_text :=
  nth (N.to_nat (h - 1)) tables [].

Definition row_at (tables : list table_text) (h : N) : list str :=
  nth (N.to_nat (h mod 1000 - 1)) (table_at tables (h / 1000)) [].

Definition cell_at (tables : list table_text) (h : N) : str :=
  nth (N.to_nat (h mod 1000 - 1)) (row_at tables (h / 1000)) [].

Definition table_page (tables : list table_text) : environment :=
  fun t o =>
    match o as o' return reply (resp o') with
    | QuerySelectorAll selector =>
        if contains (u "table") selector
        then Returns (handles_under 0 (List.length tables))
        else Returns []
    | ElemQuerySelectorAll e selector =>
        if str_eqb selector (u "tr")
        then Returns (handles_under e (List.length (table_at tables e)))
        else if str_eqb selector (u "td, th")
        then Returns (handles_under e (List.length (row_at tables e)))
        else Returns []
    | InnerText e => Returns (cell_at tables e)
    | o' => quiet t o'
    end.

(** The table of the specification's example. *)
Definition example_table : table_text :=
  [ [ u "Keyword"; u "Monthly Volume" ];
    [ u "running shoes"; u "1000" ];
    [ u "-"; u "-" ];
    [ u "trail shoes"; [] ] ].

Definition running_shoes : keyword_data :=
  {| keyword := u "running shoes"; monthly_volume := u "1000";
     cpc := u "N/A"; competition := u "N/A" |}.

(** The second record as the specification's example gives it. *)
Definition trail_shoes_claimed : keyword_data :=
  {| keyword := u "trail shoes"; monthly_volume := u "N/A";
     cpc := u "N/A"; competition := u "N/A" |}.

(** The second record as the extractor builds it: the volume cell is
    there and its text is empty. *)
Definition trail_shoes : keyword_data :=
  {| keyword := u "trail shoes"; monthly_volume := [];
     cpc := u "N/A"; competition := u "N/A" |}.

(** A page on which the listed selectors resolve, each to its element,
    and every element is visible and enabled; other selectors time out. *)
Fixpoint lookup (selector : str) (present : list (str * elem)) : option elem :=
  match present with
  | [] => None
  | (k, e) :: rest => if str_eqb selector k then Some e else lookup selector rest
  end.

Definition page_with (present : list (str * elem)) : environment :=
  fun t o =>
    match o as o' return reply (resp o') with
    | WaitForSelector selector _ _ =>
        match lookup selector present with
        | Some e => Returns (Some e)
        | None => Raises timeout_error
        end
    | IsVisible _ => Returns true
    | IsEnabled _ => Returns true
    | o' => quiet t o'
    end.

(** A language model that answers every prompt with [text]. *)
Definition answering (text : str) : environment :=
  fun t o =>
    match o as o' return reply (resp o') with
    | GetEnv _ => Returns (Some (u "key"))
    | ChatCreate _ =>
        Returns {| choices :=
                     [ {| choice_message := Some {| content := Some text |} |} ] |}
    | o' => quiet t o'
    end.

(** The operations all return, issued one after the other from [t]. *)
Fixpoint all_return (env : environment) (t : trace) (ops : list op) : Prop :=
  match ops with
  | [] => True
  | o :: rest =>
      (exists a, env t o = Returns a) /\ all_return env (t ++ [o]) rest
  end.

(** No candidate of the list ever resolves to an element within the
    given timeout: each wait raises or returns nothing. *)
Definition none_appears (env : environment) (selectors : list str)
           (timeout : Z) : Prop :=
  forall selector t e,
    In selector selectors ->
    env t (WaitForSelector selector timeout visible) <> Returns (Some e).

(** The waits a resolution loop issues for its candidates. *)
Definition waits (selectors : list str) (timeout : Z) : list op :=
  List.map (fun selector => WaitForSelector selector timeout visible) selectors.

(** A form on which the website input, the industry dropdown and the
    location input resolve by their first candidates, and on which no
    menu item and no suggestion ever shows. *)
Definition form_page : environment :=
  page_with [ (nth 0 website_selectors [], 1%N);
              (nth 0 industry_selectors [], 2%N);
              (nth 0 location_selectors [], 3%N) ].


(** A page whose Continue button has no test id: only the text
    candidate resolves, to a visible and enabled button. *)
Definition text_button_page : environment :=
  page_with [ (continue_text_selector, 7%N) ].

(** A site on which a run goes through: the website input and the
    Continue button resolve, the API key is set, and the results page
    holds the given tables. *)
Definition site (tables : list table_text) : environment :=
  fun t o =>
    match o as o' return reply (resp o') with
    | WaitForSelector selector _ _ =>
        match lookup selector [ (nth 0 website_selectors [], 1%N);
                                (continue_testid_selector, 7%N) ] with
        | Some e => Returns (Some e)
        | None => Raises timeout_error
        end
    | IsVisible _ => Returns true
    | IsEnabled _ => Returns true
    | GetEnv _ => Returns (Some (u "key"))
    | QuerySelectorAll selector => table_page tables t (QuerySelectorAll selector)
    | ElemQuerySelectorAll e selector =>
        table_page tables t (ElemQuerySelectorAll e selector)
    | InnerText e => table_page tables t (InnerText e)
    | o' => quiet t o'
    end.

(** The same site when the navigation fails. *)
Definition unreachable_site : environment :=
  fun t o =>
    match o as o' return reply (resp o') with
    | Goto _ _ => Raises (Exn "Error" "net::ERR_NAME_NOT_RESOLVED")
    | o' => site [] t o'
    end.

Definition example_config : config :=
  [ (u "brand_website", PyStr (u "example.com")) ].

Definition example_csv : str := u "data/wordstream_output.csv".

(** The operations that touch the output file. *)
Definition is_file_op (o : op) : bool :=
  match o with
  | FileOpen _ | FileWriteRows _ | FileClose => true
  | _ => false
  end.

Definition not_file_op (o : op) : Prop := is_file_op o = false.

(** The rows a sequence of operations writes. *)
Definition written (ops : list op) : list (list str) :=
  flat_map (fun o => match o with
                     | FileWriteRows rows => rows
                     | _ => []
                     end) ops.

(** The operations of a save that goes through: open, header, the rows
    in one write if there are any, close. *)
Definition save_ops (output_csv : str) (keywords : list keyword_data)
  : list op :=
  FileOpen output_csv
  :: FileWriteRows [fieldnames]
  :: match keywords with
     | [] => []
     | _ :: _ => [FileWriteRows (List.map csv_row keywords)]
     end
  ++ [FileClose].

(** The run of [collect_keywords] before the browser is started. *)
Definition before_browser (env : environment) (brand_website : pyval)
           (output_csv : str) : M str :=
  call env (MakeDirs (dirname output_csv)) ;;
  clean_url env brand_website.

(** The start of the [with] block: Playwright, browser, context, page. *)
Definition launch_browser (env : environment) : M unit :=
  call env PlaywrightStart ;;
  call env Launch ;;
  call env NewContext ;;
  call env NewPage.

(** The run of [collect_keywords] from its start to the website field:
    directory, URL, browser, context, page, and the form opened. *)
Definition up_to_website_field (env : environment) (brand_website : pyval)
           (output_csv : str) (timeout : Z) : M unit :=
  before_browser env brand_website output_csv ;;
  call env PlaywrightStart ;;
  call env Launch ;;
  call env NewContext ;;
  call env NewPage ;;
  open_form env timeout.

(** *** The completion waiter, tick by tick *)






(** The operations that look at the page. *)
Definition is_look (o : op) : bool :=
  match o with
  | QuerySelectorAll _ | IsVisible _ => true
  | _ => false
  end.

(** The page as it is while it is looked at from the log [t]: as long
    as the program does nothing but look, a selector finds the elements
    [found] gives for it and an element is visible as [shown] says.
    Between two passes the page may change. *)
Definition shows_at (env : environment) (t : trace)
           (found : str -> list elem) (shown : elem -> bool) : Prop :=
  forall new,
    Forall (fun o => is_look o = true) new ->
    (forall selector,
        env (t ++ new) (QuerySelectorAll selector) = Returns (found selector))
    /\ (forall e, env (t ++ new) (IsVisible e) = Returns (shown e)).







(* ================================================================== *)
(** ** Notions for the properties of the helpers *)
(* ================================================================== *)

(** Neither the first nor the last code point of the string is white
    space: what [strip] leaves. *)
Definition trimmed (s : str) : Prop :=
  (forall c rest, s = c :: rest -> isspace c = false)
  /\ (forall front c, s = front ++ [c] -> isspace c = false).

(** The four fields of a record are trimmed. *)
Definition trimmed_record (k : keyword_data) : Prop :=
  trimmed (keyword k) /\ trimmed (monthly_volume k)
  /\ trimmed (cpc k) /\ trimmed (competition k).

(** The program's first operation is [o], whatever follows. *)
Definition starts_with (o : op) {A : Type} (m : M A) : Prop :=
  forall t, exists rest, snd (m t) = t ++ o :: rest.

Definition is_key_press (o : op) : bool :=
  match o with
  | KeyboardPress _ => true
  | _ => false
  end.

(** A form whose industry dropdown opens on a menu that holds an item
    for "Technology", element 5. *)
Definition menu_page : environment :=
  page_with [ (nth 0 industry_selectors [], 2%N);
              (nth 0 (menu_selectors (u "Technology")) [], 5%N) ].

(** A form whose location input shows suggestions, none of which holds
    the typed text "Berlin": the candidate for any option resolves, to
    element 8. *)
Definition suggestion_page : environment :=
  page_with [ (nth 0 location_selectors [], 3%N);
              (nth 1 (autocomplete_selectors (u "Berlin")) [], 8%N) ].

(** A site with the website input and the API key, and no Continue
    button. *)
Definition buttonless_site : environment :=
  fun t o =>
    match o as o' return reply (resp o') with
    | WaitForSelector selector _ _ =>
        match lookup selector [ (nth 0 website_selectors [], 1%N) ] with
        | Some e => Returns (Some e)
        | None => Raises timeout_error
        end
    | GetEnv _ => Returns (Some (u "key"))
    | o' => quiet t o'
    end.

(** A table with data rows and no header row. *)
Definition headerless_table : table_text :=
  [ [ u "running shoes"; u "1000" ];
    [ u "trail shoes"; u "500" ] ].

(** The page of the example table on which the cells of the fourth row
    cannot be read. *)
Definition broken_page : environment :=
  fun t o =>
    match o as o' return reply (resp o') with
    | ElemQuerySelectorAll e selector =>
        if (e =? 1004)%N
        then Raises (Exn "Error" "Element is not attached to the DOM")
        else table_page [example_table] t (ElemQuerySelectorAll e selector)
    | o' => table_page [example_table] t o'
    end.

(** The page shows [tables], and after them a table of which the rows
    [rows_read] can be read and the next row cannot: the query for its
    cells raises. *)
Definition breaks_after (env : environment) (tables : list table_text)
           (rows_read : table_text) : Prop :=
  exists handles bad rest,
    (forall t, env t (QuerySelectorAll (u "table"))
               = Returns (handles ++ bad :: rest))
    /\ Forall2 (fun table texts =>
                  exists rows,
                    (forall t, env t (ElemQuerySelectorAll table (u "tr"))
                               = Returns rows)
                    /\ shows_rows env rows texts)
               handles tables
    /\ exists rows bad_row rest_rows,
        (forall t, env t (ElemQuerySelectorAll bad (u "tr"))
                   = Returns (rows ++ bad_row :: rest_rows))
        /\ shows_rows env rows rows_read
        /\ (forall t, exists e,
               env t (ElemQuerySelectorAll bad_row (u "td, th")) = Raises e).

(** A page whose one loading indicator is a visible element, 9, with
    the text Loading: the pattern of the list, [text="Loading"], finds
    it, and no other selector finds anything. *)
Definition text_indicator_page : environment :=
  fun t o =>
    match o as o' return reply (resp o') with
    | QuerySelectorAll selector =>
        if str_eqb selector (u "text=" ++ q (u "Loading"))
        then Returns [9%N] else Returns []
    | IsVisible _ => Returns true
    | o' => quiet t o'
    end.

(** The queries the loop over the result selectors issues for the
    selectors it passes. *)
Definition queries (selectors : list str) : list op :=
  List.map QuerySelectorAll selectors.

(** [selector] is the first of [selectors] whose query, issued in turn
    from [t], returns elements: the queries before it raised or returned
    none. *)
Definition first_match (env : environment) (t : trace) (selectors : list str)
           (before : list str) (selector : str) (after : list str)
           (elements : list elem) : Prop :=
  selectors = before ++ selector :: after
  /\ env (t ++ queries before) (QuerySelectorAll selector) = Returns elements
  /\ elements <> []
  /\ forall b s a els,
      before = b ++ s :: a ->
      env (t ++ queries b) (QuerySelectorAll s) = Returns els -> els = [].

(** What makes a link internal to the page at [url]: it is the address
    joined with a non-empty reference, on the host of the page, and not
    the page's own address. *)
Definition internal_link (urljoin : str -> str -> str) (netloc : str -> str)
           (url link : str) : Prop :=
  netloc link = netloc url /\ link <> url
  /\ exists href, href <> [] /\ link = urljoin url href.

(** Stand-ins for [urljoin] and [netloc] on which the link loop can be
    run: joining appends the reference to the address, and the host is
    what follows the eight code points of [https://] up to the next
    slash. *)
Definition append_join (url href : str) : str := url ++ href.

Fixpoint up_to_slash (s : str) : str :=
  match s with
  | [] => []
  | c :: s' => if (c =? 47)%N then [] else c :: up_to_slash s'
  end.

Definition host_of (url : str) : str := up_to_slash (skipn 8 url).

(* ================================================================== *)
(** * Properties *)
(* ================================================================== *)

Unset Implicit Arguments.

(** ** Strings *)

Lemma str_eqb_eq (a b : str) : str_eqb a b = true <-> a = b.
Proof.
  revert b; induction a as [|x a IH]; intros [|y b]; simpl;
    try (split; [discriminate | congruence]); try tauto.
  rewrite andb_true_iff, N.eqb_eq, IH. split.
  - intros [-> ->]; reflexivity.
  - intros E; injection E; auto.
Qed.

Lemma str_eqb_refl (a : str) : str_eqb a a = true.
Proof. apply str_eqb_eq; reflexivity. Qed.

Lemma mem_In (x : str) (xs : list str) : mem x xs = true <-> In x xs.
Proof.
  unfold mem. rewrite existsb_exists. split.
  - intros [y [Hy E]]. apply str_eqb_eq in E. subst; assumption.
  - intros H. exists x. split; [assumption | apply str_eqb_refl].
Qed.

Lemma mem_false_not_In (x : str) (xs : list str) :
  mem x xs = false -> ~ In x xs.
Proof.
  intros E H. apply mem_In in H. congruence.
Qed.

Lemma startswith_refl (s : str) : startswith s s = true.
Proof.
  induction s as [|c s IH]; simpl; [reflexivity|].
  rewrite N.eqb_refl. assumption.
Qed.

Lemma contains_refl (s : str) : contains s s = true.
Proof.
  destruct s; simpl; [reflexivity|].
  rewrite N.eqb_refl, startswith_refl. reflexivity.
Qed.

(** On the lower-case ASCII words of the extractor's lists, [lower]
    changes nothing. *)
Lemma lower_header_word (lower : str -> str) (w : str) :
  lower_spec lower -> In w header_words -> lower w = w.
Proof.
  intros Hl Hw. simpl in Hw.
  repeat (destruct Hw as [<- | Hw]; [rewrite Hl; reflexivity|]).
  contradiction.
Qed.

(** ** The program monad *)

Lemma returns_halts {A} (m : M A) : returns m -> halts m.
Proof.
  intros H t. destruct (H t) as [a [t' E]]. rewrite E. discriminate.
Qed.

Lemma halts_ret {A} (a : A) : halts (ret a).
Proof. intros t; discriminate. Qed.

Lemma halts_raise {A} (e : exn) : halts (@raise A e).
Proof. intros t; discriminate. Qed.

Lemma halts_call (env : environment) (o : op) : halts (call env o).
Proof.
  intros t. unfold call; simpl. destruct (env t o); discriminate.
Qed.

Lemma halts_bind {A B} (m : M A) (k : A -> M B) :
  halts m -> (forall a, halts (k a)) -> halts (bind m k).
Proof.
  intros Hm Hk t. unfold bind. specialize (Hm t).
  destruct (m t) as [[a| e |] t1]; simpl in *;
    [apply Hk | discriminate | congruence].
Qed.

Lemma halts_try_except {A} (m : M A) (h : exn -> M A) :
  halts m -> (forall e, halts (h e)) -> halts (try_except m h).
Proof.
  intros Hm Hh t. unfold try_except. specialize (Hm t).
  destruct (m t) as [[a| e |] t1]; simpl in *;
    [discriminate | apply Hh | congruence].
Qed.

Lemma halts_try_finally {A} (m : M A) (c : M unit) :
  halts m -> halts c -> halts (try_finally m c).
Proof.
  intros Hm Hc t. unfold try_finally. specialize (Hm t).
  destruct (m t) as [[a| e |] t1]; simpl in *; try congruence;
    specialize (Hc t1); destruct (c t1) as [[[]| e' |] t2]; simpl in *;
    congruence.
Qed.

(** A [try] whose body ends and whose handler returns, returns: no
    exception leaves it. *)
Lemma returns_try_except {A} (m : M A) (h : exn -> M A) :
  halts m -> (forall e, returns (h e)) -> returns (try_except m h).
Proof.
  intros Hm Hh t. unfold try_except. specialize (Hm t).
  destruct (m t) as [[a| e |] t1]; simpl in *.
  - eauto.
  - apply Hh.
  - congruence.
Qed.

Lemma returns_ret {A} (a : A) : returns (ret a).
Proof. intros t; unfold ret; eauto. Qed.

Lemma returns_bind {A B} (m : M A) (k : A -> M B) :
  returns m -> (forall a, returns (k a)) -> returns (bind m k).
Proof.
  intros Hm Hk t. unfold bind. destruct (Hm t) as [a [t1 E]]. rewrite E.
  apply Hk.
Qed.

(** Goes through a program built from the combinators above, leaving the
    calls of other functions of the program. *)
Ltac halt :=
  repeat first
    [ apply halts_ret
    | apply halts_raise
    | match goal with |- halts (call ?e ?o) => exact (halts_call e o) end
    | assumption
    | apply halts_bind; [| intros ?]
    | apply halts_try_except; [| intros ?]
    | apply halts_try_finally
    | match goal with |- halts (match ?x with _ => _ end) => destruct x end
    | match goal with |- halts (if ?x then _ else _) => destruct x end ].

(** ** The table extractor *)

Section ExtractorFacts.

Variable lower : str -> str.
Variable env : environment.

Lemma header_row_first_cell (cell_texts : list str) (w : str) :
  In w header_words ->
  contains w (lower (nth 0 cell_texts [])) = true ->
  is_header_row lower cell_texts = true.
Proof.
  intros Hw Hc. unfold is_header_row. apply existsb_exists.
  exists w. split; assumption.
Qed.

Lemma not_header_row_first_cell (cell_texts : list str) :
  is_header_row lower cell_texts = false ->
  forall w, In w header_words ->
            contains w (lower (nth 0 cell_texts [])) = false.
Proof.
  intros H w Hw.
  destruct (contains w (lower (nth 0 cell_texts []))) eqn:E; [|reflexivity].
  rewrite (header_row_first_cell _ _ Hw E) in H. discriminate.
Qed.

(** A row gives a record only if it is no header row, has content and
    two cells, comes after a header, and the record passes the last
    test; the record is the one built from its cells. *)
Lemma classify_row_some (header_found : bool) (cell_texts : list str)
      (header_found' : bool) (k : keyword_data) :
  classify_row lower header_found cell_texts = (header_found', Some k) ->
  is_header_row lower cell_texts = false
  /\ has_content cell_texts = true
  /\ header_found = true
  /\ 2 <= List.length cell_texts
  /\ k = make_keyword_data cell_texts
  /\ meaningful lower k = true.
Proof.
  unfold classify_row.
  destruct (is_header_row lower cell_texts) eqn:Hh; [discriminate|].
  destruct (has_content cell_texts) eqn:Hc; [|discriminate].
  destruct header_found; [|discriminate].
  destruct (2 <=? List.length cell_texts) eqn:Hl; [|discriminate].
  cbv beta iota zeta delta [negb andb].
  destruct (meaningful lower (make_keyword_data cell_texts)) eqn:Hm;
    [|discriminate].
  intros E. assert (Ek : k = make_keyword_data cell_texts) by congruence.
  apply Nat.leb_le in Hl. subst k. repeat split; auto.
Qed.

Lemma classify_row_sound (header_found : bool) (cell_texts : list str)
      (header_found' : bool) (k : keyword_data) :
  classify_row lower header_found cell_texts = (header_found', Some k) ->
  sound_record lower k /\ keyword k = nth 0 cell_texts [].
Proof.
  intros H. apply classify_row_some in H.
  destruct H as (Hh & _ & _ & Hl & -> & Hm).
  assert (Hk : keyword (make_keyword_data cell_texts) = nth 0 cell_texts []).
  { simpl. destruct cell_texts; [simpl in Hl; lia | reflexivity]. }
  split; [|exact Hk].
  unfold meaningful in Hm. rewrite !andb_true_iff in Hm.
  destruct Hm as [[Ht Hlen] _]. rewrite Hk in *.
  assert (Hno : forall w, In w header_words ->
                          contains w (lower (nth 0 cell_texts [])) = false)
    by (apply not_header_row_first_cell; assumption).
  unfold sound_record. rewrite Hk. repeat split.
  - intros E. rewrite E in Ht. discriminate.
  - apply Nat.ltb_lt in Hlen. exact Hlen.
  - exact Hno.
  - intros Hin. specialize (Hno _ Hin). rewrite contains_refl in Hno.
    discriminate.
Qed.

(** A row whose first cell is a header word once lowered gives no
    record, wherever it stands in the table. *)
Lemma classify_row_header_word (header_found : bool) (cell_texts : list str) :
  In (lower (nth 0 cell_texts [])) header_words ->
  classify_row lower header_found cell_texts = (true, None).
Proof.
  intros Hin. unfold classify_row.
  rewrite (header_row_first_cell cell_texts _ Hin (contains_refl _)).
  reflexivity.
Qed.

Lemma row_step_sound (row : elem) (header_found header_found' : bool)
      (k : keyword_data) (t t' : trace) :
  row_step lower env row header_found t = (Ok (header_found', Some k), t') ->
  sound_record lower k.
Proof.
  unfold row_step, bind, call. simpl.
  destruct (env t (ElemQuerySelectorAll row (u "td, th"))) as [cells|e];
    simpl; [|discriminate].
  destruct cells as [|c cells]; [unfold ret; intros E; discriminate|].
  destruct (inner_texts env (c :: cells) _) as [[texts| e |] t1];
    try discriminate.
  unfold ret. intros E. injection E as E _.
  apply classify_row_sound in E. tauto.
Qed.

Lemma rows_loop_sound (rows : list elem) :
  forall header_found keywords t,
    Forall (sound_record lower) keywords ->
    Forall (sound_record lower)
           (fst (fst (rows_loop lower env rows header_found keywords t))).
Proof.
  induction rows as [|row rows IH]; intros hf kws t Hk; simpl; [exact Hk|].
  destruct (row_step lower env row hf t) as [[[hf' [k|]]| e |] t1] eqn:E;
    simpl; auto.
  apply IH. apply Forall_app. split; [exact Hk|].
  constructor; [|constructor]. eapply row_step_sound; eauto.
Qed.

Lemma tables_loop_sound (tables : list elem) :
  forall keywords t,
    Forall (sound_record lower) keywords ->
    Forall (sound_record lower) (fst (fst (tables_loop lower env tables keywords t))).
Proof.
  induction tables as [|table tables IH]; intros kws t Hk; simpl; [exact Hk|].
  unfold call; simpl.
  destruct (env t (ElemQuerySelectorAll table (u "tr"))) as [rows|e]; simpl;
    [|exact Hk].
  pose proof (rows_loop_sound rows false kws (t ++ [ElemQuerySelectorAll table (u "tr")]) Hk) as Hr.
  destruct (rows_loop lower env rows false kws _) as [[kws' [[]| e |]] t2];
    simpl in *; auto.
Qed.

(** The row loops never run out of fuel: they have none. *)
Lemma halts_inner_texts (cells : list elem) : halts (inner_texts env cells).
Proof.
  induction cells as [|cell cells IH]; simpl; halt.
Qed.

Lemma halts_row_step (row : elem) (header_found : bool) :
  halts (row_step lower env row header_found).
Proof.
  unfold row_step. halt. apply halts_inner_texts.
Qed.

Lemma rows_loop_halts (rows : list elem) :
  forall header_found keywords t,
    snd (fst (rows_loop lower env rows header_found keywords t)) <> Diverge.
Proof.
  induction rows as [|row rows IH]; intros hf kws t; simpl; [discriminate|].
  pose proof (halts_row_step row hf t) as Hh.
  destruct (row_step lower env row hf t) as [[[hf' [k|]]| e |] t1];
    simpl in *; auto; discriminate.
Qed.

Lemma tables_loop_halts (tables : list elem) :
  forall keywords t,
    snd (fst (tables_loop lower env tables keywords t)) <> Diverge.
Proof.
  induction tables as [|table tables IH]; intros kws t; simpl; [discriminate|].
  unfold call; simpl.
  destruct (env t (ElemQuerySelectorAll table (u "tr"))) as [rows|e]; simpl;
    [|discriminate].
  pose proof (rows_loop_halts rows false kws (t ++ [ElemQuerySelectorAll table (u "tr")])) as Hr.
  destruct (rows_loop lower env rows false kws _) as [[kws' [[]| e |]] t2];
    simpl in *; auto; discriminate.
Qed.

(** The extractor returns a list from every log, whatever the page
    does. *)
Lemma extract_returns : returns (extract_keywords_from_table lower env).
Proof.
  intros t. unfold extract_keywords_from_table, call. simpl.
  destruct (env t (QuerySelectorAll (u "table"))) as [tables|e]; simpl;
    [|eauto].
  pose proof (tables_loop_halts tables [] (t ++ [QuerySelectorAll (u "table")])) as Hh.
  destruct (tables_loop lower env tables [] _) as [[kws [[]| e |]] t2];
    simpl in *; eauto; congruence.
Qed.

Lemma extract_sound (t : trace) (keywords : list keyword_data) (t' : trace) :
  extract_keywords_from_table lower env t = (Ok keywords, t') ->
  Forall (sound_record lower) keywords.
Proof.
  unfold extract_keywords_from_table, call. simpl.
  destruct (env t (QuerySelectorAll (u "table"))) as [tables|e]; simpl.
  - pose proof (tables_loop_sound tables [] (t ++ [QuerySelectorAll (u "table")])
                                 (Forall_nil _)) as Hs.
    destruct (tables_loop lower env tables [] _) as [[kws [[]| e |]] t2];
      simpl in *; intros E; try discriminate; injection E as <- _; exact Hs.
  - intros E; injection E as <- _. constructor.
Qed.

End ExtractorFacts.

(** *** The extractor on a page that shows given tables *)

Section ExtractorOnTables.

Variable lower : str -> str.
Variable env : environment.

Lemma inner_texts_shows (cells : list elem) (texts : list str) :
  shows_cells env cells texts ->
  forall t, exists t',
    inner_texts env cells t = (Ok (List.map strip texts), t').
Proof.
  induction 1 as [|cell text cells texts Hc _ IH]; intros t; simpl.
  - unfold ret. eauto.
  - unfold bind, call. simpl. rewrite Hc. simpl.
    destruct (IH (t ++ [InnerText cell])) as [t' E]. rewrite E.
    unfold ret. eauto.
Qed.

Lemma rows_loop_shows (rows : list elem) (texts : table_text) :
  shows_rows env rows texts ->
  forall header_found keywords t, exists t',
    rows_loop lower env rows header_found keywords t
    = (keywords ++ records_of_rows lower texts header_found, Ok tt, t').
Proof.
  induction 1 as [|row cell_texts rows texts [cells [Hq Hc]] _ IH];
    intros hf kws t; simpl.
  - rewrite app_nil_r. eauto.
  - unfold row_step, bind, call. simpl. rewrite Hq. simpl.
    destruct Hc as [|cell text cells cell_texts Hc1 Hc2].
    + unfold ret. apply IH.
    + destruct (inner_texts_shows (cell :: cells) (text :: cell_texts)
                  (Forall2_cons _ _ Hc1 Hc2)
                  (t ++ [ElemQuerySelectorAll row (u "td, th")])) as [t1 E].
      rewrite E. unfold ret.
      destruct (classify_row lower hf (List.map strip (text :: cell_texts)))
        as [hf' [k|]].
      * destruct (IH hf' (kws ++ [k]) t1) as [t' E']. rewrite E'.
        rewrite <- app_assoc. simpl. eauto.
      * apply IH.
Qed.

Lemma tables_loop_shows (handles : list elem) (tables : list table_text) :
  Forall2 (fun table texts =>
             exists rows,
               (forall t, env t (ElemQuerySelectorAll table (u "tr"))
                          = Returns rows)
               /\ shows_rows env rows texts)
          handles tables ->
  forall keywords t, exists t',
    tables_loop lower env handles keywords t
    = (keywords ++ records_of_tables lower tables, Ok tt, t').
Proof.
  induction 1 as [|table texts handles tables [rows [Hq Hr]] _ IH];
    intros kws t; simpl.
  - rewrite app_nil_r. eauto.
  - unfold call. simpl. rewrite Hq. simpl.
    destruct (rows_loop_shows _ _ Hr false kws
                (t ++ [ElemQuerySelectorAll table (u "tr")])) as [t1 E].
    rewrite E.
    destruct (IH (kws ++ records_of_rows lower texts false) t1) as [t' E'].
    rewrite E'. rewrite <- app_assoc. eauto.
Qed.

(** On a page that shows [tables], the extractor returns the records the
    row rules give for their texts, table after table. *)
Lemma extract_shows (tables : list table_text) (t : trace) :
  shows_tables env tables ->
  exists t',
    extract_keywords_from_table lower env t
    = (Ok (records_of_tables lower tables), t').
Proof.
  intros [handles [Hq Hs]].
  unfold extract_keywords_from_table, call. simpl. rewrite Hq. simpl.
  destruct (tables_loop_shows _ _ Hs [] (t ++ [QuerySelectorAll (u "table")]))
    as [t' E].
  rewrite E. simpl. eauto.
Qed.

(** Where the first cell of a row is ASCII, the row rules read [lower]
    on ASCII strings only. *)
Lemma classify_row_ascii (header_found : bool) (cell_texts : list str) :
  lower_spec lower ->
  is_ascii (nth 0 cell_texts []) = true ->
  classify_row lower header_found cell_texts
  = classify_row ascii_lower header_found cell_texts.
Proof.
  intros Hl Ha.
  assert (Hk : keyword (make_keyword_data cell_texts) = nth 0 cell_texts [])
    by (destruct cell_texts; reflexivity).
  unfold classify_row, is_header_row, meaningful.
  rewrite Hk, (Hl _ Ha). reflexivity.
Qed.

Lemma records_of_rows_ascii (rows : table_text) :
  lower_spec lower ->
  Forall (fun cells => is_ascii (nth 0 (List.map strip cells) []) = true) rows ->
  forall header_found,
    records_of_rows lower rows header_found
    = records_of_rows ascii_lower rows header_found.
Proof.
  intros Hl. induction 1 as [|cells rows Ha _ IH]; intros hf; simpl;
    [reflexivity|].
  destruct cells as [|c cells]; [apply IH|].
  rewrite (classify_row_ascii hf _ Hl Ha).
  destruct (classify_row ascii_lower hf (List.map strip (c :: cells)))
    as [hf' [k|]]; rewrite IH; reflexivity.
Qed.

End ExtractorOnTables.

(** The page of the example does show the example's table. *)
Lemma table_page_shows_example :
  shows_tables (table_page [example_table]) [example_table].
Proof.
  unfold shows_tables, shows_rows, shows_cells.
  eexists. split; [intros t; reflexivity|].
  repeat (first [ apply Forall2_nil
                | apply Forall2_cons
                | eexists; split; [intros t; reflexivity|]
                | intros t; reflexivity ]).
Qed.

(** C1, as the specification words it, does not hold: on the page of the
    example the extractor's second record has the empty string for its
    monthly volume, not N/A. *)
Lemma example_table_not_as_claimed :
  fst (extract_keywords_from_table ascii_lower (table_page [example_table]) [])
  <> Ok [running_shoes; trail_shoes_claimed].
Proof.
  vm_compute. intros E. discriminate E.
Qed.

(** C1, amended.  On a page that shows the one table of the example
    (header row, running shoes / 1000, a row of hyphens, trail shoes with
    an empty second cell) the extractor returns exactly two records:
    running shoes with volume 1000 and N/A for cpc and competition, and
    trail shoes with the empty string for its volume (the cell is there
    and empty) and N/A for cpc and competition (the cells are absent).
    The header row and the row of hyphens give no record. *)
Theorem example_table_records :
  forall (lower : str -> str) (env : environment) (t : trace),
    lower_spec lower ->
    shows_tables env [example_table] ->
    fst (extract_keywords_from_table lower env t)
    = Ok [running_shoes; trail_shoes].
Proof.
  intros lower env t Hl Hs.
  destruct (extract_shows lower env _ t Hs) as [t' E]. rewrite E. cbn [fst].
  change (records_of_tables lower [example_table])
    with (records_of_rows lower example_table false ++ []).
  rewrite app_nil_r, (records_of_rows_ascii lower _ Hl).
  - reflexivity.
  - repeat constructor.
Qed.

Lemma example_table_records_witness :
  lower_spec ascii_lower
  /\ shows_tables (table_page [example_table]) [example_table]
  /\ fst (extract_keywords_from_table ascii_lower
            (table_page [example_table]) [])
     = Ok [running_shoes; trail_shoes].
Proof.
  assert (Hl : lower_spec ascii_lower) by (intros s _; reflexivity).
  split; [exact Hl|].
  split; [exact table_page_shows_example|].
  apply (example_table_records ascii_lower (table_page [example_table]) [] Hl).
  exact table_page_shows_example.
Defined.

(** C5.  The extractor returns from every log, and every record it
    returns has a keyword that is not empty, is longer than one code
    point, is no header word ("keyword", "search term", "phrase",
    "query"), and once lowered neither is a header word nor has one
    inside it.  A row whose first cell, lowered, is "keyword" gives no
    record, whether or not the table's header row came before it. *)
Theorem extracted_keywords_are_no_header_words :
  forall (lower : str -> str) (env : environment) (t : trace),
    lower_spec lower ->
    (exists keywords t',
        extract_keywords_from_table lower env t = (Ok keywords, t')
        /\ Forall (fun k =>
                     keyword k <> []
                     /\ 1 < List.length (keyword k)
                     /\ ~ In (keyword k) header_words
                     /\ ~ In (lower (keyword k)) header_words
                     /\ forall w, In w header_words ->
                                  contains w (lower (keyword k)) = false)
                  keywords)
    /\ (forall header_found cell_texts,
           lower (nth 0 cell_texts []) = u "keyword" ->
           snd (classify_row lower header_found cell_texts) = None).
Proof.
  intros lower env t Hl. split.
  - destruct (extract_returns lower env t) as [keywords [t' E]].
    exists keywords, t'. split; [exact E|].
    apply extract_sound in E.
    eapply Forall_impl; [|exact E].
    intros k (Hne & Hlen & Hsub & Hin). repeat split; auto.
    intros Hk. apply Hin.
    rewrite (lower_header_word lower _ Hl Hk). exact Hk.
  - intros hf cells E.
    assert (Hin : In (lower (nth 0 cells [])) header_words)
      by (rewrite E; simpl; auto).
    rewrite (classify_row_header_word lower hf cells Hin). reflexivity.
Qed.

Lemma extracted_keywords_witness :
  lower_spec ascii_lower
  /\ (exists keywords t',
         extract_keywords_from_table ascii_lower
           (table_page [example_table]) [] = (Ok keywords, t')
         /\ Forall (fun k =>
                      keyword k <> []
                      /\ 1 < List.length (keyword k)
                      /\ ~ In (keyword k) header_words
                      /\ ~ In (ascii_lower (keyword k)) header_words
                      /\ forall w, In w header_words ->
                                   contains w (ascii_lower (keyword k)) = false)
                   keywords)
  /\ snd (classify_row ascii_lower true [u "KeyWord"; u "10"]) = None.
Proof.
  assert (Hl : lower_spec ascii_lower) by (intros s _; reflexivity).
  split; [exact Hl|].
  destruct (extracted_keywords_are_no_header_words
              ascii_lower (table_page [example_table]) [] Hl) as [H1 H2].
  split; [exact H1|].
  apply H2. reflexivity.
Defined.

(** ** The industry mapper *)

Section MapperFacts.

Variable env : environment.

Lemma halts_generate_completion (prompt : str) :
  halts (generate_completion env prompt).
Proof.
  unfold generate_completion.
  destruct (negb (truthy prompt) || negb (truthy (strip prompt)));
    [apply halts_raise|].
  halt.
Qed.

Lemma In_valid_business_services : In business_services valid_industries.
Proof. simpl. auto. Qed.

(** Unfolding of the mapper on an input that is not blank. *)
Lemma map_industry_not_blank (industry : str) (t : trace) :
  strip industry <> [] ->
  map_industry_to_wordstream env industry t
  = match generate_completion env (industry_prompt industry) t with
    | (Ok mapped_industry, t1) =>
        (Ok (if mem mapped_industry valid_industries
             then mapped_industry else business_services), t1)
    | (Raise _, t1) => (Ok business_services, t1)
    | (Diverge, t1) => (Diverge, t1)
    end.
Proof.
  intros Hs. unfold map_industry_to_wordstream.
  assert (Ht : truthy (strip industry) = true)
    by (destruct (strip industry); [congruence | reflexivity]).
  assert (Hi : truthy industry = true).
  { destruct industry; [|reflexivity]. exfalso. apply Hs. reflexivity. }
  rewrite Hi, Ht. cbn [negb orb]. unfold try_except, bind.
  destruct (generate_completion env (industry_prompt industry) t)
    as [[mapped| e |] t1]; try reflexivity.
  destruct (mem mapped valid_industries); reflexivity.
Qed.

Lemma map_industry_blank (industry : str) (t : trace) :
  strip industry = [] ->
  map_industry_to_wordstream env industry t = (Ok business_services, t).
Proof.
  intros Hs. unfold map_industry_to_wordstream. rewrite Hs.
  cbn [truthy negb]. rewrite orb_true_r. reflexivity.
Qed.

End MapperFacts.

(** The prompt is never blank: it starts with a letter. *)
Lemma lstrip_app_solid (l : str) (c : N) :
  isspace c = false -> lstrip (l ++ [c]) <> [].
Proof.
  intros Hc. induction l as [|x l IH]; simpl.
  - rewrite Hc. discriminate.
  - destruct (isspace x); [exact IH | discriminate].
Qed.

Lemma strip_solid_head (c : N) (rest : str) :
  isspace c = false -> strip (c :: rest) <> [].
Proof.
  intros Hc. unfold strip, rstrip. simpl lstrip. rewrite Hc.
  intros E. apply (f_equal (@rev N)) in E. rewrite rev_involutive in E.
  simpl in E. exact (lstrip_app_solid (rev rest) c Hc E).
Qed.

Lemma industry_prompt_not_blank (industry : str) :
  negb (truthy (industry_prompt industry))
  || negb (truthy (strip (industry_prompt industry))) = false.
Proof.
  unfold industry_prompt.
  change (u "Given the user's industry ")
    with (71%N :: u "iven the user's industry ").
  rewrite <- app_comm_cons.
  match goal with |- context [strip (71%N :: ?r)] =>
    pose proof (strip_solid_head 71%N r eq_refl) as Hs;
    destruct (strip (71%N :: r)); [congruence | reflexivity]
  end.
Qed.

(** C6.  For every input string and whatever the language model does,
    the industry mapper returns a label of the closed list of industries;
    the label is "Business Services" when the input is empty or only
    white space (and then the model is not called), when the completion
    call raises, and when its answer is not in the list. *)
Theorem mapper_returns_valid_industry :
  forall (env : environment) (industry : str) (t : trace),
    exists label t',
      map_industry_to_wordstream env industry t = (Ok label, t')
      /\ In label valid_industries
      /\ (strip industry = [] -> label = business_services /\ t' = t)
      /\ (forall e t1,
             generate_completion env (industry_prompt industry) t = (Raise e, t1) ->
             label = business_services)
      /\ (forall e,
             env t (ChatCreate (industry_prompt industry)) = Raises e ->
             label = business_services)
      /\ (forall answer t1,
             generate_completion env (industry_prompt industry) t = (Ok answer, t1) ->
             ~ In answer valid_industries ->
             label = business_services).
Proof.
  intros env industry t.
  destruct (list_eq_dec N.eq_dec (strip industry) []) as [Hs|Hs].
  - exists business_services, t. rewrite (map_industry_blank env industry t Hs).
    split; [reflexivity|]. split; [apply In_valid_business_services|].
    repeat split; auto.
  - rewrite (map_industry_not_blank env industry t Hs).
    assert (Hcall : forall e,
               env t (ChatCreate (industry_prompt industry)) = Raises e ->
               exists t1, generate_completion env (industry_prompt industry) t
                          = (Raise e, t1)).
    { intros e He. unfold generate_completion.
      rewrite industry_prompt_not_blank.
      unfold try_except, bind, call. cbn [fst snd]. rewrite He.
      unfold wrap, raise. eauto. }
    pose proof (halts_generate_completion env (industry_prompt industry) t) as Hh.
    destruct (generate_completion env (industry_prompt industry) t)
      as [[mapped| e |] t1] eqn:E; cbn [fst] in Hh; [| |congruence].
    + destruct (mem mapped valid_industries) eqn:Hm.
      * exists mapped, t1. split; [reflexivity|].
        split; [apply mem_In; exact Hm|].
        split; [intros; contradiction|].
        split; [intros e t2 E'; discriminate|].
        split.
        { intros e He. destruct (Hcall e He) as [t2 E']. congruence. }
        intros answer t2 E' Hn. assert (answer = mapped) by congruence.
        subst answer. apply mem_In in Hm. contradiction.
      * exists business_services, t1. split; [reflexivity|].
        split; [apply In_valid_business_services|].
        split; [intros; contradiction|]. repeat split; reflexivity.
    + exists business_services, t1. split; [reflexivity|].
      split; [apply In_valid_business_services|].
      split; [intros; contradiction|]. repeat split; reflexivity.
Qed.

Lemma mapper_witness :
  (exists t1,
      generate_completion (answering (u "no idea"))
                          (industry_prompt (u "software")) []
      = (Ok (u "no idea"), t1))
  /\ ~ In (u "no idea") valid_industries
  /\ fst (map_industry_to_wordstream (answering (u "no idea")) (u "software") [])
     = Ok business_services.
Proof.
  assert (Hg : generate_completion (answering (u "no idea"))
                 (industry_prompt (u "software")) []
               = (Ok (u "no idea"),
                  [ChatCreate (industry_prompt (u "software"))]))
    by (vm_compute; reflexivity).
  assert (Hn : ~ In (u "no idea") valid_industries)
    by (apply mem_false_not_In; vm_compute; reflexivity).
  split; [eexists; exact Hg|]. split; [exact Hn|].
  destruct (mapper_returns_valid_industry
              (answering (u "no idea")) (u "software") [])
    as (label & t' & E & _ & _ & _ & _ & Hbad).
  rewrite E. cbn [fst]. f_equal. exact (Hbad _ _ Hg Hn).
Defined.

(** ** Running a program step by step *)

Lemma bind_returns (env : environment) (o : op) {B : Type}
      (k : resp o -> M B) (t : trace) (a : resp o) :
  env t o = Returns a -> bind (call env o) k t = k a (t ++ [o]).
Proof.
  intros E. unfold bind, call. rewrite E. reflexivity.
Qed.

Lemma bind_raises (env : environment) (o : op) {B : Type}
      (k : resp o -> M B) (t : trace) (e : exn) :
  env t o = Raises e -> bind (call env o) k t = (Raise e, t ++ [o]).
Proof.
  intros E. unfold bind, call. rewrite E. reflexivity.
Qed.

Lemma bind_ok {A B : Type} (m : M A) (k : A -> M B) (t t1 : trace) (a : A) :
  m t = (Ok a, t1) -> bind m k t = k a t1.
Proof.
  intros E. unfold bind. rewrite E. reflexivity.
Qed.

Lemma bind_raise {A B : Type} (m : M A) (k : A -> M B) (t t1 : trace) (e : exn) :
  m t = (Raise e, t1) -> bind m k t = (Raise e, t1).
Proof.
  intros E. unfold bind. rewrite E. reflexivity.
Qed.

Lemma try_ok {A : Type} (m : M A) (h : exn -> M A) (t t1 : trace) (a : A) :
  m t = (Ok a, t1) -> try_except m h t = (Ok a, t1).
Proof.
  intros E. unfold try_except. rewrite E. reflexivity.
Qed.

Lemma try_raise {A : Type} (m : M A) (h : exn -> M A) (t t1 : trace) (e : exn) :
  m t = (Raise e, t1) -> try_except m h t = h e t1.
Proof.
  intros E. unfold try_except. rewrite E. reflexivity.
Qed.

(** ** Selector resolution *)

Section ResolutionFacts.

Variable env : environment.

Lemma halts_first_visible (selectors : list str) :
  halts (first_visible env selectors).
Proof.
  induction selectors as [|selector rest IH]; simpl; halt.
Qed.

Lemma halts_click_first_option (selectors : list str) :
  halts (click_first_option env selectors).
Proof.
  induction selectors as [|selector rest IH]; simpl; halt.
Qed.

(** The resolution loop returns from every log: a wait that raises is
    one more candidate that failed. *)
Lemma first_visible_returns (selectors : list str) :
  returns (first_visible env selectors).
Proof.
  induction selectors as [|selector rest IH]; intros t; simpl.
  - unfold ret. eauto.
  - unfold bind, try_except, call.
    destruct (env t (WaitForSelector selector 2000 visible)) as [[e|]|x];
      simpl; unfold ret; eauto.
Qed.

(** One step of the loop on a candidate that does not resolve. *)
Lemma first_visible_skip (selector : str) (rest : list str) (t : trace) :
  (forall e, env t (WaitForSelector selector 2000 visible) <> Returns (Some e)) ->
  first_visible env (selector :: rest) t
  = first_visible env rest (t ++ [WaitForSelector selector 2000 visible]).
Proof.
  intros H. simpl. unfold bind, try_except, call.
  destruct (env t (WaitForSelector selector 2000 visible)) as [[e|]|x];
    simpl; try reflexivity.
  exfalso. exact (H e eq_refl).
Qed.

(** Resolution returns the first candidate, in list order, that
    resolves: the candidates before it were waited for and failed, the
    ones after it are not tried. *)
Lemma first_visible_first (before : list str) :
  forall (selector : str) (after : list str) (t : trace) (e : elem),
    none_appears env before 2000 ->
    env (t ++ waits before 2000) (WaitForSelector selector 2000 visible)
    = Returns (Some e) ->
    first_visible env (before ++ selector :: after) t
    = (Ok (Some e),
       t ++ waits before 2000 ++ [WaitForSelector selector 2000 visible]).
Proof.
  induction before as [|b before IH]; intros selector after t e Hn He.
  - simpl in *. rewrite app_nil_r in He.
    unfold bind, try_except, call. rewrite He. reflexivity.
  - simpl app. rewrite first_visible_skip
      by (intros e'; apply Hn; left; reflexivity).
    rewrite (IH selector after _ e).
    + simpl. rewrite <- app_assoc. reflexivity.
    + intros s t' e' Hin. apply Hn. right. exact Hin.
    + simpl in He. rewrite <- app_assoc. exact He.
Qed.

(** It reports that nothing was found when no candidate resolves, after
    waiting for each in turn. *)
Lemma first_visible_none (selectors : list str) :
  forall t,
    none_appears env selectors 2000 ->
    first_visible env selectors t = (Ok None, t ++ waits selectors 2000).
Proof.
  induction selectors as [|s rest IH]; intros t Hn.
  - simpl. rewrite app_nil_r. reflexivity.
  - rewrite first_visible_skip by (intros e'; apply Hn; left; reflexivity).
    rewrite IH by (intros s' t' e' Hin; apply Hn; right; exact Hin).
    simpl. rewrite <- app_assoc. reflexivity.
Qed.

(** And only then: if it found nothing, every candidate was waited for
    and none resolved at its turn. *)
Lemma first_visible_none_inv (selectors : list str) :
  forall t t',
    first_visible env selectors t = (Ok None, t') ->
    t' = t ++ waits selectors 2000
    /\ forall before selector after e,
        selectors = before ++ selector :: after ->
        env (t ++ waits before 2000) (WaitForSelector selector 2000 visible)
        <> Returns (Some e).
Proof.
  induction selectors as [|s rest IH]; intros t t' H.
  - simpl in H. injection H as <-. rewrite app_nil_r. split; [reflexivity|].
    intros [|? ?] ? ? ? E; discriminate.
  - simpl in H. unfold bind, try_except, call in H.
    destruct (env t (WaitForSelector s 2000 visible)) as [[e|]|x] eqn:Ee;
      simpl in H; try (unfold ret in H; discriminate).
    + apply IH in H. destruct H as [-> Hr]. split.
      * simpl. rewrite <- app_assoc. reflexivity.
      * intros [|b before] selector after e E; simpl in E; injection E as <- ->.
        -- simpl. rewrite app_nil_r. rewrite Ee. discriminate.
        -- replace (t ++ waits (s :: before) 2000)
             with ((t ++ [WaitForSelector s 2000 visible]) ++ waits before 2000)
             by (rewrite <- app_assoc; reflexivity).
           apply (Hr before selector after e eq_refl).
    + apply IH in H. destruct H as [-> Hr]. split.
      * simpl. rewrite <- app_assoc. reflexivity.
      * intros [|b before] selector after e E; simpl in E; injection E as <- ->.
        -- simpl. rewrite app_nil_r. rewrite Ee. discriminate.
        -- replace (t ++ waits (s :: before) 2000)
             with ((t ++ [WaitForSelector s 2000 visible]) ++ waits before 2000)
             by (rewrite <- app_assoc; reflexivity).
           apply (Hr before selector after e eq_refl).
Qed.


End ResolutionFacts.

(** ** The field fillers *)

Section FillerFacts.

Variable env : environment.




Lemma click_continue_button_returns (timeout : Z) :
  returns (click_continue_button env timeout).
Proof.
  unfold click_continue_button.
  apply returns_try_except; [|intros; apply returns_ret].
  halt.
Qed.

End FillerFacts.

Section FillerScenarios.

Variable env : environment.



End FillerScenarios.

(** C8.  With an empty target value the industry filler and the location
    filler return success at once, and so does the industry filler with
    the default "All Industries": no operation is issued, the log of the
    page is what it was. *)
Theorem blank_or_default_target_is_left_alone :
  forall (env : environment) (t : trace),
    fill_industry_dropdown env [] t = (Ok true, t)
    /\ fill_industry_dropdown env (u "All Industries") t = (Ok true, t)
    /\ fill_location_autocomplete env [] t = (Ok true, t).
Proof.
  intros env t. repeat split; reflexivity.
Qed.





(** ** The Continue button *)

(** When the wait for the first candidate raises, as it does on a
    timeout, the function returns false at once: the exception goes to
    the outer handler and the candidate by text is not tried. *)
Lemma click_continue_button_first_wait_raises
      (env : environment) (timeout : Z) (t : trace) (e : exn) :
  env t (WaitForSelector continue_testid_selector timeout None) = Raises e ->
  click_continue_button env timeout t
  = (Ok false, t ++ [WaitForSelector continue_testid_selector timeout None]).
Proof.
  intros E. unfold click_continue_button.
  erewrite try_raise; [reflexivity|].
  apply bind_raises. exact E.
Qed.

(** C2, at the failing input.  On a page where the Continue button
    resolves by its text only, visible and enabled, the resolution loop
    of the fillers run on the two candidates of the button returns the
    button, second in the list; [click_continue_button] waits for the
    first candidate alone, does not click, and returns false. *)
Theorem continue_button_fallback_is_skipped :
  (forall t, text_button_page t (WaitForSelector continue_text_selector 2000 None)
             = Returns (Some 7%N))
  /\ (forall t, text_button_page t (IsVisible 7%N) = Returns true)
  /\ (forall t, text_button_page t (IsEnabled 7%N) = Returns true)
  /\ first_visible text_button_page
       [continue_testid_selector; continue_text_selector] []
     = (Ok (Some 7%N),
        [ WaitForSelector continue_testid_selector 2000 visible;
          WaitForSelector continue_text_selector 2000 visible ])
  /\ click_continue_button text_button_page 5000 []
     = (Ok false, [WaitForSelector continue_testid_selector 5000 None]).
Proof.
  split; [intros t; reflexivity|].
  split; [intros t; reflexivity|].
  split; [intros t; reflexivity|].
  split; [vm_compute; reflexivity|].
  apply (click_continue_button_first_wait_raises
           text_button_page 5000 [] timeout_error).
  reflexivity.
Qed.

(** ** What a program issues *)

Section Issues.

Variable P : op -> Prop.

Lemma issues_ret {A : Type} (a : A) : issues P (ret a).
Proof. intros t. exists []. rewrite app_nil_r. split; [reflexivity | constructor]. Qed.

Lemma issues_raise {A : Type} (e : exn) : issues P (@raise A e).
Proof. intros t. exists []. rewrite app_nil_r. split; [reflexivity | constructor]. Qed.

Lemma issues_diverge {A : Type} : issues P (@diverge A).
Proof. intros t. exists []. rewrite app_nil_r. split; [reflexivity | constructor]. Qed.

Lemma issues_call (env : environment) (o : op) : P o -> issues P (call env o).
Proof.
  intros Ho t. exists [o]. split; [reflexivity|]. repeat constructor. exact Ho.
Qed.

Lemma issues_bind {A B : Type} (m : M A) (k : A -> M B) :
  issues P m -> (forall a, issues P (k a)) -> issues P (bind m k).
Proof.
  intros Hm Hk t. unfold bind. destruct (Hm t) as [n1 [E1 F1]].
  destruct (m t) as [[a| e |] t1]; simpl in E1; subst t1.
  - destruct (Hk a (t ++ n1)) as [n2 [E2 F2]]. exists (n1 ++ n2).
    rewrite E2, app_assoc. split; [reflexivity | apply Forall_app; auto].
  - exists n1. auto.
  - exists n1. auto.
Qed.

Lemma issues_try_except {A : Type} (m : M A) (h : exn -> M A) :
  issues P m -> (forall e, issues P (h e)) -> issues P (try_except m h).
Proof.
  intros Hm Hh t. unfold try_except. destruct (Hm t) as [n1 [E1 F1]].
  destruct (m t) as [[a| e |] t1]; simpl in E1; subst t1.
  - exists n1. auto.
  - destruct (Hh e (t ++ n1)) as [n2 [E2 F2]]. exists (n1 ++ n2).
    rewrite E2, app_assoc. split; [reflexivity | apply Forall_app; auto].
  - exists n1. auto.
Qed.

Lemma issues_try_finally {A : Type} (m : M A) (c : M unit) :
  issues P m -> issues P c -> issues P (try_finally m c).
Proof.
  intros Hm Hc t. unfold try_finally. destruct (Hm t) as [n1 [E1 F1]].
  destruct (m t) as [[a| e |] t1]; simpl in E1; subst t1;
    try (exists n1; auto; fail);
    destruct (Hc (t ++ n1)) as [n2 [E2 F2]];
    destruct (c (t ++ n1)) as [[[]| e' |] t2]; simpl in E2; subst t2;
    exists (n1 ++ n2); rewrite app_assoc;
    (split; [reflexivity | apply Forall_app; auto]).
Qed.

End Issues.

(** Goes through a program built from the combinators; the operations
    met are checked against [P] by computation. *)
Ltac issue :=
  repeat first
    [ apply issues_ret
    | apply issues_raise
    | apply issues_diverge
    | match goal with
      | |- issues ?P (call ?e ?o) =>
          apply (issues_call P e o); first [reflexivity | exact I]
      end
    | assumption
    | apply issues_bind; [| intros ?]
    | apply issues_try_except; [| intros ?]
    | apply issues_try_finally
    | match goal with |- issues _ (match ?x with _ => _ end) => destruct x end
    | match goal with |- issues _ (if ?x then _ else _) => destruct x end ].

(** ** No part of the browser session touches the output file *)

Section NoFileOps.

Variable lower : str -> str.
Variable env : environment.

Lemma fillers_no_file :
  (forall v, issues not_file_op (fill_website_field env v))
  /\ (forall v, issues not_file_op (fill_industry_dropdown env v))
  /\ (forall v, issues not_file_op (fill_location_autocomplete env v))
  /\ (forall timeout, issues not_file_op (click_continue_button env timeout)).
Proof.
  repeat split; intros.
  - unfold fill_website_field. issue.
  - unfold fill_industry_dropdown. issue.
  - unfold fill_location_autocomplete. issue.
  - unfold click_continue_button. issue.
Qed.

Lemma inner_texts_no_file (cells : list elem) :
  issues not_file_op (inner_texts env cells).
Proof.
  induction cells as [|cell cells IH]; simpl; issue.
Qed.

Lemma row_step_no_file (row : elem) (header_found : bool) :
  issues not_file_op (row_step lower env row header_found).
Proof.
  unfold row_step. issue. apply inner_texts_no_file.
Qed.

Lemma rows_loop_no_file (rows : list elem) :
  forall header_found keywords t,
  exists new,
    snd (rows_loop lower env rows header_found keywords t) = t ++ new
    /\ Forall not_file_op new.
Proof.
  induction rows as [|row rows IH]; intros hf kws t; simpl.
  - exists []. rewrite app_nil_r. split; [reflexivity | constructor].
  - destruct (row_step_no_file row hf t) as [n1 [E1 F1]].
    destruct (row_step lower env row hf t) as [[[hf' [k|]]| e |] t1];
      simpl in E1; subst t1; try (exists n1; auto; fail).
    + destruct (IH hf' (kws ++ [k]) (t ++ n1)) as [n2 [E2 F2]].
      exists (n1 ++ n2). rewrite E2, app_assoc.
      split; [reflexivity | apply Forall_app; auto].
    + destruct (IH hf' kws (t ++ n1)) as [n2 [E2 F2]].
      exists (n1 ++ n2). rewrite E2, app_assoc.
      split; [reflexivity | apply Forall_app; auto].
Qed.

Lemma tables_loop_no_file (tables : list elem) :
  forall keywords t,
  exists new,
    snd (tables_loop lower env tables keywords t) = t ++ new
    /\ Forall not_file_op new.
Proof.
  induction tables as [|table tables IH]; intros kws t; simpl.
  - exists []. rewrite app_nil_r. split; [reflexivity | constructor].
  - unfold call. simpl.
    set (o := ElemQuerySelectorAll table (u "tr")).
    assert (Fo : Forall not_file_op [o]) by (repeat constructor).
    destruct (env t o) as [rows|e]; simpl; [|exists [o]; auto].
    destruct (rows_loop_no_file rows false kws (t ++ [o])) as [n1 [E1 F1]].
    destruct (rows_loop lower env rows false kws (t ++ [o]))
      as [[kws' [[]| e |]] t1]; simpl in E1; subst t1.
    + destruct (IH kws' ((t ++ [o]) ++ n1)) as [n2 [E2 F2]].
      exists ([o] ++ n1 ++ n2). rewrite E2, <- !app_assoc.
      split; [reflexivity|].
      apply Forall_app; split; [exact Fo|]. apply Forall_app; auto.
    + exists ([o] ++ n1). simpl snd. rewrite <- app_assoc.
      split; [reflexivity | apply Forall_app; auto].
    + exists ([o] ++ n1). simpl snd. rewrite <- app_assoc.
      split; [reflexivity | apply Forall_app; auto].
Qed.

Lemma extract_no_file :
  issues not_file_op (extract_keywords_from_table lower env).
Proof.
  intros t. unfold extract_keywords_from_table, call. simpl.
  set (o := QuerySelectorAll (u "table")).
  assert (Fo : Forall not_file_op [o]) by (repeat constructor).
  destruct (env t o) as [tables|e]; simpl; [|exists [o]; auto].
  destruct (tables_loop_no_file tables [] (t ++ [o])) as [n1 [E1 F1]].
  destruct (tables_loop lower env tables [] (t ++ [o]))
    as [[kws [[]| e |]] t1]; simpl in E1; subst t1;
    exists ([o] ++ n1); simpl snd; rewrite <- app_assoc;
    (split; [reflexivity | apply Forall_app; auto]).
Qed.

Lemma llm_no_file :
  issues not_file_op (get_llm env)
  /\ (forall prompt, issues not_file_op (generate_completion env prompt))
  /\ (forall industry, issues not_file_op (map_industry_to_wordstream env industry))
  /\ (forall c, issues not_file_op (extract_form_data env c)).
Proof.
  assert (Hg : forall prompt, issues not_file_op (generate_completion env prompt)).
  { intros prompt. unfold generate_completion.
    destruct (negb (truthy prompt) || negb (truthy (strip prompt))); issue. }
  assert (Hm : forall industry,
             issues not_file_op (map_industry_to_wordstream env industry)).
  { intros industry. unfold map_industry_to_wordstream.
    destruct (negb (truthy industry) || negb (truthy (strip industry)));
      [apply issues_ret|].
    apply issues_try_except; [|intros; apply issues_ret].
    apply issues_bind; [apply Hg|]. intros a. issue. }
  split; [unfold get_llm; issue|]. split; [exact Hg|]. split; [exact Hm|].
  intros c. unfold extract_form_data.
  apply issues_bind; [|intros; apply issues_ret].
  generalize industry_keys as keys.
  induction keys as [|key keys IH]; simpl; [apply issues_ret|].
  destruct (config_get key c) as [v|]; [|exact IH].
  destruct (py_bool v); [|exact IH].
  apply issues_bind.
  - apply issues_try_except; [|intros; apply issues_ret].
    apply issues_bind; [apply Hm | intros; apply issues_ret].
  - intros [x|]; [apply issues_ret | exact IH].
Qed.

Lemma any_visible_no_file (elements : list elem) :
  issues not_file_op (any_visible env elements).
Proof.
  induction elements as [|el rest IH]; simpl; issue.
Qed.

Lemma loading_loop_no_file (fuel : nat) (start_time : float) :
  issues not_file_op (loading_loop env fuel start_time).
Proof.
  induction fuel as [|fuel IH]; simpl; [apply issues_diverge|].
  unfold now_ms. issue; apply any_visible_no_file.
Qed.

Lemma automation_no_file (c : config) (brand_website : str) (timeout : Z)
      (fuel : nat) :
  issues not_file_op (automation lower env c brand_website timeout fuel).
Proof.
  destruct fillers_no_file as (Hw & Hi & Hl & Hc).
  destruct llm_no_file as (Hg & _ & _ & Hf).
  unfold automation.
  apply issues_bind; [unfold open_form, dismiss_popups; issue|]. intros _.
  apply issues_bind; [apply Hw|]. intros success.
  apply issues_bind; [issue|]. intros _.
  apply issues_bind.
  { unfold fill_optional_fields.
    apply issues_bind; [exact Hg|]. intros _.
    apply issues_bind; [apply Hf|]. intros form.
    apply issues_bind.
    { destruct (truthy (industry form)
                && negb (str_eqb (industry form) (u "All Industries")));
        [|apply issues_ret].
      apply issues_bind; [apply Hi | intros; apply issues_ret]. }
    intros _. apply issues_bind.
    { destruct (truthy (location form)); [|apply issues_ret].
      apply issues_bind; [apply Hl | intros; apply issues_ret]. }
    intros _. issue. }
  intros _.
  apply issues_bind.
  { unfold submit_form. apply issues_bind; [apply Hc|]. intros b. issue. }
  intros _.
  apply issues_bind.
  { unfold wait_for_results, now_ms.
    apply issues_bind; [issue|]. intros _.
    apply issues_bind; [issue|]. intros _.
    apply issues_bind; [issue|]. intros start.
    apply issues_bind; [apply loading_loop_no_file|]. intros _. issue. }
  intros _.
  unfold find_results.
  apply issues_bind; [issue|]. intros _.
  apply issues_bind; [|intros found; issue].
  generalize (@nil keyword_data) as kws. generalize false as found.
  generalize results_selectors as selectors.
  induction selectors as [|selector rest IH]; intros found kws; simpl;
    [apply issues_ret|].
  apply issues_bind; [issue|]. intros [[|el els]|]; try apply IH.
  destruct (contains (u "table") selector); [|apply issues_ret].
  apply issues_bind.
  - apply issues_try_except; [|intros; apply issues_ret].
    apply issues_bind; [apply extract_no_file | intros; apply issues_ret].
  - intros [k|]; [apply issues_ret | apply IH].
Qed.

Lemma browser_session_no_file (c : config) (brand_website : str)
      (timeout : Z) (fuel : nat) :
  issues not_file_op (browser_session lower env c brand_website timeout fuel).
Proof.
  unfold browser_session, with_block.
  apply issues_bind; [issue|]. intros _.
  apply issues_try_finally; [|issue].
  apply issues_bind; [issue|]. intros _.
  apply issues_bind; [issue|]. intros _.
  apply issues_bind; [issue|]. intros _.
  apply issues_try_finally; [|issue].
  apply issues_try_except; [apply automation_no_file|].
  intros e. issue.
Qed.

Lemma before_browser_no_file (brand_website : pyval) (output_csv : str) :
  issues not_file_op (before_browser env brand_website output_csv).
Proof.
  unfold before_browser, clean_url.
  apply issues_bind; [issue|]. intros _.
  destruct brand_website; issue.
Qed.

End NoFileOps.

(** ** The orchestrator *)

Lemma bind_ok_inv {A B : Type} (m : M A) (k : A -> M B) (t t' : trace) (b : B) :
  bind m k t = (Ok b, t') ->
  exists a t1, m t = (Ok a, t1) /\ k a t1 = (Ok b, t').
Proof.
  unfold bind. destruct (m t) as [[a| e |] t1]; intros H; try discriminate.
  eauto.
Qed.

Lemma bind_assoc {A B C : Type} (m : M A) (k1 : A -> M B) (k2 : B -> M C)
      (t : trace) :
  bind (bind m k1) k2 t = bind m (fun a => bind (k1 a) k2) t.
Proof.
  unfold bind. destruct (m t) as [[a| e |] t1]; reflexivity.
Qed.

Lemma call_ok_inv (env : environment) (o : op) (t t' : trace) (a : resp o) :
  call env o t = (Ok a, t') -> env t o = Returns a /\ t' = t ++ [o].
Proof.
  unfold call. destruct (env t o) as [x|x]; simpl; intros H;
    [|discriminate].
  split; congruence.
Qed.

(** An exception that meets a [finally] that halts leaves as an
    exception, after the [finally]. *)
Lemma try_finally_raise {A : Type} (m : M A) (c : M unit)
      (t t1 : trace) (e : exn) :
  halts c ->
  m t = (Raise e, t1) ->
  exists e', try_finally m c t = (Raise e', snd (c t1)).
Proof.
  intros Hc E. unfold try_finally. rewrite E. specialize (Hc t1).
  destruct (c t1) as [[[]| x |] t2]; simpl in *; eauto. congruence.
Qed.

Section OrchestratorFacts.

Variable lower : str -> str.
Variable env : environment.

(** With a [brand_website] that counts as true, [collect_keywords] is
    what comes before the browser, the browser session, and the save. *)
Lemma collect_keywords_phases (c : config) (output_csv : str) (timeout : Z)
      (fuel : nat) (brand_website : pyval) (t : trace) :
  config_get (u "brand_website") c = Some brand_website ->
  py_bool brand_website = true ->
  collect_keywords lower env c output_csv timeout fuel t
  = bind (before_browser env brand_website output_csv)
         (fun _ =>
            bind (browser_session lower env c (py_str brand_website) timeout fuel)
                 (save_results env output_csv)) t.
Proof.
  intros Hc Hb. unfold collect_keywords, before_browser.
  rewrite Hc, Hb, !bind_assoc. reflexivity.
Qed.

(** Without one, it raises after [os.makedirs] and nothing else. *)
Lemma collect_keywords_without_website (c : config) (output_csv : str)
      (timeout : Z) (fuel : nat) (t : trace) :
  (forall v, config_get (u "brand_website") c = Some v -> py_bool v = false) ->
  exists e,
    collect_keywords lower env c output_csv timeout fuel t
    = (Raise e, t ++ [MakeDirs (dirname output_csv)]).
Proof.
  intros H. unfold collect_keywords, bind, call.
  destruct (env t (MakeDirs (dirname output_csv))) as [x|x]; simpl;
    [|eauto].
  destruct (config_get (u "brand_website") c) as [v|]; [|unfold raise; eauto].
  rewrite (H v eq_refl). unfold raise. eauto.
Qed.

(** A save that goes through issues exactly [save_ops]. *)
Lemma save_results_ok (output_csv : str) (keywords : list keyword_data)
      (t t' : trace) :
  save_results env output_csv keywords t = (Ok tt, t') ->
  t' = t ++ save_ops output_csv keywords.
Proof.
  unfold save_results, with_block, try_finally, bind, call, save_ops.
  destruct keywords as [|k keywords].
  - destruct (env t (FileOpen output_csv)) as [x|x]; simpl; [|discriminate].
    destruct (env (t ++ [FileOpen output_csv]) (FileWriteRows [fieldnames]))
      as [y|y]; simpl;
      match goal with |- context [env ?tr FileClose] =>
        destruct (env tr FileClose) as [z|z] end; simpl;
      intros H; try discriminate.
    apply (f_equal snd) in H. simpl in H. subst t'.
      rewrite <- !app_assoc. reflexivity.
  - destruct (env t (FileOpen output_csv)) as [x|x]; simpl; [|discriminate].
    destruct (env (t ++ [FileOpen output_csv]) (FileWriteRows [fieldnames]))
      as [y|y]; simpl.
    + match goal with |- context [env ?tr (FileWriteRows ?r)] =>
        destruct (env tr (FileWriteRows r)) as [w|w] end; simpl;
        match goal with |- context [env ?tr FileClose] =>
          destruct (env tr FileClose) as [z|z] end; simpl;
        intros H; try discriminate.
      apply (f_equal snd) in H. simpl in H. subst t'.
      rewrite <- !app_assoc. reflexivity.
    + match goal with |- context [env ?tr FileClose] =>
        destruct (env tr FileClose) as [z|z] end; simpl;
        intros H; discriminate.
Qed.

(** And it goes through when the file operations return. *)
Lemma save_results_succeeds (output_csv : str) (keywords : list keyword_data)
      (t : trace) :
  all_return env t (save_ops output_csv keywords) ->
  save_results env output_csv keywords t
  = (Ok tt, t ++ save_ops output_csv keywords).
Proof.
  unfold save_results, with_block, try_finally, bind, call, save_ops.
  destruct keywords as [|k keywords]; simpl.
  - intros ([[] E1] & [[] E2] & [[] E3] & _).
    rewrite E1. simpl. rewrite E2. simpl. rewrite E3. simpl.
    rewrite <- !app_assoc. reflexivity.
  - intros ([[] E1] & [[] E2] & [[] E3] & [[] E4] & _).
    rewrite E1. simpl. rewrite E2. simpl. rewrite E3. simpl.
    rewrite E4. simpl. rewrite <- !app_assoc. reflexivity.
Qed.

(** The rows of a save: the header, then one row for each record. *)
Lemma written_save_ops (output_csv : str) (keywords : list keyword_data) :
  written (save_ops output_csv keywords)
  = fieldnames :: List.map csv_row keywords.
Proof.
  destruct keywords as [|k keywords]; [reflexivity|].
  unfold save_ops, written. simpl. rewrite app_nil_r. reflexivity.
Qed.

End OrchestratorFacts.

(** An exception that leaves the body of the [try] of the browser
    session leaves the session: the error screenshot is taken, the
    browser is closed, Playwright is stopped, and an exception goes on
    to the caller. *)
Lemma automation_failure_leaves_session
      (lower : str -> str) (env : environment) (c : config)
      (brand_website : str) (timeout : Z) (fuel : nat)
      (t0 ta tb : trace) (e : exn) :
  launch_browser env t0 = (Ok tt, ta) ->
  automation lower env c brand_website timeout fuel ta = (Raise e, tb) ->
  exists e',
    browser_session lower env c brand_website timeout fuel t0
    = (Raise e',
       tb ++ [ Screenshot (u "error_screenshot.png");
               BrowserClose; PlaywrightStop ]).
Proof.
  intros Hl Hauto. unfold launch_browser in Hl.
  apply bind_ok_inv in Hl. destruct Hl as (x1 & t1 & H1 & Hl).
  apply bind_ok_inv in Hl. destruct Hl as (x2 & t2 & H2 & Hl).
  apply bind_ok_inv in Hl. destruct Hl as (x3 & t3 & H3 & H4).
  apply call_ok_inv in H1, H2, H3.
  apply (call_ok_inv env NewPage) in H4.
  destruct H1 as [E1 ->], H2 as [E2 ->], H3 as [E3 ->], H4 as [E4 ->].
  assert (Hexc : exists e1,
             try_except (automation lower env c brand_website timeout fuel)
               (fun e => call env (Screenshot (u "error_screenshot.png")) ;;
                         raise e)
               ((((t0 ++ [PlaywrightStart]) ++ [Launch]) ++ [NewContext])
                  ++ [NewPage])
             = (Raise e1, tb ++ [Screenshot (u "error_screenshot.png")])).
  { rewrite (try_raise _ _ _ _ _ Hauto). unfold bind, call, raise.
    destruct (env tb (Screenshot (u "error_screenshot.png"))) as [y|y];
      simpl; eauto. }
  destruct Hexc as [e1 Hexc].
  destruct (try_finally_raise _ (call env BrowserClose) _ _ _
              (halts_call env BrowserClose) Hexc) as [e2 Hfin].
  simpl snd in Hfin.
  assert (Hbody : (call env Launch ;; call env NewContext ;; call env NewPage ;;
                   try_finally
                     (try_except
                        (automation lower env c brand_website timeout fuel)
                        (fun e =>
                           call env (Screenshot (u "error_screenshot.png")) ;;
                           raise e))
                     (call env BrowserClose)) (t0 ++ [PlaywrightStart])
                  = (Raise e2,
                     (tb ++ [Screenshot (u "error_screenshot.png")])
                       ++ [BrowserClose])).
  { rewrite (bind_returns env Launch _ _ x2 E2).
    rewrite (bind_returns env NewContext _ _ x3 E3).
    rewrite (bind_returns env NewPage _ _ tt E4).
    exact Hfin. }
  destruct (try_finally_raise _ (call env PlaywrightStop) _ _ _
              (halts_call env PlaywrightStop) Hbody) as [e3 Hwith].
  simpl snd in Hwith.
  exists e3. unfold browser_session, with_block.
  rewrite (bind_returns env PlaywrightStart _ _ x1 E1).
  rewrite Hwith. rewrite <- !app_assoc. reflexivity.
Qed.

Lemma no_file_op_among (issued : list op) :
  Forall not_file_op issued ->
  ~ Exists (fun o => is_file_op o = true) issued.
Proof.
  intros F X. apply Exists_exists in X. destruct X as [o [Hin Ho]].
  rewrite Forall_forall in F. specialize (F o Hin). unfold not_file_op in F.
  congruence.
Qed.

(** C10.  If the browser session of [collect_keywords] raises, the same
    exception leaves [collect_keywords] and no operation of the run has
    touched the output file.  More generally a run that has opened,
    written or closed the file is a run whose browser session returned:
    the write comes only after it.  And the session does raise when its
    [try] body does (navigation, website field, Continue button): the
    handler takes the error screenshot and raises again, the browser is
    closed, and an exception goes to the caller. *)
Theorem browser_failure_writes_no_file :
  forall (lower : str -> str) (env : environment) (c : config)
         (output_csv : str) (timeout : Z) (fuel : nat) (t : trace),
    (forall brand_website d t0 e t1,
        config_get (u "brand_website") c = Some brand_website ->
        py_bool brand_website = true ->
        before_browser env brand_website output_csv t = (Ok d, t0) ->
        browser_session lower env c (py_str brand_website) timeout fuel t0
        = (Raise e, t1) ->
        collect_keywords lower env c output_csv timeout fuel t = (Raise e, t1)
        /\ exists issued,
            t1 = t ++ issued /\ Forall (fun o => is_file_op o = false) issued)
    /\ (forall r issued,
           collect_keywords lower env c output_csv timeout fuel t
           = (r, t ++ issued) ->
           Exists (fun o => is_file_op o = true) issued ->
           exists brand_website d t0 keywords t1,
             config_get (u "brand_website") c = Some brand_website
             /\ before_browser env brand_website output_csv t = (Ok d, t0)
             /\ browser_session lower env c (py_str brand_website) timeout fuel t0
                = (Ok keywords, t1))
    /\ (forall brand_website t0 ta tb e,
           launch_browser env t0 = (Ok tt, ta) ->
           automation lower env c brand_website timeout fuel ta = (Raise e, tb) ->
           exists e',
             browser_session lower env c brand_website timeout fuel t0
             = (Raise e',
                tb ++ [ Screenshot (u "error_screenshot.png");
                        BrowserClose; PlaywrightStop ])).
Proof.
  intros lower env c out timeout fuel t. split; [|split].
  3:{ intros brand t0 ta tb e Hl Ha.
      exact (automation_failure_leaves_session
               lower env c brand timeout fuel t0 ta tb e Hl Ha). }
  - intros brand d t0 e t1 Hc Hb Hbb Hs.
    rewrite (collect_keywords_phases lower env c out timeout fuel brand t Hc Hb).
    rewrite (bind_ok _ _ _ _ _ Hbb), (bind_raise _ _ _ _ _ Hs).
    split; [reflexivity|].
    destruct (before_browser_no_file env brand out t) as [n1 [E1 F1]].
    destruct (browser_session_no_file lower env c (py_str brand) timeout fuel t0)
      as [n2 [E2 F2]].
    rewrite Hbb in E1. rewrite Hs in E2. simpl in E1, E2. subst t0 t1.
    exists (n1 ++ n2). rewrite app_assoc.
    split; [reflexivity | apply Forall_app; auto].
  - intros r issued Hrun Hx.
    destruct (config_get (u "brand_website") c) as [brand|] eqn:Hc.
    2:{ destruct (collect_keywords_without_website lower env c out timeout fuel t)
          as [e E]; [intros v Hv; rewrite Hc in Hv; discriminate|].
        rewrite E in Hrun. injection Hrun as _ Hi.
        apply app_inv_head in Hi. subst issued.
        inversion Hx as [? ? H0|? ? H0]; [discriminate | inversion H0]. }
    destruct (py_bool brand) eqn:Hb.
    2:{ destruct (collect_keywords_without_website lower env c out timeout fuel t)
          as [e E].
        { intros v Hv. rewrite Hc in Hv. injection Hv as <-. exact Hb. }
        rewrite E in Hrun. injection Hrun as _ Hi.
        apply app_inv_head in Hi. subst issued.
        inversion Hx as [? ? H0|? ? H0]; [discriminate | inversion H0]. }
    rewrite (collect_keywords_phases lower env c out timeout fuel brand t Hc Hb)
      in Hrun.
    destruct (before_browser_no_file env brand out t) as [n1 [E1 F1]].
    unfold bind in Hrun.
    destruct (before_browser env brand out t) as [[d| e |] t0] eqn:Hbb;
      simpl in E1; subst t0.
    + destruct (browser_session_no_file lower env c (py_str brand) timeout fuel
                  (t ++ n1)) as [n2 [E2 F2]].
      destruct (browser_session lower env c (py_str brand) timeout fuel (t ++ n1))
        as [[kws| e |] t1] eqn:Hs; simpl in E2; subst t1.
      * exists brand, d, (t ++ n1), kws, ((t ++ n1) ++ n2). auto.
      * exfalso. injection Hrun as _ Hi. rewrite <- app_assoc in Hi.
        apply app_inv_head in Hi. subst issued.
        apply (no_file_op_among (n1 ++ n2)); [apply Forall_app; auto | exact Hx].
      * exfalso. injection Hrun as _ Hi. rewrite <- app_assoc in Hi.
        apply app_inv_head in Hi. subst issued.
        apply (no_file_op_among (n1 ++ n2)); [apply Forall_app; auto | exact Hx].
    + exfalso. injection Hrun as _ Hi. apply app_inv_head in Hi. subst issued.
      exact (no_file_op_among n1 F1 Hx).
    + exfalso. injection Hrun as _ Hi. apply app_inv_head in Hi. subst issued.
      exact (no_file_op_among n1 F1 Hx).
Qed.

Lemma browser_failure_witness :
  let t0 := snd (before_browser unreachable_site (PyStr (u "example.com"))
                                example_csv []) in
  let run := browser_session ascii_lower unreachable_site example_config
                             (u "example.com") 60000 50 t0 in
  fst run = Raise (Exn "Error" "net::ERR_NAME_NOT_RESOLVED")
  /\ collect_keywords ascii_lower unreachable_site example_config example_csv
                      60000 50 []
     = (Raise (Exn "Error" "net::ERR_NAME_NOT_RESOLVED"), snd run)
  /\ exists issued,
      snd run = [] ++ issued /\ Forall (fun o => is_file_op o = false) issued.
Proof.
  intros t0 run. split; [vm_compute; reflexivity|].
  destruct (browser_failure_writes_no_file
              ascii_lower unreachable_site example_config example_csv
              60000 50 []) as [Ha _].
  apply (Ha (PyStr (u "example.com")) [] t0
            (Exn "Error" "net::ERR_NAME_NOT_RESOLVED") (snd run)).
  - reflexivity.
  - reflexivity.
  - vm_compute. reflexivity.
  - vm_compute. reflexivity.
Defined.

(** What a save that goes through issues, written out: open, the header
    row, the rows in one write if there are any, close. *)
Lemma save_ops_written_out (output_csv : str) (keywords : list keyword_data) :
  save_ops output_csv keywords
  = FileOpen output_csv
    :: FileWriteRows
         [[u "keyword"; u "monthly_volume"; u "cpc"; u "competition"]]
    :: match keywords with
       | [] => []
       | _ :: _ =>
           [FileWriteRows
              (List.map (fun k => [keyword k; monthly_volume k; cpc k;
                                   competition k])
                        keywords)]
       end
    ++ [FileClose].
Proof.
  destruct keywords; reflexivity.
Qed.

(** C7.  A run of [collect_keywords] that returns has had its browser
    session return a list of records and has then issued the save and
    nothing else: the file is opened, the header row keyword,
    monthly_volume, cpc, competition is written, then one row for each
    record, holding its keyword, monthly volume, cpc and competition in
    this order, and the file is closed.  And whenever the browser
    session returns and the file operations return, the run returns;
    with no record the save is open, header, close. *)
Theorem completed_run_writes_header_and_rows :
  forall (lower : str -> str) (env : environment) (c : config)
         (output_csv : str) (timeout : Z) (fuel : nat) (t : trace),
    let header := [u "keyword"; u "monthly_volume"; u "cpc"; u "competition"] in
    let row := fun k : keyword_data =>
                 [keyword k; monthly_volume k; cpc k; competition k] in
    let save := fun keywords : list keyword_data =>
                  FileOpen output_csv
                  :: FileWriteRows [header]
                  :: match keywords with
                     | [] => []
                     | _ :: _ => [FileWriteRows (List.map row keywords)]
                     end
                  ++ [FileClose] in
    (forall t',
        collect_keywords lower env c output_csv timeout fuel t = (Ok tt, t') ->
        exists brand_website d t0 keywords t1,
          config_get (u "brand_website") c = Some brand_website
          /\ before_browser env brand_website output_csv t = (Ok d, t0)
          /\ browser_session lower env c (py_str brand_website) timeout fuel t0
             = (Ok keywords, t1)
          /\ t' = t1 ++ save keywords
          /\ written (save keywords) = header :: List.map row keywords)
    /\ (forall brand_website d t0 keywords t1,
           config_get (u "brand_website") c = Some brand_website ->
           py_bool brand_website = true ->
           before_browser env brand_website output_csv t = (Ok d, t0) ->
           browser_session lower env c (py_str brand_website) timeout fuel t0
           = (Ok keywords, t1) ->
           all_return env t1 (save keywords) ->
           collect_keywords lower env c output_csv timeout fuel t
           = (Ok tt, t1 ++ save keywords))
    /\ save [] = [FileOpen output_csv; FileWriteRows [header]; FileClose].
Proof.
  intros lower env c out timeout fuel t header row save.
  assert (Hsave : forall kws, save kws = save_ops out kws)
    by (intros kws; symmetry; apply save_ops_written_out).
  split; [|split; [|reflexivity]].
  - intros t' Hrun.
    destruct (config_get (u "brand_website") c) as [brand|] eqn:Hc.
    2:{ destruct (collect_keywords_without_website lower env c out timeout fuel t)
          as [e E]; [intros v Hv; rewrite Hc in Hv; discriminate|].
        rewrite E in Hrun. discriminate. }
    destruct (py_bool brand) eqn:Hb.
    2:{ destruct (collect_keywords_without_website lower env c out timeout fuel t)
          as [e E].
        { intros v Hv. rewrite Hc in Hv. injection Hv as <-. exact Hb. }
        rewrite E in Hrun. discriminate. }
    rewrite (collect_keywords_phases lower env c out timeout fuel brand t Hc Hb)
      in Hrun.
    apply bind_ok_inv in Hrun. destruct Hrun as (d & t0 & Hbb & Hrun).
    apply bind_ok_inv in Hrun. destruct Hrun as (kws & t1 & Hs & Hsave').
    apply save_results_ok in Hsave'.
    exists brand, d, t0, kws, t1. rewrite Hsave. repeat split; auto.
    rewrite written_save_ops. reflexivity.
  - intros brand d t0 kws t1 Hc Hb Hbb Hs Hfile.
    rewrite (collect_keywords_phases lower env c out timeout fuel brand t Hc Hb).
    rewrite (bind_ok _ _ _ _ _ Hbb), (bind_ok _ _ _ _ _ Hs).
    rewrite Hsave in *.
    apply save_results_succeeds. exact Hfile.
Qed.

Lemma completed_run_witness :
  let header := [u "keyword"; u "monthly_volume"; u "cpc"; u "competition"] in
  let t0 := snd (before_browser (site []) (PyStr (u "example.com"))
                                example_csv []) in
  let t1 := snd (browser_session ascii_lower (site []) example_config
                                 (u "example.com") 60000 50 t0) in
  let t2 := snd (browser_session ascii_lower (site [example_table])
                                 example_config (u "example.com") 60000 50 t0) in
  collect_keywords ascii_lower (site []) example_config example_csv 60000 50 []
  = (Ok tt,
     t1 ++ [FileOpen example_csv; FileWriteRows [header]; FileClose])
  /\ collect_keywords ascii_lower (site [example_table]) example_config
                      example_csv 60000 50 []
     = (Ok tt,
        t2 ++ [ FileOpen example_csv;
                FileWriteRows [header];
                FileWriteRows
                  [ [u "running shoes"; u "1000"; u "N/A"; u "N/A"];
                    [u "trail shoes"; []; u "N/A"; u "N/A"] ];
                FileClose ])
  /\ exists brand_website d t0' keywords t2',
      before_browser (site [example_table]) brand_website example_csv []
      = (Ok d, t0')
      /\ browser_session ascii_lower (site [example_table]) example_config
                         (py_str brand_website) 60000 50 t0'
         = (Ok keywords, t2')
      /\ t2 ++ [ FileOpen example_csv;
                 FileWriteRows [header];
                 FileWriteRows
                   [ [u "running shoes"; u "1000"; u "N/A"; u "N/A"];
                     [u "trail shoes"; []; u "N/A"; u "N/A"] ];
                 FileClose ]
         = t2' ++ FileOpen example_csv
               :: FileWriteRows [header]
               :: match keywords with
                  | [] => []
                  | _ :: _ =>
                      [FileWriteRows
                         (List.map (fun k => [keyword k; monthly_volume k;
                                              cpc k; competition k])
                                   keywords)]
                  end
               ++ [FileClose].
Proof.
  intros header t0 t1 t2.
  destruct (completed_run_writes_header_and_rows
              ascii_lower (site []) example_config example_csv 60000 50 [])
    as (_ & Hrun & _).
  destruct (completed_run_writes_header_and_rows
              ascii_lower (site [example_table]) example_config example_csv
              60000 50 [])
    as (Hinv2 & Hrun2 & _).
  assert (E : collect_keywords ascii_lower (site []) example_config example_csv
                               60000 50 []
              = (Ok tt,
                 t1 ++ [FileOpen example_csv; FileWriteRows [header];
                        FileClose])).
  { apply (Hrun (PyStr (u "example.com")) [] t0 [] t1).
    - reflexivity.
    - reflexivity.
    - vm_compute. reflexivity.
    - vm_compute. reflexivity.
    - simpl. repeat split; exists tt; reflexivity. }
  assert (E2 : collect_keywords ascii_lower (site [example_table])
                                example_config example_csv 60000 50 []
               = (Ok tt,
                  t2 ++ [ FileOpen example_csv;
                          FileWriteRows [header];
                          FileWriteRows
                            [ [u "running shoes"; u "1000"; u "N/A"; u "N/A"];
                              [u "trail shoes"; []; u "N/A"; u "N/A"] ];
                          FileClose ])).
  { apply (Hrun2 (PyStr (u "example.com")) [] t0
                 [running_shoes; trail_shoes] t2).
    - reflexivity.
    - reflexivity.
    - vm_compute. reflexivity.
    - vm_compute. reflexivity.
    - simpl. repeat split; exists tt; reflexivity. }
  split; [exact E|]. split; [exact E2|].
  destruct (Hinv2 _ E2)
    as (brand & d & t0' & kws & t2' & _ & Hb & Hs & Et & _).
  exists brand, d, t0', kws, t2'. split; [exact Hb|]. split; [exact Hs|].
  exact Et.
Defined.

(** C4.  When the run has come to the website field and the website
    filler returns failure, [collect_keywords] raises, and all it issues
    after the filler's own operations is the error screenshot, the close
    of the browser and the stop of Playwright: the language model is not
    asked for the form data, neither the industry nor the location is
    filled, and the form is not submitted. *)
Theorem website_failure_aborts_the_run :
  forall (lower : str -> str) (env : environment) (c : config)
         (output_csv : str) (timeout : Z) (fuel : nat)
         (brand_website : str) (t t1 t2 : trace),
    config_get (u "brand_website") c = Some (PyStr brand_website) ->
    truthy brand_website = true ->
    up_to_website_field env (PyStr brand_website) output_csv timeout t
    = (Ok tt, t1) ->
    fill_website_field env brand_website t1 = (Ok false, t2) ->
    exists e,
      collect_keywords lower env c output_csv timeout fuel t
      = (Raise e,
         t2 ++ [ Screenshot (u "error_screenshot.png");
                 BrowserClose; PlaywrightStop ]).
Proof.
  intros lower env c out timeout fuel brand t t1 t2 Hc Hb Hup Hfill.
  unfold up_to_website_field in Hup.
  apply bind_ok_inv in Hup. destruct Hup as (d & ta & Hbb & Hup).
  apply bind_ok_inv in Hup. destruct Hup as (x1 & tb & H1 & Hup).
  apply bind_ok_inv in Hup. destruct Hup as (x2 & tc & H2 & Hup).
  apply bind_ok_inv in Hup. destruct Hup as (x3 & td & H3 & Hup).
  apply bind_ok_inv in Hup. destruct Hup as (x4 & te & H4 & Hopen).
  apply call_ok_inv in H1, H2, H3, H4.
  destruct H1 as [E1 ->], H2 as [E2 ->], H3 as [E3 ->], H4 as [E4 ->].
  rewrite (collect_keywords_phases lower env c out timeout fuel
                                   (PyStr brand) t Hc Hb).
  rewrite (bind_ok _ _ _ _ _ Hbb).
  (* the body of the try *)
  assert (Hauto : automation lower env c brand timeout fuel
                    ((((ta ++ [PlaywrightStart]) ++ [Launch]) ++ [NewContext])
                       ++ [NewPage])
                  = (Raise (Exn "Exception" "Failed to fill website field"), t2)).
  { unfold automation.
    rewrite (bind_ok _ _ _ _ _ Hopen), (bind_ok _ _ _ _ _ Hfill).
    reflexivity. }
  (* the except clause *)
  assert (Hexc : exists e1,
             try_except (automation lower env c brand timeout fuel)
               (fun e => call env (Screenshot (u "error_screenshot.png")) ;;
                         raise e)
               ((((ta ++ [PlaywrightStart]) ++ [Launch]) ++ [NewContext])
                  ++ [NewPage])
             = (Raise e1, t2 ++ [Screenshot (u "error_screenshot.png")])).
  { rewrite (try_raise _ _ _ _ _ Hauto). unfold bind, call, raise.
    destruct (env t2 (Screenshot (u "error_screenshot.png"))) as [y|y];
      simpl; eauto. }
  destruct Hexc as [e1 Hexc].
  (* the finally clause, then the exit of the with block *)
  destruct (try_finally_raise _ (call env BrowserClose) _ _ _
              (halts_call env BrowserClose) Hexc) as [e2 Hfin].
  simpl snd in Hfin.
  assert (Hbody : (call env Launch ;; call env NewContext ;; call env NewPage ;;
                   try_finally
                     (try_except (automation lower env c brand timeout fuel)
                        (fun e =>
                           call env (Screenshot (u "error_screenshot.png")) ;;
                           raise e))
                     (call env BrowserClose)) (ta ++ [PlaywrightStart])
                  = (Raise e2,
                     (t2 ++ [Screenshot (u "error_screenshot.png")])
                       ++ [BrowserClose])).
  { rewrite (bind_returns env Launch _ _ x2 E2).
    rewrite (bind_returns env NewContext _ _ x3 E3).
    rewrite (bind_returns env NewPage _ _ x4 E4).
    exact Hfin. }
  destruct (try_finally_raise _ (call env PlaywrightStop) _ _ _
              (halts_call env PlaywrightStop) Hbody) as [e3 Hwith].
  simpl snd in Hwith.
  exists e3. unfold browser_session, with_block.
  rewrite bind_assoc.
  rewrite (bind_returns env PlaywrightStart _ _ x1 E1).
  rewrite (bind_raise _ _ _ _ _ Hwith).
  rewrite <- !app_assoc. reflexivity.
Qed.

Lemma website_failure_witness :
  let t1 := snd (up_to_website_field quiet (PyStr (u "example.com"))
                                     example_csv 60000 []) in
  exists e,
    collect_keywords ascii_lower quiet example_config example_csv 60000 50 []
    = (Raise e,
       (t1 ++ waits website_selectors 2000)
         ++ [ Screenshot (u "error_screenshot.png");
              BrowserClose; PlaywrightStop ]).
Proof.
  intros t1.
  apply (website_failure_aborts_the_run
           ascii_lower quiet example_config example_csv 60000 50
           (u "example.com") [] t1 (t1 ++ waits website_selectors 2000)).
  - reflexivity.
  - reflexivity.
  - vm_compute. reflexivity.
  - vm_compute. reflexivity.
Defined.

(** ** The completion waiter *)

Section WaiterFacts.

Variable env : environment.
Variable start_time : float.









(** *** What the check sees *)

Variable found : str -> list elem.
Variable shown : elem -> bool.

Lemma shows_at_now (t : trace) :
  shows_at env t found shown ->
  (forall selector, env t (QuerySelectorAll selector) = Returns (found selector))
  /\ (forall e, env t (IsVisible e) = Returns (shown e)).
Proof.
  intros H. specialize (H [] (Forall_nil _)). rewrite app_nil_r in H. exact H.
Qed.

Lemma shows_at_look (t : trace) (o : op) :
  shows_at env t found shown ->
  is_look o = true ->
  shows_at env (t ++ [o]) found shown.
Proof.
  intros H Ho new Hn. rewrite <- app_assoc. apply (H ([o] ++ new)).
  constructor; assumption.
Qed.

Lemma any_visible_at (elements : list elem) :
  forall t,
    shows_at env t found shown ->
    exists t',
      any_visible env elements t = (Ok (existsb shown elements), t')
      /\ shows_at env t' found shown.
Proof.
  induction elements as [|el rest IH]; intros t H; cbn [any_visible existsb].
  - unfold ret. eauto.
  - unfold bind, call. rewrite (proj2 (shows_at_now t H) el). cbn [wrap].
    assert (H1 : shows_at env (t ++ [IsVisible el]) found shown)
      by (apply shows_at_look; [exact H | reflexivity]).
    destruct (shown el); cbn [orb]; [unfold ret; eauto | exact (IH _ H1)].
Qed.

(** While the page stays as it is, the check says whether one of the
    selectors, as it is queried, finds an element that is visible. *)
Lemma any_loading_at (selectors : list str) :
  forall t,
    shows_at env t found shown ->
    exists t',
      any_loading env selectors t
      = (Ok (existsb (fun selector =>
                        existsb shown (found (loading_query selector)))
                     selectors), t')
      /\ shows_at env t' found shown.
Proof.
  induction selectors as [|selector rest IH]; intros t H;
    cbn [any_loading existsb].
  - unfold ret. eauto.
  - unfold bind at 1. unfold try_except. unfold bind at 1. unfold call at 1.
    rewrite (proj1 (shows_at_now t H) (loading_query selector)). cbn [wrap].
    assert (H1 : shows_at env (t ++ [QuerySelectorAll (loading_query selector)])
                          found shown)
      by (apply shows_at_look; [exact H | reflexivity]).
    destruct (any_visible_at (found (loading_query selector)) _ H1)
      as (t1 & E & H2).
    rewrite E.
    destruct (existsb shown (found (loading_query selector))); cbn [orb];
      [unfold ret; eauto | exact (IH _ H2)].
Qed.


End WaiterFacts.

(** The test is the one of the doubles.  Two readings of the clock that
    are more than 120 s apart (1762190009.4258573 and 1762190129.4258575,
    given by their bits) have products by 1000 that round to doubles
    exactly 120000 apart, so the pass that reads the second one does not
    find the ceiling passed. *)
Remark ceiling_test_rounds_as_doubles :
  let start_time := PrimFloat.mul 0x1.a4238ae5b413fp+30%float 1000%float in
  let current_time := PrimFloat.mul 0x1.a4238cc5b414p+30%float 1000%float in
  PrimFloat.ltb 120%float
    (PrimFloat.sub 0x1.a4238cc5b414p+30%float 0x1.a4238ae5b413fp+30%float)
  = true
  /\ over_ceiling current_time start_time = false.
Proof. split; vm_compute; reflexivity. Qed.

(** The text patterns are queried with their quotes doubled. *)
Remark loading_query_text :
  loading_query (u "text=" ++ q (u "Loading")) = u "text=" ++ q (q (u "Loading"))
  /\ loading_query (u ".loading") = u ".loading".
Proof. split; reflexivity. Qed.




(* ================================================================== *)
(** * Further properties of the collector *)
(* ================================================================== *)

(** ** Resolution of a control *)

(** X1.  The resolution loop of the three fillers (website input,
    industry dropdown, location input) returns from every log.  It
    returns the first candidate, in list order, whose wait returns an
    element: the candidates before it were each waited for and did not
    resolve, and no candidate after it is waited for.  It returns
    nothing exactly when every candidate was waited for in turn and none
    resolved; a wait that raises counts as one that did not resolve. *)
Theorem resolution_takes_first_resolving_candidate :
  forall (env : environment) (selectors : list str) (t : trace),
    exists found t',
      first_visible env selectors t = (Ok found, t')
      /\ match found with
         | Some e =>
             exists before selector after,
               selectors = before ++ selector :: after
               /\ env (t ++ waits before 2000)
                      (WaitForSelector selector 2000 visible)
                  = Returns (Some e)
               /\ t' = t ++ waits before 2000
                         ++ [WaitForSelector selector 2000 visible]
               /\ forall b s a x,
                   before = b ++ s :: a ->
                   env (t ++ waits b 2000) (WaitForSelector s 2000 visible)
                   <> Returns (Some x)
         | None =>
             t' = t ++ waits selectors 2000
             /\ forall before selector after x,
                 selectors = before ++ selector :: after ->
                 env (t ++ waits before 2000)
                     (WaitForSelector selector 2000 visible)
                 <> Returns (Some x)
         end.
Proof.
  intros env selectors. induction selectors as [|s rest IH]; intros t.
  - exists None, t. split; [reflexivity|]. split.
    + simpl. rewrite app_nil_r. reflexivity.
    + intros [|? ?] ? ? ? E; discriminate.
  - destruct (env t (WaitForSelector s 2000 visible)) as [[e|]|x] eqn:Es.
    + exists (Some e), (t ++ [WaitForSelector s 2000 visible]). split.
      * simpl. unfold bind, try_except, call. rewrite Es. reflexivity.
      * exists [], s, rest. simpl. rewrite app_nil_r.
        repeat split; auto.
        intros [|? ?] ? ? ? E; discriminate.
    + assert (Hskip : forall e, env t (WaitForSelector s 2000 visible)
                                <> Returns (Some e))
        by (intros e; rewrite Es; discriminate).
      rewrite (first_visible_skip env s rest t Hskip).
      destruct (IH (t ++ [WaitForSelector s 2000 visible]))
        as (found & t' & E & Hf).
      exists found, t'. split; [exact E|].
      destruct found as [e|].
      * destruct Hf as (before & selector & after & -> & He & -> & Hb).
        exists (s :: before), selector, after. simpl.
        rewrite <- !app_assoc in *. simpl in *.
        repeat split; auto.
        intros [|b0 b] s0 a x Eb; simpl in Eb; injection Eb as <- Eb.
        -- simpl. rewrite app_nil_r. apply Hskip.
        -- simpl. specialize (Hb b s0 a x Eb).
           rewrite <- app_assoc in Hb. exact Hb.
      * destruct Hf as (-> & Hb). split.
        -- simpl. rewrite <- app_assoc. reflexivity.
        -- intros [|b0 b] s0 a x Eb; simpl in Eb; injection Eb as <- Eb.
           ++ simpl. rewrite app_nil_r. apply Hskip.
           ++ simpl. specialize (Hb b s0 a x Eb).
              rewrite <- app_assoc in Hb. exact Hb.
    + assert (Hskip : forall e, env t (WaitForSelector s 2000 visible)
                                <> Returns (Some e))
        by (intros e; rewrite Es; discriminate).
      rewrite (first_visible_skip env s rest t Hskip).
      destruct (IH (t ++ [WaitForSelector s 2000 visible]))
        as (found & t' & E & Hf).
      exists found, t'. split; [exact E|].
      destruct found as [e|].
      * destruct Hf as (before & selector & after & -> & He & -> & Hb).
        exists (s :: before), selector, after. simpl.
        rewrite <- !app_assoc in *. simpl in *.
        repeat split; auto.
        intros [|b0 b] s0 a x' Eb; simpl in Eb; injection Eb as <- Eb.
        -- simpl. rewrite app_nil_r. apply Hskip.
        -- simpl. specialize (Hb b s0 a x' Eb).
           rewrite <- app_assoc in Hb. exact Hb.
      * destruct Hf as (-> & Hb). split.
        -- simpl. rewrite <- app_assoc. reflexivity.
        -- intros [|b0 b] s0 a x' Eb; simpl in Eb; injection Eb as <- Eb.
           ++ simpl. rewrite app_nil_r. apply Hskip.
           ++ simpl. specialize (Hb b s0 a x' Eb).
              rewrite <- app_assoc in Hb. exact Hb.
Qed.

(** ** The website field *)

(** X2.  The website filler returns a boolean from every log.  When no
    candidate of the input resolves it returns false having issued the
    waits and nothing else.  When a candidate resolves, it returns true
    exactly when the five interactions all return: click, pause of 500
    ms, select the text, type the URL with a delay of 100 ms, pause of
    1000 ms; these are then all it has added to the log. *)
Theorem website_filler_types_the_url_or_fails :
  forall (env : environment) (website_url : str) (t : trace),
    exists b t',
      fill_website_field env website_url t = (Ok b, t')
      /\ (forall t1,
             first_visible env website_selectors t = (Ok None, t1) ->
             b = false /\ t' = t1)
      /\ (forall e t1,
             first_visible env website_selectors t = (Ok (Some e), t1) ->
             (b = true <->
              all_return env t1
                [ Click e; WaitForTimeout 500; SelectText e;
                  TypeText e website_url 100; WaitForTimeout 1000 ])
             /\ (b = true ->
                 t' = t1 ++ [ Click e; WaitForTimeout 500; SelectText e;
                              TypeText e website_url 100;
                              WaitForTimeout 1000 ])).
Proof.
  intros env url t.
  destruct (first_visible_returns env website_selectors t) as [found [t1 Hf]].
  unfold fill_website_field, try_except.
  rewrite (bind_ok _ _ _ _ _ Hf).
  destruct found as [e|].
  - unfold bind, call, ret. simpl all_return.
    destruct (env t1 (Click e)) as [x1|x1] eqn:E1; cbn [wrap].
    2:{ eexists _, _. split; [reflexivity|].
        split; [intros t2 H; congruence|].
        intros e' t2 H. assert (e' = e /\ t2 = t1) as [-> ->]
          by (split; congruence).
        split; [|discriminate]. split; [discriminate|].
        intros ([a Ha] & _). congruence. }
    destruct (env (t1 ++ [Click e]) (WaitForTimeout 500)) as [x2|x2] eqn:E2;
      cbn [wrap].
    2:{ eexists _, _. split; [reflexivity|].
        split; [intros t2 H; congruence|].
        intros e' t2 H. assert (e' = e /\ t2 = t1) as [-> ->]
          by (split; congruence).
        split; [|discriminate]. split; [discriminate|].
        intros (_ & [a Ha] & _). congruence. }
    destruct (env ((t1 ++ [Click e]) ++ [WaitForTimeout 500]) (SelectText e))
      as [x3|x3] eqn:E3; cbn [wrap].
    2:{ eexists _, _. split; [reflexivity|].
        split; [intros t2 H; congruence|].
        intros e' t2 H. assert (e' = e /\ t2 = t1) as [-> ->]
          by (split; congruence).
        split; [|discriminate]. split; [discriminate|].
        intros (_ & _ & [a Ha] & _). congruence. }
    destruct (env (((t1 ++ [Click e]) ++ [WaitForTimeout 500]) ++ [SelectText e])
                  (TypeText e url 100)) as [x4|x4] eqn:E4; cbn [wrap].
    2:{ eexists _, _. split; [reflexivity|].
        split; [intros t2 H; congruence|].
        intros e' t2 H. assert (e' = e /\ t2 = t1) as [-> ->]
          by (split; congruence).
        split; [|discriminate]. split; [discriminate|].
        intros (_ & _ & _ & [a Ha] & _). congruence. }
    destruct (env ((((t1 ++ [Click e]) ++ [WaitForTimeout 500])
                      ++ [SelectText e]) ++ [TypeText e url 100])
                  (WaitForTimeout 1000)) as [x5|x5] eqn:E5; cbn [wrap].
    2:{ eexists _, _. split; [reflexivity|].
        split; [intros t2 H; congruence|].
        intros e' t2 H. assert (e' = e /\ t2 = t1) as [-> ->]
          by (split; congruence).
        split; [|discriminate]. split; [discriminate|].
        intros (_ & _ & _ & _ & [a Ha] & _). congruence. }
    eexists _, _. split; [reflexivity|].
    split; [intros t2 H; congruence|].
    intros e' t2 H. assert (e' = e /\ t2 = t1) as [-> ->]
      by (split; congruence).
    split.
    + split; [|reflexivity]. intros _. repeat split; eauto.
    + intros _. rewrite <- !app_assoc. reflexivity.
  - exists false, t1. split; [reflexivity|].
    split; [intros t2 H; split; congruence|].
    intros e t2 H. congruence.
Qed.

Lemma website_filler_witness :
  let t1 := snd (first_visible form_page website_selectors []) in
  fill_website_field form_page (u "example.com") []
  = (Ok true,
     t1 ++ [ Click 1%N; WaitForTimeout 500; SelectText 1%N;
             TypeText 1%N (u "example.com") 100; WaitForTimeout 1000 ]).
Proof.
  intros t1.
  destruct (website_filler_types_the_url_or_fails
              form_page (u "example.com") []) as (b & t' & E & _ & H).
  destruct (H 1%N t1) as [Hiff Ht]; [vm_compute; reflexivity|].
  assert (Hb : b = true).
  { apply Hiff. cbn [all_return]. repeat split; exists tt; reflexivity. }
  rewrite E, (Ht Hb), Hb. reflexivity.
Defined.

(** ** The Continue button, when it resolves *)

(** Takes the next reply of the environment, by cases. *)
Ltac reply :=
  cbv beta iota delta [negb];
  match goal with
  | |- context [wrap (?env ?t ?o)] =>
      let E := fresh "E" in
      let a := fresh "a" in
      destruct (env t o) as [a|?] eqn:E; cbn [wrap];
      [try destruct a|]; cbv beta iota delta [negb]
  end.

(** Writes the logs of the goal and of the hypotheses as [t ++ [...]]. *)
Ltac flatten_logs :=
  repeat rewrite <- app_assoc in *; cbn [app] in *.

(** X3.  [click_continue_button] returns a boolean from every log.  It
    clicks a button only after the button has answered that it is
    visible and that it is enabled, both asked right before the click;
    and it returns true only when it has ended on that click and the
    pause of 2000 ms after it. *)
Theorem continue_button_is_clicked_only_when_usable :
  forall (env : environment) (timeout : Z) (t : trace),
    exists b new,
      click_continue_button env timeout t = (Ok b, t ++ new)
      /\ (forall e,
             In (Click e) new ->
             exists pre post,
               new = pre ++ [IsVisible e; IsEnabled e; Click e] ++ post
               /\ env (t ++ pre) (IsVisible e) = Returns true
               /\ env (t ++ pre ++ [IsVisible e]) (IsEnabled e) = Returns true)
      /\ (b = true ->
          exists e pre,
            new = pre ++ [IsVisible e; IsEnabled e; Click e; WaitForTimeout 2000]).
Proof.
  intros env timeout t. unfold click_continue_button, try_except, bind, call, ret.
  repeat reply; flatten_logs;
    (eexists _, _; split; [reflexivity|]; split;
     [ intros btn Hin; cbn [In] in Hin;
       repeat (destruct Hin as [Hin|Hin];
               [try discriminate Hin; try (injection Hin as <-)|]);
       try contradiction;
       match goal with
       | |- exists pre post, ?l = _ /\ _ =>
           first [ solve [ exists (firstn 1 l), (skipn 4 l);
                           cbn [firstn skipn app];
                           repeat split; first [reflexivity | assumption] ]
                 | solve [ exists (firstn 2 l), (skipn 5 l);
                           cbn [firstn skipn app];
                           repeat split; first [reflexivity | assumption] ] ]
       end
     | intros Hb; try discriminate Hb;
       match goal with
       | |- exists e0 pre, ?l = _ =>
           first [ solve [ eexists _, (firstn 1 l); reflexivity ]
                 | solve [ eexists _, (firstn 2 l); reflexivity ] ]
       end ]).
Qed.

Lemma continue_button_witness :
  exists e pre,
    snd (click_continue_button (site []) 5000 [])
    = [] ++ pre ++ [IsVisible e; IsEnabled e; Click e; WaitForTimeout 2000].
Proof.
  destruct (continue_button_is_clicked_only_when_usable (site []) 5000 [])
    as (b & new & E & _ & Hb).
  assert (Hrun : fst (click_continue_button (site []) 5000 []) = Ok true)
    by (vm_compute; reflexivity).
  rewrite E in Hrun. cbn [fst] in Hrun.
  assert (Et : b = true) by congruence.
  destruct (Hb Et) as (e & pre & En).
  exists e, pre. rewrite E. cbn [snd]. rewrite En. reflexivity.
Defined.

(** ** Popups *)

Lemma click_first_close_returns (env : environment) (selectors : list str) :
  forall t, exists new,
    click_first_close env selectors t = (Ok tt, t ++ new).
Proof.
  induction selectors as [|s rest IH]; intros t.
  - exists []. rewrite app_nil_r. reflexivity.
  - cbn [click_first_close]. unfold bind at 1.
    match goal with
    | |- context [try_except ?m ?h t] =>
        assert (Hbody : exists b new, try_except m h t = (Ok b, t ++ new))
    end.
    { unfold try_except, bind, call, ret.
      repeat reply; flatten_logs; eexists _, _; reflexivity. }
    destruct Hbody as (b & n1 & Hbody). rewrite Hbody.
    destruct b.
    + exists n1. reflexivity.
    + destruct (IH (t ++ n1)) as [n2 E]. exists (n1 ++ n2).
      rewrite E, app_assoc. reflexivity.
Qed.

(** X4.  The dismissal of popups never fails the run: it returns from
    every log, whatever the close buttons do, and it always presses
    Escape after the loop over the close buttons; the press is the last
    operation it issues, or the last but the pause of 1000 ms. *)
Theorem popups_are_dismissed_best_effort :
  forall (env : environment) (t : trace),
    exists new,
      dismiss_popups env t = (Ok tt, t ++ new)
      /\ exists before,
          new = before ++ [KeyboardPress (u "Escape")]
          \/ new = before ++ [KeyboardPress (u "Escape"); WaitForTimeout 1000].
Proof.
  intros env t. unfold dismiss_popups, try_except.
  destruct (click_first_close_returns env close_selectors t) as [n1 E].
  rewrite (bind_ok _ _ _ _ _ E). unfold bind, call, ret.
  repeat reply; rewrite <- ?app_assoc; cbn [app].
  - exists (n1 ++ [KeyboardPress (u "Escape"); WaitForTimeout 1000]).
    split; [reflexivity|]. exists n1. right. reflexivity.
  - exists (n1 ++ [KeyboardPress (u "Escape"); WaitForTimeout 1000]).
    split; [reflexivity|]. exists n1. right. reflexivity.
  - exists (n1 ++ [KeyboardPress (u "Escape")]).
    split; [reflexivity|]. exists n1. left. reflexivity.
Qed.

(** ** The options of the dropdown and of the autocomplete *)

(** The option loop returns from every log and presses no key.  When it
    returns true it has ended on the wait for one of its candidates,
    which resolved, the click on the element and the pause of 1000 ms. *)
Lemma click_first_option_spec (env : environment) (selectors : list str) :
  forall t, exists b new,
    click_first_option env selectors t = (Ok b, t ++ new)
    /\ Forall (fun o => is_key_press o = false) new
    /\ (b = true ->
        exists pre selector item,
          In selector selectors
          /\ new = pre ++ [ WaitForSelector selector 3000 visible;
                            Click item; WaitForTimeout 1000 ]
          /\ env (t ++ pre) (WaitForSelector selector 3000 visible)
             = Returns (Some item)).
Proof.
  induction selectors as [|s rest IH]; intros t.
  - exists false, []. rewrite app_nil_r.
    split; [reflexivity|]. split; [constructor | discriminate].
  - cbn [click_first_option]. unfold bind at 1.
    match goal with
    | |- context [try_except ?m ?h t] =>
        assert (Hbody : exists b new,
                   try_except m h t = (Ok b, t ++ new)
                   /\ Forall (fun o => is_key_press o = false) new
                   /\ (b = true ->
                       exists item,
                         new = [ WaitForSelector s 3000 visible;
                                 Click item; WaitForTimeout 1000 ]
                         /\ env t (WaitForSelector s 3000 visible)
                            = Returns (Some item)))
    end.
    { unfold try_except, bind, call, ret.
      repeat reply; flatten_logs;
        (eexists _, _; split; [reflexivity|]; split;
         [repeat constructor | intros Hb; try discriminate Hb; eauto]). }
    destruct Hbody as (b & n1 & Hbody & Hk & Ht). rewrite Hbody.
    destruct b.
    + exists true, n1. split; [reflexivity|]. split; [exact Hk|].
      intros _. destruct (Ht eq_refl) as (item & -> & Hi).
      exists [], s, item. rewrite app_nil_r.
      split; [left; reflexivity|]. split; [reflexivity | exact Hi].
    + destruct (IH (t ++ n1)) as (b & n2 & E & Hk2 & Ht2).
      exists b, (n1 ++ n2). rewrite E, app_assoc.
      split; [reflexivity|]. split; [apply Forall_app; auto|].
      intros Hb. destruct (Ht2 Hb) as (pre & sel & item & Hin & -> & Hi).
      exists (n1 ++ pre), sel, item. rewrite <- !app_assoc in *.
      split; [right; exact Hin|]. split; [reflexivity | exact Hi].
Qed.

(** X5.  Once the industry dropdown has been found and opened (the click
    and the pause of 2000 ms returned), the dropdown filler returns true
    only if one of the four menu candidates for the value resolved and
    was clicked, and then it has pressed no key; in every other case it
    presses Escape before it returns false, so that the menu is not left
    open.  If the dropdown is not found, it returns false having issued
    the waits alone. *)
Theorem dropdown_filler_chooses_or_closes_the_menu :
  forall (env : environment) (industry_value : str) (t t1 : trace),
    truthy industry_value = true ->
    str_eqb industry_value (u "All Industries") = false ->
    (first_visible env industry_selectors t = (Ok None, t1) ->
     fill_industry_dropdown env industry_value t = (Ok false, t1))
    /\ (forall e,
           first_visible env industry_selectors t = (Ok (Some e), t1) ->
           all_return env t1 [Click e; WaitForTimeout 2000] ->
           exists b new,
             fill_industry_dropdown env industry_value t
             = (Ok b, (t1 ++ [Click e; WaitForTimeout 2000]) ++ new)
             /\ (b = true ->
                 Forall (fun o => is_key_press o = false) new
                 /\ exists pre selector item,
                     In selector (menu_selectors industry_value)
                     /\ new = pre ++ [ WaitForSelector selector 3000 visible;
                                       Click item; WaitForTimeout 1000 ]
                     /\ env ((t1 ++ [Click e; WaitForTimeout 2000]) ++ pre)
                            (WaitForSelector selector 3000 visible)
                        = Returns (Some item))
             /\ (b = false -> In (KeyboardPress (u "Escape")) new)).
Proof.
  intros env v t t1 Hv Hd. unfold fill_industry_dropdown.
  rewrite Hv, Hd. cbn [negb orb]. split.
  - intros Hf. unfold try_except. rewrite (bind_ok _ _ _ _ _ Hf). reflexivity.
  - intros e Hf ([a1 E1] & [a2 E2] & _).
    unfold try_except at 1. rewrite (bind_ok _ _ _ _ _ Hf). cbv beta iota.
    rewrite (bind_returns env _ _ _ a1 E1).
    rewrite (bind_returns env _ _ _ a2 E2).
    replace ((t1 ++ [Click e]) ++ [WaitForTimeout 2000])
      with (t1 ++ [Click e; WaitForTimeout 2000])
      by (rewrite <- app_assoc; reflexivity).
    set (t2 := t1 ++ [Click e; WaitForTimeout 2000]).
    destruct (click_first_option_spec env (menu_selectors v) t2)
      as (chosen & n & E & Hk & Ht).
    unfold try_except. rewrite (bind_ok _ _ _ _ _ E).
    destruct chosen; cbn [negb].
    + exists true, n. split; [reflexivity|].
      split; [intros _; split; [exact Hk | exact (Ht eq_refl)] | discriminate].
    + unfold bind, call, ret. repeat reply; rewrite <- ?app_assoc;
        (eexists false, _; split; [reflexivity|];
         split; [discriminate|]; intros _;
         apply in_or_app; right; left; reflexivity).
Qed.

Lemma dropdown_filler_witness :
  exists new,
    fill_industry_dropdown menu_page (u "Technology") []
    = (Ok true,
       ([WaitForSelector (nth 0 industry_selectors []) 2000 visible]
          ++ [Click 2%N; WaitForTimeout 2000]) ++ new)
    /\ Forall (fun o => is_key_press o = false) new.
Proof.
  destruct (dropdown_filler_chooses_or_closes_the_menu
              menu_page (u "Technology") []
              [WaitForSelector (nth 0 industry_selectors []) 2000 visible]
              eq_refl eq_refl) as [_ H].
  destruct (H 2%N) as (b & new & E & Ht & _).
  - vm_compute. reflexivity.
  - simpl. repeat split; exists tt; reflexivity.
  - assert (Hb : b = true).
    { assert (Hrun : fst (fill_industry_dropdown menu_page (u "Technology") [])
                     = Ok true) by (vm_compute; reflexivity).
      rewrite E in Hrun. simpl in Hrun. congruence. }
    subst b. exists new. split; [exact E | exact (proj1 (Ht eq_refl))].
Defined.

(** X6.  The location was typed and no option holding the typed text
    shows; the second candidate, any element of role option, resolves.
    Then the autocomplete filler clicks that element, whatever its text,
    pauses 1000 ms and returns true: the later candidates are not
    waited for and Tab is not pressed. *)
Theorem autocomplete_takes_any_option :
  forall (env : environment) (location_value : str) (t t1 : trace)
         (e item : elem),
    let typing := [ Click e; WaitForTimeout 500; SelectText e;
                    KeyboardPress (u "Delete"); WaitForTimeout 500;
                    TypeText e location_value 100; WaitForTimeout 2000 ] in
    let with_text := WaitForSelector
                       (u "[role=" ++ q (u "option") ++ u "]:has-text("
                          ++ q location_value ++ u ")") 3000 visible in
    let any_option := WaitForSelector (u "[role=" ++ q (u "option") ++ u "]")
                                      3000 visible in
    truthy location_value = true ->
    first_visible env location_selectors t = (Ok (Some e), t1) ->
    all_return env t1 typing ->
    (forall x, env (t1 ++ typing) with_text <> Returns (Some x)) ->
    env (t1 ++ typing ++ [with_text]) any_option = Returns (Some item) ->
    all_return env (t1 ++ typing ++ [with_text; any_option])
               [Click item; WaitForTimeout 1000] ->
    fill_location_autocomplete env location_value t
    = (Ok true,
       t1 ++ typing
          ++ [with_text; any_option; Click item; WaitForTimeout 1000]).
Proof.
  intros env v t t1 e item typing with_text any_option Hv Hf
         ([a1 E1] & [a2 E2] & [a3 E3] & [a4 E4] & [a5 E5] & [a6 E6] & [a7 E7] & _)
         Hno Hany ([b1 C1] & [b2 C2] & _).
  unfold fill_location_autocomplete. rewrite Hv. cbn [negb].
  unfold try_except at 1.
  rewrite (bind_ok _ _ _ _ _ Hf). cbv beta iota.
  rewrite (bind_returns env _ _ _ a1 E1).
  rewrite (bind_returns env _ _ _ a2 E2).
  rewrite (bind_returns env _ _ _ a3 E3).
  rewrite (bind_returns env _ _ _ a4 E4).
  rewrite (bind_returns env _ _ _ a5 E5).
  rewrite (bind_returns env _ _ _ a6 E6).
  rewrite (bind_returns env _ _ _ a7 E7).
  match goal with |- context [try_except _ _ ?tr] =>
    replace tr with (t1 ++ typing)
      by (unfold typing; rewrite <- !app_assoc; reflexivity)
  end.
  assert (Hany' : env ((t1 ++ typing) ++ [with_text]) any_option
                  = Returns (Some item))
    by (rewrite <- app_assoc; exact Hany).
  assert (C1' : env (((t1 ++ typing) ++ [with_text]) ++ [any_option])
                    (Click item) = Returns b1)
    by (rewrite <- !app_assoc; exact C1).
  assert (C2' : env ((((t1 ++ typing) ++ [with_text]) ++ [any_option])
                       ++ [Click item]) (WaitForTimeout 1000) = Returns b2).
  { replace ((((t1 ++ typing) ++ [with_text]) ++ [any_option]) ++ [Click item])
      with ((t1 ++ typing ++ [with_text; any_option]) ++ [Click item])
      by (rewrite <- !app_assoc; reflexivity).
    exact C2. }
  clear Hany C1 C2.
  set (t2 := t1 ++ typing) in *.
  assert (Hopt : click_first_option env (autocomplete_selectors v) t2
                 = (Ok true,
                    t2 ++ [with_text; any_option; Click item;
                           WaitForTimeout 1000])).
  { unfold autocomplete_selectors. cbn [click_first_option].
    unfold bind at 1. unfold try_except at 1. unfold bind at 1. unfold call at 1.
    fold with_text.
    destruct (env t2 with_text) as [[x|]|x] eqn:Ew; cbn [wrap];
      [exfalso; exact (Hno x eq_refl) | |];
      unfold ret at 1; cbv beta iota;
      unfold bind at 1; unfold try_except at 1; fold any_option;
      rewrite (bind_returns env any_option _ _ (Some item) Hany');
      cbv beta iota;
      rewrite (bind_returns env _ _ _ b1 C1');
      rewrite (bind_returns env _ _ _ b2 C2');
      unfold ret; rewrite <- !app_assoc; reflexivity. }
  unfold try_except. rewrite (bind_ok _ _ _ _ _ Hopt). cbn [negb].
  unfold bind, ret. unfold t2. rewrite <- !app_assoc. reflexivity.
Qed.

Lemma autocomplete_any_option_witness :
  exists t',
    fill_location_autocomplete suggestion_page (u "Berlin") [] = (Ok true, t')
    /\ In (Click 8%N) t'
    /\ ~ In (KeyboardPress (u "Tab")) t'.
Proof.
  eexists. split.
  - apply (autocomplete_takes_any_option
             suggestion_page (u "Berlin") []
             [WaitForSelector (nth 0 location_selectors []) 2000 visible]
             3%N 8%N).
    + reflexivity.
    + vm_compute. reflexivity.
    + simpl. repeat split; exists tt; reflexivity.
    + intros x. vm_compute. discriminate.
    + vm_compute. reflexivity.
    + simpl. repeat split; exists tt; reflexivity.
  - split.
    + simpl. do 10 right. left. reflexivity.
    + simpl. intros H.
      repeat (destruct H as [H|H]; [discriminate H|]). exact H.
Defined.

(** ** What [strip] leaves *)

Lemma lstrip_head (s : str) (c : N) (rest : str) :
  lstrip s = c :: rest -> isspace c = false.
Proof.
  induction s as [|x s IH]; simpl; [discriminate|].
  destruct (isspace x) eqn:Hx; [exact IH|].
  intros E. injection E as <- _. exact Hx.
Qed.

Lemma lstrip_suffix (s : str) : exists pre, s = pre ++ lstrip s.
Proof.
  induction s as [|x s [pre IH]]; simpl.
  - exists []. reflexivity.
  - destruct (isspace x).
    + exists (x :: pre). simpl. f_equal. exact IH.
    + exists []. reflexivity.
Qed.

(** The text [strip] returns neither begins nor ends with white space. *)
Lemma strip_trimmed (s : str) : trimmed (strip s).
Proof.
  unfold strip, rstrip. split.
  - intros c rest E.
    apply (f_equal (@rev N)) in E. rewrite rev_involutive in E. simpl in E.
    destruct (lstrip_suffix (rev (lstrip s))) as [pre Hp].
    rewrite E in Hp. apply (f_equal (@rev N)) in Hp.
    rewrite rev_involutive, app_assoc, rev_app_distr in Hp. simpl in Hp.
    exact (lstrip_head s c _ Hp).
  - intros front c E.
    apply (f_equal (@rev N)) in E. rewrite rev_involutive, rev_app_distr in E.
    simpl in E. exact (lstrip_head _ c _ E).
Qed.

Lemma trimmed_nil : trimmed [].
Proof.
  split; [intros c rest E; discriminate|].
  intros [|x front] c E; discriminate.
Qed.

Lemma trimmed_not_available : trimmed (u "N/A").
Proof.
  split.
  - intros c rest E. injection E as <- _. reflexivity.
  - intros front c E.
    assert (Hr : rev (u "N/A") = rev (front ++ [c])) by (rewrite E; reflexivity).
    rewrite rev_app_distr in Hr. simpl in Hr. injection Hr as <- _.
    reflexivity.
Qed.

(** ** The form data *)

Section FormDataFacts.

Variable env : environment.

Lemma generate_completion_log (industry_text : str) (t : trace) :
  exists r,
    generate_completion env (industry_prompt industry_text) t
    = (r, t ++ [ChatCreate (industry_prompt industry_text)])
    /\ r <> Diverge.
Proof.
  unfold generate_completion. rewrite industry_prompt_not_blank.
  unfold try_except, bind, call, raise, ret.
  destruct (env t (ChatCreate (industry_prompt industry_text)))
    as [[[|[[m|]] rest]]|x]; cbn [wrap choices choice_message];
    try (eexists; split; [reflexivity | discriminate]).
  destruct m as [[text|]]; cbn [content];
    try (eexists; split; [reflexivity | discriminate]).
  destruct (truthy text); eexists; split; try reflexivity; discriminate.
Qed.

Lemma map_industry_log (industry_text : str) (t : trace) :
  exists label new,
    map_industry_to_wordstream env industry_text t = (Ok label, t ++ new)
    /\ In label valid_industries
    /\ (new = [] \/ new = [ChatCreate (industry_prompt industry_text)]).
Proof.
  destruct (list_eq_dec N.eq_dec (strip industry_text) []) as [Hs|Hs].
  - rewrite (map_industry_blank env industry_text t Hs).
    exists business_services, []. rewrite app_nil_r.
    split; [reflexivity|]. split; [apply In_valid_business_services | auto].
  - rewrite (map_industry_not_blank env industry_text t Hs).
    destruct (generate_completion_log industry_text t) as [r [E Hr]].
    rewrite E. destruct r as [mapped| e |]; [| |congruence].
    + destruct (mem mapped valid_industries) eqn:Hm.
      * exists mapped, [ChatCreate (industry_prompt industry_text)].
        split; [reflexivity|]. split; [apply mem_In; exact Hm | auto].
      * exists business_services, [ChatCreate (industry_prompt industry_text)].
        split; [reflexivity|].
        split; [apply In_valid_business_services | auto].
    + exists business_services, [ChatCreate (industry_prompt industry_text)].
      split; [reflexivity|].
      split; [apply In_valid_business_services | auto].
Qed.

Lemma find_industry_log (c : config) (keys : list str) :
  forall t, exists found new,
    find_industry env c keys t = (Ok found, t ++ new)
    /\ (forall label, found = Some label -> In label valid_industries)
    /\ (new = [] \/ exists prompt, new = [ChatCreate prompt])
    /\ (found = None -> new = []).
Proof.
  induction keys as [|key keys IH]; intros t; cbn [find_industry].
  - exists None, []. rewrite app_nil_r.
    split; [reflexivity|]. split; [discriminate | auto].
  - destruct (config_get key c) as [v|]; [|apply IH].
    destruct (py_bool v); [|apply IH].
    destruct (map_industry_log (py_str v) t) as (label & new & E & Hin & Hn).
    unfold bind at 1. unfold try_except. rewrite (bind_ok _ _ _ _ _ E).
    unfold ret at 1. cbv beta iota.
    exists (Some label), new. split; [reflexivity|].
    split; [intros l El; injection El as <-; exact Hin|].
    split; [|discriminate].
    destruct Hn as [->| ->]; [left; reflexivity | right; eauto].
Qed.

Lemma find_location_trimmed (c : config) (keys : list str) (l : str) :
  find_location c keys = Some l -> trimmed l.
Proof.
  induction keys as [|key keys IH]; simpl; [discriminate|].
  destruct (config_get key c) as [v|]; [|exact IH].
  destruct (py_bool v); [|exact IH].
  destruct v as [s|[|first items] text|b text]; try exact IH.
  - destruct (truthy (strip s)); [|exact IH].
    intros E. injection E as <-. apply strip_trimmed.
  - intros E. injection E as <-. apply strip_trimmed.
Qed.

Lemma valid_industry_is_a_choice (label : str) :
  In label valid_industries ->
  truthy label = true /\ str_eqb label (u "All Industries") = false.
Proof.
  intros H. simpl in H.
  repeat (destruct H as [<-|H]; [split; reflexivity|]). contradiction.
Qed.

End FormDataFacts.

(** X7.  [extract_form_data] returns from every log, whatever the
    configuration holds and whatever the language model does.  The
    industry of the form data is always one of the valid industries, so
    it is never empty and never "All Industries"; the location and the
    website are trimmed; and the language model is asked once at most,
    and not at all when no industry key of the configuration has a true
    value. *)
Theorem form_data_is_always_usable :
  forall (env : environment) (c : config) (t : trace),
    exists form new,
      extract_form_data env c t = (Ok form, t ++ new)
      /\ In (industry form) valid_industries
      /\ truthy (industry form) = true
      /\ str_eqb (industry form) (u "All Industries") = false
      /\ trimmed (location form)
      /\ trimmed (website form)
      /\ (new = [] \/ exists prompt, new = [ChatCreate prompt])
      /\ ((forall key v,
              In key industry_keys -> config_get key c = Some v ->
              py_bool v = false) ->
          new = [] /\ industry form = business_services).
Proof.
  intros env c t. unfold extract_form_data.
  destruct (find_industry_log env c industry_keys t)
    as (found & new & E & Hin & Hn & Hnone).
  rewrite (bind_ok _ _ _ _ _ E). unfold ret.
  eexists _, new. split; [reflexivity|]. cbn [industry location website].
  assert (Hi : In (match found with
                   | Some x => x
                   | None => business_services
                   end) valid_industries).
  { destruct found as [x|]; [apply Hin; reflexivity|].
    apply In_valid_business_services. }
  split; [exact Hi|].
  split; [exact (proj1 (valid_industry_is_a_choice _ Hi))|].
  split; [exact (proj2 (valid_industry_is_a_choice _ Hi))|].
  split.
  { destruct (find_location c location_keys) as [l|] eqn:El;
      [exact (find_location_trimmed c location_keys l El) | apply trimmed_nil]. }
  split.
  { destruct (config_get (u "brand_website") c) as [[s|items text|b text]|];
      try apply trimmed_nil. apply strip_trimmed. }
  split; [exact Hn|].
  intros Hno.
  assert (Hf : forall keys t0,
             (forall key v, In key keys -> config_get key c = Some v ->
                            py_bool v = false) ->
             find_industry env c keys t0 = (Ok None, t0)).
  { induction keys as [|key keys IH]; intros t0 Hk; cbn [find_industry];
      [reflexivity|].
    destruct (config_get key c) as [v|] eqn:Ev.
    - rewrite (Hk key v (or_introl eq_refl) Ev).
      apply IH. intros k v' Hin' Hv'. apply (Hk k v'); [right|]; assumption.
    - apply IH. intros k v' Hin' Hv'. apply (Hk k v'); [right|]; assumption. }
  rewrite (Hf industry_keys t Hno) in E.
  assert (found = None) by congruence. subst found.
  split; [exact (Hnone eq_refl) | reflexivity].
Qed.

Lemma form_data_witness :
  exists form,
    extract_form_data quiet example_config [] = (Ok form, [])
    /\ industry form = business_services.
Proof.
  destruct (form_data_is_always_usable quiet example_config [])
    as (form & new & E & _ & _ & _ & _ & _ & _ & Hno).
  destruct Hno as [-> Hi].
  - intros key v Hin Hv. simpl in Hin.
    repeat (destruct Hin as [<-|Hin]; [vm_compute in Hv; discriminate Hv|]).
    contradiction.
  - exists form. split; [exact E | exact Hi].
Defined.

(** ** The first operation of a program *)

Lemma issues_weaken (P Q : op -> Prop) {A : Type} (m : M A) :
  (forall o, P o -> Q o) -> issues P m -> issues Q m.
Proof.
  intros H Hm t. destruct (Hm t) as [new [E F]]. exists new.
  split; [exact E | eapply Forall_impl; eauto].
Qed.

Lemma starts_with_call (env : environment) (o : op) {B : Type}
      (k : resp o -> M B) :
  (forall a, issues (fun _ => True) (k a)) ->
  starts_with o (bind (call env o) k).
Proof.
  intros Hk t. unfold bind, call.
  destruct (env t o) as [a|x]; cbn [wrap].
  - destruct (Hk a (t ++ [o])) as [new [E _]]. exists new.
    rewrite E, <- app_assoc. reflexivity.
  - exists []. reflexivity.
Qed.

Lemma starts_with_bind (o : op) {A B : Type} (m : M A) (k : A -> M B) :
  starts_with o m ->
  (forall a, issues (fun _ => True) (k a)) ->
  starts_with o (bind m k).
Proof.
  intros Hm Hk t. unfold bind. destruct (Hm t) as [rest E].
  destruct (m t) as [[a| e |] t1]; simpl in E; subst t1;
    try (exists rest; reflexivity).
  destruct (Hk a (t ++ o :: rest)) as [new [E _]]. exists (rest ++ new).
  rewrite E, <- app_assoc. reflexivity.
Qed.

Lemma starts_with_try (o : op) {A : Type} (m : M A) (h : exn -> M A) :
  starts_with o m ->
  (forall e, issues (fun _ => True) (h e)) ->
  starts_with o (try_except m h).
Proof.
  intros Hm Hh t. unfold try_except. destruct (Hm t) as [rest E].
  destruct (m t) as [[a| e |] t1]; simpl in E; subst t1;
    try (exists rest; reflexivity).
  destruct (Hh e (t ++ o :: rest)) as [new [E _]]. exists (rest ++ new).
  rewrite E, <- app_assoc. reflexivity.
Qed.

(** A filler that does not skip begins by waiting for the first
    candidate of its control. *)
Lemma fill_industry_dropdown_first_wait (env : environment) (v : str) :
  truthy v = true ->
  str_eqb v (u "All Industries") = false ->
  starts_with (WaitForSelector (nth 0 industry_selectors []) 2000 visible)
              (fill_industry_dropdown env v).
Proof.
  intros Hv Hd. unfold fill_industry_dropdown. rewrite Hv, Hd. cbn [negb orb].
  apply starts_with_try; [|intros; apply issues_ret].
  apply starts_with_bind.
  - unfold industry_selectors. cbn [first_visible nth].
    apply starts_with_bind.
    + intros t. unfold try_except, call.
      match goal with |- context [env t ?o] =>
        destruct (env t o) as [a|x]; cbn [wrap] end;
        exists []; reflexivity.
    + intros [e|]; issue.
  - intros [e|]; issue.
Qed.

(** X8.  The industry dropdown is never skipped by [collect_keywords]:
    once the language-model client is there, the form data is derived
    and the very next operation is the wait for the first candidate of
    the industry dropdown, also when the configuration names no
    industry, in which case the value looked for is "Business
    Services". *)
Theorem industry_fill_is_always_attempted :
  forall (env : environment) (c : config) (t t1 : trace),
    get_llm env t = (Ok tt, t1) ->
    exists form new rest,
      extract_form_data env c t1 = (Ok form, t1 ++ new)
      /\ In (industry form) valid_industries
      /\ snd (fill_optional_fields env c t)
         = (t1 ++ new)
             ++ WaitForSelector (nth 0 industry_selectors []) 2000 visible
             :: rest.
Proof.
  intros env c t t1 Hllm. unfold fill_optional_fields.
  rewrite (bind_ok _ _ _ _ _ Hllm).
  assert (Hform : exists form new,
             extract_form_data env c t1 = (Ok form, t1 ++ new)
             /\ In (industry form) valid_industries).
  { unfold extract_form_data.
    destruct (find_industry_log env c industry_keys t1)
      as (found & new & E & Hin & _).
    rewrite (bind_ok _ _ _ _ _ E). unfold ret.
    eexists _, new. split; [reflexivity|]. cbn [industry].
    destruct found as [x|]; [apply Hin; reflexivity|].
    apply In_valid_business_services. }
  destruct Hform as (form & new & E & Hin).
  exists form, new. rewrite (bind_ok _ _ _ _ _ E).
  destruct (valid_industry_is_a_choice _ Hin) as [Ht Hd].
  rewrite Ht, Hd. cbn [negb andb].
  assert (Hs : starts_with
                 (WaitForSelector (nth 0 industry_selectors []) 2000 visible)
                 ((_ <- fill_industry_dropdown env (industry form) ;; ret tt) ;;
                  (if truthy (location form)
                   then _ <- fill_location_autocomplete env (location form) ;;
                        ret tt
                   else ret tt) ;;
                  call env (Screenshot (u "step2_filled.png")))).
  { destruct (fillers_no_file env) as (_ & _ & Hl & _).
    apply starts_with_bind.
    - apply starts_with_bind; [|intros; apply issues_ret].
      apply fill_industry_dropdown_first_wait; assumption.
    - intros _. apply issues_bind.
      + destruct (truthy (location form)); [|apply issues_ret].
        apply issues_bind; [|intros; apply issues_ret].
        eapply issues_weaken; [|apply Hl]. auto.
      + intros _. issue. }
  destruct (Hs (t1 ++ new)) as [rest Hr]. exists rest.
  split; [exact E|]. split; [exact Hin | exact Hr].
Qed.

Lemma industry_fill_witness :
  exists form new rest,
    extract_form_data (site []) example_config
                      [GetEnv (u "GROQ_API_KEY"); GroqClient (u "key")]
    = (Ok form, [GetEnv (u "GROQ_API_KEY"); GroqClient (u "key")] ++ new)
    /\ In (industry form) valid_industries
    /\ snd (fill_optional_fields (site []) example_config [])
       = ([GetEnv (u "GROQ_API_KEY"); GroqClient (u "key")] ++ new)
           ++ WaitForSelector (nth 0 industry_selectors []) 2000 visible
           :: rest.
Proof.
  apply (industry_fill_is_always_attempted (site []) example_config []).
  vm_compute. reflexivity.
Defined.

(** ** Invariants of the extracted records *)

Section RecordInvariants.

Variable lower : str -> str.
Variable env : environment.
Variable P : keyword_data -> Prop.

(** What the row rules are given: the stripped texts of the cells. *)
Lemma inner_texts_trimmed (cells : list elem) :
  forall t texts t',
    inner_texts env cells t = (Ok texts, t') -> Forall trimmed texts.
Proof.
  induction cells as [|cell cells IH]; intros t texts t' H; simpl in H.
  - injection H as <- _. constructor.
  - apply bind_ok_inv in H. destruct H as (text & t1 & _ & H).
    apply bind_ok_inv in H. destruct H as (rest & t2 & Hr & H).
    injection H as <- _. constructor; [apply strip_trimmed|].
    exact (IH _ _ _ Hr).
Qed.

Lemma row_step_some (row : elem) (header_found header_found' : bool)
      (k : keyword_data) (t t' : trace) :
  row_step lower env row header_found t = (Ok (header_found', Some k), t') ->
  exists cell_texts,
    Forall trimmed cell_texts
    /\ classify_row lower header_found cell_texts = (header_found', Some k).
Proof.
  unfold row_step. intros H.
  apply bind_ok_inv in H. destruct H as (cells & t1 & _ & H).
  destruct cells as [|c cells]; [discriminate H|].
  apply bind_ok_inv in H. destruct H as (texts & t2 & Ht & H).
  exists texts. split; [exact (inner_texts_trimmed _ _ _ _ Ht)|].
  unfold ret in H. congruence.
Qed.

Hypothesis rows_give_P :
  forall header_found cell_texts header_found' k,
    Forall trimmed cell_texts ->
    classify_row lower header_found cell_texts = (header_found', Some k) ->
    P k.

Lemma rows_loop_forall (rows : list elem) :
  forall header_found keywords t,
    Forall P keywords ->
    Forall P (fst (fst (rows_loop lower env rows header_found keywords t))).
Proof.
  induction rows as [|row rows IH]; intros hf kws t Hk; simpl; [exact Hk|].
  destruct (row_step lower env row hf t) as [[[hf' [k|]]| e |] t1] eqn:E;
    simpl; auto.
  apply IH. apply Forall_app. split; [exact Hk|].
  constructor; [|constructor].
  destruct (row_step_some _ _ _ _ _ _ E) as (texts & Ht & Hc).
  exact (rows_give_P _ _ _ _ Ht Hc).
Qed.

Lemma tables_loop_forall (tables : list elem) :
  forall keywords t,
    Forall P keywords ->
    Forall P (fst (fst (tables_loop lower env tables keywords t))).
Proof.
  induction tables as [|table tables IH]; intros kws t Hk; simpl; [exact Hk|].
  unfold call; simpl.
  destruct (env t (ElemQuerySelectorAll table (u "tr"))) as [rows|e]; simpl;
    [|exact Hk].
  pose proof (rows_loop_forall rows false kws
                (t ++ [ElemQuerySelectorAll table (u "tr")]) Hk) as Hr.
  destruct (rows_loop lower env rows false kws _) as [[kws' [[]| e |]] t2];
    simpl in *; auto.
Qed.

Lemma extract_forall (t : trace) (keywords : list keyword_data) (t' : trace) :
  extract_keywords_from_table lower env t = (Ok keywords, t') ->
  Forall P keywords.
Proof.
  unfold extract_keywords_from_table, call. simpl.
  destruct (env t (QuerySelectorAll (u "table"))) as [tables|e]; simpl.
  - pose proof (tables_loop_forall tables []
                  (t ++ [QuerySelectorAll (u "table")]) (Forall_nil _)) as Hs.
    destruct (tables_loop lower env tables [] _) as [[kws [[]| e |]] t2];
      simpl in *; intros E; try discriminate;
      assert (keywords = kws) by congruence; subst; exact Hs.
  - intros E. assert (keywords = []) by congruence. subst. constructor.
Qed.

(** The loop over the result selectors keeps what holds of the records:
    its list is the one it was given or one the extractor returned. *)
Lemma scan_results_forall (selectors : list str) :
  forall found keywords t found' keywords' t',
    Forall P keywords ->
    scan_results lower env selectors found keywords t
    = (Ok (found', keywords'), t') ->
    Forall P keywords'.
Proof.
  induction selectors as [|selector rest IH];
    intros found kws t found' kws' t' Hk H; cbn [scan_results] in H.
  - unfold ret in H. assert (kws' = kws) by congruence. subst. exact Hk.
  - apply bind_ok_inv in H. destruct H as ([[|el els]|] & t1 & _ & H);
      try exact (IH _ _ _ _ _ _ Hk H).
    destruct (contains (u "table") selector).
    + apply bind_ok_inv in H. destruct H as (extracted & t2 & He & H).
      destruct extracted as [k|]; [|exact (IH _ _ _ _ _ _ Hk H)].
      unfold ret in H. assert (kws' = k) by congruence. subst.
      unfold try_except, bind in He.
      destruct (extract_keywords_from_table lower env t1)
        as [[k0| e |] t3] eqn:Ex; try discriminate He.
      unfold ret in He. assert (k0 = k) by congruence. subst.
      exact (extract_forall _ _ _ Ex).
    + unfold ret in H. assert (kws' = kws) by congruence. subst. exact Hk.
Qed.

End RecordInvariants.

Lemma make_keyword_data_trimmed (cell_texts : list str) :
  Forall trimmed cell_texts -> trimmed_record (make_keyword_data cell_texts).
Proof.
  intros H.
  assert (Hn : forall i, trimmed (nth i cell_texts [])).
  { intros i. destruct (Nat.lt_ge_cases i (List.length cell_texts)) as [Hi|Hi].
    - rewrite Forall_forall in H. apply H. apply nth_In. exact Hi.
    - rewrite nth_overflow by exact Hi. apply trimmed_nil. }
  unfold trimmed_record, make_keyword_data; cbn [keyword monthly_volume cpc competition].
  repeat split;
    match goal with
    | |- context [if ?b then _ else _] => destruct b
    end;
    first [apply Hn | apply trimmed_nil | apply trimmed_not_available
          | apply (proj1 (Hn _)) | apply (proj2 (Hn _))
          | apply (proj1 trimmed_nil) | apply (proj2 trimmed_nil)
          | apply (proj1 trimmed_not_available)
          | apply (proj2 trimmed_not_available) ].
Qed.

(** X9.  Every record the extractor returns has its four fields
    trimmed: each is the stripped text of a cell or "N/A", so none
    begins or ends with white space. *)
Theorem extracted_records_are_trimmed :
  forall (lower : str -> str) (env : environment) (t : trace),
    exists keywords t',
      extract_keywords_from_table lower env t = (Ok keywords, t')
      /\ Forall trimmed_record keywords.
Proof.
  intros lower env t.
  destruct (extract_returns lower env t) as (kws & t' & E).
  exists kws, t'. split; [exact E|].
  apply (extract_forall lower env trimmed_record) with (t := t) (t' := t');
    [|exact E].
  intros hf texts hf' k Ht Hc.
  apply classify_row_some in Hc. destruct Hc as (_ & _ & _ & _ & -> & _).
  apply make_keyword_data_trimmed. exact Ht.
Qed.

(** ** What a completed run writes *)

Lemma try_finally_ok_inv {A : Type} (m : M A) (c : M unit)
      (t t' : trace) (a : A) :
  try_finally m c t = (Ok a, t') ->
  exists t1, m t = (Ok a, t1) /\ c t1 = (Ok tt, t').
Proof.
  unfold try_finally. destruct (m t) as [[x| e |] t1]; [| |discriminate];
    destruct (c t1) as [[[]| e' |] t2] eqn:Ec; intros H; try discriminate H.
  exists t1. split; [|rewrite Ec]; congruence.
Qed.

(** A handler that raises again lets no result through but the body's. *)
Lemma try_reraise_ok_inv {A : Type} (m : M A) (h : exn -> M unit)
      (t t' : trace) (a : A) :
  try_except m (fun e => h e ;; raise e) t = (Ok a, t') ->
  m t = (Ok a, t').
Proof.
  unfold try_except. destruct (m t) as [[x| e |] t1]; try discriminate; auto.
  unfold bind, raise. destruct (h e t1) as [[[]| e' |] t2]; discriminate.
Qed.

Lemma written_no_file (ops : list op) :
  Forall not_file_op ops -> written ops = [].
Proof.
  induction 1 as [|o ops Ho _ IH]; [reflexivity|].
  unfold written in *. cbn [flat_map]. rewrite IH.
  destruct o; try reflexivity; discriminate Ho.
Qed.

Section SessionInvariants.

Variable lower : str -> str.
Variable env : environment.
Variable P : keyword_data -> Prop.

Hypothesis rows_give_P :
  forall header_found cell_texts header_found' k,
    Forall trimmed cell_texts ->
    classify_row lower header_found cell_texts = (header_found', Some k) ->
    P k.

Lemma find_results_forall (t : trace) (keywords : list keyword_data)
      (t' : trace) :
  find_results lower env t = (Ok keywords, t') -> Forall P keywords.
Proof.
  unfold find_results. intros H.
  apply bind_ok_inv in H. destruct H as (x & t1 & _ & H).
  apply bind_ok_inv in H. destruct H as ([found kws] & t2 & Hs & H).
  apply (scan_results_forall lower env P rows_give_P) in Hs;
    [|constructor].
  cbn [fst snd] in H. destruct found; cbn [negb] in H.
  - unfold ret in H. assert (keywords = kws) by congruence. subst. exact Hs.
  - apply bind_ok_inv in H. destruct H as (y & t3 & _ & H).
    unfold ret in H. assert (keywords = []) by congruence. subst. constructor.
Qed.

Lemma automation_forall (c : config) (brand_website : str) (timeout : Z)
      (fuel : nat) (t : trace) (keywords : list keyword_data) (t' : trace) :
  automation lower env c brand_website timeout fuel t = (Ok keywords, t') ->
  Forall P keywords.
Proof.
  unfold automation. intros H.
  apply bind_ok_inv in H. destruct H as (x1 & t1 & _ & H).
  apply bind_ok_inv in H. destruct H as (x2 & t2 & _ & H).
  apply bind_ok_inv in H. destruct H as (x3 & t3 & _ & H).
  apply bind_ok_inv in H. destruct H as (x4 & t4 & _ & H).
  apply bind_ok_inv in H. destruct H as (x5 & t5 & _ & H).
  apply bind_ok_inv in H. destruct H as (x6 & t6 & _ & H).
  exact (find_results_forall _ _ _ H).
Qed.

Lemma browser_session_forall (c : config) (brand_website : str) (timeout : Z)
      (fuel : nat) (t : trace) (keywords : list keyword_data) (t' : trace) :
  browser_session lower env c brand_website timeout fuel t = (Ok keywords, t') ->
  Forall P keywords.
Proof.
  unfold browser_session, with_block. intros H.
  apply bind_ok_inv in H. destruct H as (x1 & t1 & _ & H).
  apply try_finally_ok_inv in H. destruct H as (t2 & H & _).
  apply bind_ok_inv in H. destruct H as (x2 & t3 & _ & H).
  apply bind_ok_inv in H. destruct H as (x3 & t4 & _ & H).
  apply bind_ok_inv in H. destruct H as (x4 & t5 & _ & H).
  apply try_finally_ok_inv in H. destruct H as (t6 & H & _).
  apply try_reraise_ok_inv in H.
  exact (automation_forall _ _ _ _ _ _ _ H).
Qed.

End SessionInvariants.

(** X10.  What reaches the output file of a run of [collect_keywords]
    that returns.  The run has had its browser session return a list of
    records; up to there it has not opened, written or closed the output
    file (the screenshots are files of their own, written by the
    browser); and what it then writes is the header row keyword,
    monthly_volume, cpc, competition and one row for each of these
    records, holding its four fields in this order.  Each of the
    records has a keyword of at least two characters that, lowered,
    holds none of "keyword", "search term", "phrase", "query", and four
    fields with no white space at either end. *)
Theorem completed_run_writes_sound_rows :
  forall (lower : str -> str) (env : environment) (c : config)
         (output_csv : str) (timeout : Z) (fuel : nat) (t t' : trace),
    collect_keywords lower env c output_csv timeout fuel t = (Ok tt, t') ->
    exists brand_website d t0 keywords t1 before,
      config_get (u "brand_website") c = Some brand_website
      /\ before_browser env brand_website output_csv t = (Ok d, t0)
      /\ browser_session lower env c (py_str brand_website) timeout fuel t0
         = (Ok keywords, t1)
      /\ t1 = t ++ before
      /\ Forall (fun o => match o with
                          | FileOpen _ | FileWriteRows _ | FileClose => False
                          | _ => True
                          end) before
      /\ t' = t1 ++ FileOpen output_csv
                 :: FileWriteRows
                      [[u "keyword"; u "monthly_volume"; u "cpc";
                        u "competition"]]
                 :: match keywords with
                    | [] => []
                    | _ :: _ =>
                        [FileWriteRows
                           (List.map (fun k => [keyword k; monthly_volume k;
                                                cpc k; competition k])
                                     keywords)]
                    end
                 ++ [FileClose]
      /\ written (skipn (List.length t) t')
         = [u "keyword"; u "monthly_volume"; u "cpc"; u "competition"]
           :: List.map (fun k => [keyword k; monthly_volume k; cpc k;
                                  competition k])
                       keywords
      /\ Forall (fun k =>
                   keyword k <> []
                   /\ 1 < List.length (keyword k)
                   /\ (forall w,
                          In w [ u "keyword"; u "search term"; u "phrase";
                                 u "query" ] ->
                          contains w (lower (keyword k)) = false)
                   /\ trimmed (keyword k)
                   /\ trimmed (monthly_volume k)
                   /\ trimmed (cpc k)
                   /\ trimmed (competition k))
                keywords.
Proof.
  intros lower env c out timeout fuel t t' Hrun.
  destruct (config_get (u "brand_website") c) as [brand|] eqn:Hc.
  2:{ destruct (collect_keywords_without_website lower env c out timeout fuel t)
        as [e E]; [intros v Hv; rewrite Hc in Hv; discriminate|].
      rewrite E in Hrun. discriminate. }
  destruct (py_bool brand) eqn:Hb.
  2:{ destruct (collect_keywords_without_website lower env c out timeout fuel t)
        as [e E].
      { intros v Hv. rewrite Hc in Hv. injection Hv as <-. exact Hb. }
      rewrite E in Hrun. discriminate. }
  rewrite (collect_keywords_phases lower env c out timeout fuel brand t Hc Hb)
    in Hrun.
  apply bind_ok_inv in Hrun. destruct Hrun as (d & t0 & Hbb & Hrun).
  apply bind_ok_inv in Hrun. destruct Hrun as (kws & t1 & Hs & Hsave).
  apply save_results_ok in Hsave.
  destruct (before_browser_no_file env brand out t) as (n1 & E1 & F1).
  destruct (browser_session_no_file lower env c (py_str brand) timeout fuel t0)
    as (n2 & E2 & F2).
  rewrite Hbb in E1. rewrite Hs in E2. cbn [snd] in E1, E2.
  assert (F : Forall not_file_op (n1 ++ n2)) by (apply Forall_app; auto).
  exists brand, d, t0, kws, t1, (n1 ++ n2).
  split; [reflexivity|]. split; [exact Hbb|]. split; [exact Hs|].
  assert (Et1 : t1 = t ++ n1 ++ n2)
    by (subst t1 t0; rewrite <- app_assoc; reflexivity).
  split; [exact Et1|]. split.
  { eapply Forall_impl; [|exact F]. intros o Ho. unfold not_file_op in Ho.
    destruct o; try exact I; discriminate Ho. }
  split; [rewrite Hsave; f_equal; apply save_ops_written_out|]. split.
  { rewrite Hsave, Et1, <- app_assoc, skipn_app, skipn_all, Nat.sub_diag.
    cbn [skipn app]. unfold written. rewrite flat_map_app.
    change (written (n1 ++ n2) ++ written (save_ops out kws)
            = [u "keyword"; u "monthly_volume"; u "cpc"; u "competition"]
              :: List.map (fun k => [keyword k; monthly_volume k; cpc k;
                                     competition k]) kws).
    rewrite (written_no_file _ F), written_save_ops. reflexivity. }
  assert (Hsound : Forall (sound_record lower) kws).
  { apply (browser_session_forall lower env (sound_record lower))
      with (c := c) (brand_website := py_str brand) (timeout := timeout)
           (fuel := fuel) (t := t0) (t' := t1); [|exact Hs].
    intros hf texts hf' k _ Hk.
    exact (proj1 (classify_row_sound lower _ _ _ _ Hk)). }
  assert (Htrim : Forall trimmed_record kws).
  { apply (browser_session_forall lower env trimmed_record)
      with (c := c) (brand_website := py_str brand) (timeout := timeout)
           (fuel := fuel) (t := t0) (t' := t1); [|exact Hs].
    intros hf texts hf' k Ht Hk.
    apply classify_row_some in Hk. destruct Hk as (_ & _ & _ & _ & -> & _).
    apply make_keyword_data_trimmed. exact Ht. }
  rewrite Forall_forall in *. intros k Hk.
  destruct (Hsound k Hk) as (H1 & H2 & H3 & _).
  destruct (Htrim k Hk) as (T1 & T2 & T3 & T4).
  split; [exact H1|]. split; [exact H2|]. split; [exact H3|].
  split; [exact T1|]. split; [exact T2|]. split; [exact T3 | exact T4].
Qed.

Lemma completed_run_sound_rows_witness :
  let run := collect_keywords ascii_lower (site [example_table]) example_config
                              example_csv 60000 50 [] in
  fst run = Ok tt
  /\ written (skipn 0 (snd run))
     = [ [u "keyword"; u "monthly_volume"; u "cpc"; u "competition"];
         [u "running shoes"; u "1000"; u "N/A"; u "N/A"];
         [u "trail shoes"; []; u "N/A"; u "N/A"] ]
  /\ exists keywords,
      written (skipn (List.length (@nil op)) (snd run))
      = [u "keyword"; u "monthly_volume"; u "cpc"; u "competition"]
        :: List.map (fun k => [keyword k; monthly_volume k; cpc k;
                               competition k])
                    keywords
      /\ Forall (fun k => 1 < List.length (keyword k)
                          /\ trimmed (keyword k)) keywords.
Proof.
  intros run. split; [vm_compute; reflexivity|].
  split; [vm_compute; reflexivity|].
  destruct (completed_run_writes_sound_rows
              ascii_lower (site [example_table]) example_config example_csv
              60000 50 [] (snd run))
    as (brand & d & t0 & kws & t1 & before & _ & _ & _ & _ & _ & _ & Hw & Hk).
  - vm_compute. reflexivity.
  - exists kws. split; [exact Hw|].
    eapply Forall_impl; [|exact Hk]. cbv beta.
    intros k (_ & H2 & _ & T1 & _). split; assumption.
Defined.

(** ** The ways out of the browser session *)

(** A [finally] that is one operation: unless the run diverges, the
    operation is the last one issued, after all the body issued. *)
Lemma snd_call (env : environment) (o : op) (t : trace) :
  snd (call env o t) = t ++ [o].
Proof.
  unfold call. destruct (env t o); reflexivity.
Qed.

Lemma try_finally_log {A : Type} (m : M A) (c : M unit) (o : op) (t : trace) :
  (forall t1, snd (c t1) = t1 ++ [o]) ->
  fst (try_finally m c t) <> Diverge ->
  snd (try_finally m c t) = snd (m t) ++ [o]
  /\ fst (m t) <> Diverge.
Proof.
  intros Hc. unfold try_finally.
  destruct (m t) as [[a| e |] t1]; cbn [fst snd];
    [| |intros H; contradiction H; reflexivity];
    specialize (Hc t1); destruct (c t1) as [[[]| x |] t2];
    cbn [fst snd] in *; intros H; split;
    solve [exact Hc | discriminate].
Qed.

(** X11.  The browser session releases what it has acquired on every
    way out, by return or by exception.  Unless the completion waiter
    runs out of fuel: once Playwright has started, the stop of
    Playwright is the last operation of the session; and once the
    browser, the context and the page are there, the last two operations
    are the close of the browser and the stop of Playwright. *)
Theorem browser_is_released_on_every_exit :
  forall (lower : str -> str) (env : environment) (c : config)
         (brand_website : str) (timeout : Z) (fuel : nat) (t0 : trace),
    fst (browser_session lower env c brand_website timeout fuel t0)
    <> Diverge ->
    (env t0 PlaywrightStart = Returns tt ->
     exists during,
       snd (browser_session lower env c brand_website timeout fuel t0)
       = (t0 ++ [PlaywrightStart]) ++ during ++ [PlaywrightStop])
    /\ (forall ta,
           launch_browser env t0 = (Ok tt, ta) ->
           exists during,
             snd (browser_session lower env c brand_website timeout fuel t0)
             = ta ++ during ++ [BrowserClose; PlaywrightStop]).
Proof.
  intros lower env c brand timeout fuel t0 Hd.
  assert (Hinner : issues not_file_op
            (try_except (automation lower env c brand timeout fuel)
               (fun e => call env (Screenshot (u "error_screenshot.png")) ;;
                         raise e))).
  { apply issues_try_except; [apply automation_no_file|]. intros e. issue. }
  assert (Hbody : issues not_file_op
            (call env Launch ;; call env NewContext ;; call env NewPage ;;
             try_finally
               (try_except (automation lower env c brand timeout fuel)
                  (fun e => call env (Screenshot (u "error_screenshot.png")) ;;
                            raise e))
               (call env BrowserClose))).
  { apply issues_bind; [issue|]. intros _.
    apply issues_bind; [issue|]. intros _.
    apply issues_bind; [issue|]. intros _.
    apply issues_try_finally; [exact Hinner | issue]. }
  pose (inner := try_except (automation lower env c brand timeout fuel)
                  (fun e => call env (Screenshot (u "error_screenshot.png")) ;;
                            raise e)).
  pose (body := call env Launch ;; call env NewContext ;; call env NewPage ;;
                try_finally inner (call env BrowserClose)).
  assert (Hstart : env t0 PlaywrightStart = Returns tt ->
                   browser_session lower env c brand timeout fuel t0
                   = try_finally body (call env PlaywrightStop)
                                 (t0 ++ [PlaywrightStart])).
  { intros E1. unfold browser_session, with_block.
    exact (bind_returns env PlaywrightStart _ _ tt E1). }
  split.
  - intros E1. rewrite (Hstart E1) in Hd |- *.
    apply (try_finally_log _ _ PlaywrightStop) in Hd;
      [|intros; apply (snd_call env PlaywrightStop)].
    destruct Hd as [-> _].
    destruct (Hbody (t0 ++ [PlaywrightStart])) as (new & E & _).
    fold inner in E. fold body in E. rewrite E.
    exists new. rewrite <- !app_assoc. reflexivity.
  - intros ta Hl. unfold launch_browser in Hl.
    apply bind_ok_inv in Hl. destruct Hl as (x1 & t1 & H1 & Hl).
    apply bind_ok_inv in Hl. destruct Hl as (x2 & t2 & H2 & Hl).
    apply bind_ok_inv in Hl. destruct Hl as (x3 & t3 & H3 & H4).
    apply call_ok_inv in H1, H2, H3.
    apply (call_ok_inv env NewPage) in H4.
    destruct H1 as [E1 ->], H2 as [E2 ->], H3 as [E3 ->], H4 as [E4 ->].
    destruct x1.
    assert (Eb : body (t0 ++ [PlaywrightStart])
                 = try_finally inner (call env BrowserClose)
                     ((((t0 ++ [PlaywrightStart]) ++ [Launch]) ++ [NewContext])
                        ++ [NewPage])).
    { unfold body.
      rewrite (bind_returns env Launch _ _ x2 E2).
      rewrite (bind_returns env NewContext _ _ x3 E3).
      exact (bind_returns env NewPage _ _ tt E4). }
    rewrite (Hstart E1) in Hd |- *.
    apply (try_finally_log _ _ PlaywrightStop) in Hd;
      [|intros; apply (snd_call env PlaywrightStop)].
    destruct Hd as [-> Hd]. rewrite Eb in Hd |- *.
    apply (try_finally_log _ _ BrowserClose) in Hd;
      [|intros; apply (snd_call env BrowserClose)].
    destruct Hd as [-> _].
    destruct (Hinner ((((t0 ++ [PlaywrightStart]) ++ [Launch]) ++ [NewContext])
                        ++ [NewPage])) as (new & E & _).
    fold inner in E. rewrite E.
    exists new. rewrite <- !app_assoc. reflexivity.
Qed.

Lemma browser_release_witness :
  let run := browser_session ascii_lower unreachable_site example_config
                             (u "example.com") 60000 50 [] in
  fst run <> Diverge
  /\ (exists during,
         snd run = ([] ++ [PlaywrightStart]) ++ during ++ [PlaywrightStop])
  /\ exists during,
      snd run = [PlaywrightStart; Launch; NewContext; NewPage]
                  ++ during ++ [BrowserClose; PlaywrightStop].
Proof.
  intros run.
  assert (Hd : fst run <> Diverge) by (vm_compute; discriminate).
  destruct (browser_is_released_on_every_exit
              ascii_lower unreachable_site example_config (u "example.com")
              60000 50 [] Hd) as [Hstop Hclose].
  split; [exact Hd|]. split.
  - apply Hstop. reflexivity.
  - apply Hclose. vm_compute. reflexivity.
Defined.

(** X12.  Unless the configuration binds [brand_website] to a string
    that is not empty, [collect_keywords] raises once the output
    directory is made, and does nothing else: no browser is started and
    no file is written.  A value that counts as false is refused by
    [collect_keywords] itself; a true value that is no string fails in
    [clean_url], which asks it whether it starts with a scheme. *)
Theorem run_needs_a_website_string :
  forall (lower : str -> str) (env : environment) (c : config)
         (output_csv : str) (timeout : Z) (fuel : nat) (t : trace),
    (forall s, config_get (u "brand_website") c = Some (PyStr s) -> s = []) ->
    exists e,
      collect_keywords lower env c output_csv timeout fuel t
      = (Raise e, t ++ [MakeDirs (dirname output_csv)]).
Proof.
  intros lower env c out timeout fuel t H.
  unfold collect_keywords, bind, call.
  destruct (env t (MakeDirs (dirname out))) as [x|x]; cbn [wrap]; [|eauto].
  destruct (config_get (u "brand_website") c) as [[s|items text|b text]|];
    [| | |unfold raise; eauto].
  - rewrite (H s eq_refl). unfold raise. cbn. eauto.
  - destruct (py_bool (PyList items text)); unfold raise, clean_url; cbn; eauto.
  - destruct (py_bool (PyOther b text)); unfold raise, clean_url; cbn; eauto.
Qed.

Lemma website_string_witness :
  exists e,
    collect_keywords ascii_lower quiet
      [ (u "brand_website", PyList [PyStr (u "example.com")] (u "['example.com']")) ]
      example_csv 60000 50 []
    = (Raise e, [] ++ [MakeDirs (dirname example_csv)]).
Proof.
  apply (run_needs_a_website_string ascii_lower quiet
           [ (u "brand_website",
              PyList [PyStr (u "example.com")] (u "['example.com']")) ]
           example_csv 60000 50 []).
  intros s E. vm_compute in E. discriminate E.
Defined.

(** X13.  Whatever raises in the body of the [try] of the browser
    session (a failed navigation, a website field that is not found, a
    missing API key, a Continue button that cannot be clicked),
    [collect_keywords] takes the error screenshot, closes the browser,
    stops Playwright and raises, and issues nothing else: the output
    file is not touched.  When the screenshot, the close and the stop
    return, the exception that leaves is the one that was raised. *)
Theorem failed_automation_aborts_the_run :
  forall (lower : str -> str) (env : environment) (c : config)
         (output_csv : str) (timeout : Z) (fuel : nat)
         (brand_website : pyval) (d : str) (t t0 ta tb : trace) (e : exn),
    config_get (u "brand_website") c = Some brand_website ->
    py_bool brand_website = true ->
    before_browser env brand_website output_csv t = (Ok d, t0) ->
    launch_browser env t0 = (Ok tt, ta) ->
    automation lower env c (py_str brand_website) timeout fuel ta
    = (Raise e, tb) ->
    exists e',
      collect_keywords lower env c output_csv timeout fuel t
      = (Raise e',
         tb ++ [ Screenshot (u "error_screenshot.png");
                 BrowserClose; PlaywrightStop ])
      /\ (all_return env tb [ Screenshot (u "error_screenshot.png");
                              BrowserClose; PlaywrightStop ] ->
          e' = e).
Proof.
  intros lower env c out timeout fuel brand d t t0 ta tb e Hc Hb Hbb Hl Ha.
  rewrite (collect_keywords_phases lower env c out timeout fuel brand t Hc Hb).
  rewrite (bind_ok _ _ _ _ _ Hbb).
  destruct (automation_failure_leaves_session
              lower env c (py_str brand) timeout fuel t0 ta tb e Hl Ha)
    as [e' E].
  rewrite (bind_raise _ _ _ _ _ E). exists e'. split; [reflexivity|].
  intros ([[] R1] & [[] R2] & [[] R3] & _).
  unfold launch_browser in Hl.
  apply bind_ok_inv in Hl. destruct Hl as (x1 & t1 & H1 & Hl).
  apply bind_ok_inv in Hl. destruct Hl as (x2 & t2 & H2 & Hl).
  apply bind_ok_inv in Hl. destruct Hl as (x3 & t3 & H3 & H4).
  apply call_ok_inv in H1, H2, H3.
  apply (call_ok_inv env NewPage) in H4.
  destruct H1 as [E1 ->], H2 as [E2 ->], H3 as [E3 ->], H4 as [E4 ->].
  assert (Hsame : forall (m : M (list keyword_data)) (f : M unit) ts tr tr',
             m ts = (Raise e, tr) -> f tr = (Ok tt, tr') ->
             try_finally m f ts = (Raise e, tr')).
  { intros m f ts tr tr' Em Ef. unfold try_finally. rewrite Em, Ef.
    reflexivity. }
  assert (Es : browser_session lower env c (py_str brand) timeout fuel t0
               = (Raise e,
                  ((tb ++ [Screenshot (u "error_screenshot.png")])
                     ++ [BrowserClose]) ++ [PlaywrightStop])).
  { unfold browser_session, with_block.
    rewrite (bind_returns env PlaywrightStart _ _ x1 E1).
    apply (Hsame _ _ _ ((tb ++ [Screenshot (u "error_screenshot.png")])
                          ++ [BrowserClose]));
      [|unfold call; rewrite R3; reflexivity].
    rewrite (bind_returns env Launch _ _ x2 E2).
    rewrite (bind_returns env NewContext _ _ x3 E3).
    rewrite (bind_returns env NewPage _ _ tt E4).
    apply (Hsame _ _ _ (tb ++ [Screenshot (u "error_screenshot.png")]));
      [|unfold call; rewrite R2; reflexivity].
    rewrite (try_raise _ _ _ _ _ Ha).
    exact (bind_returns env (Screenshot (u "error_screenshot.png")) _ _ tt R1). }
  rewrite Es in E. congruence.
Qed.

Lemma failed_automation_witness :
  let t0 := snd (before_browser buttonless_site (PyStr (u "example.com"))
                                example_csv []) in
  let ta := snd (launch_browser buttonless_site t0) in
  let tb := snd (automation ascii_lower buttonless_site example_config
                            (u "example.com") 60000 50 ta) in
  exists e',
    collect_keywords ascii_lower buttonless_site example_config example_csv
                     60000 50 []
    = (Raise e',
       tb ++ [ Screenshot (u "error_screenshot.png");
               BrowserClose; PlaywrightStop ])
    /\ (all_return buttonless_site tb
          [ Screenshot (u "error_screenshot.png"); BrowserClose; PlaywrightStop ] ->
        e' = Exn "Exception" "Failed to click Continue button").
Proof.
  intros t0 ta tb.
  apply (failed_automation_aborts_the_run
           ascii_lower buttonless_site example_config example_csv 60000 50
           (PyStr (u "example.com")) [] [] t0 ta tb
           (Exn "Exception" "Failed to click Continue button")).
  - reflexivity.
  - reflexivity.
  - vm_compute. reflexivity.
  - vm_compute. reflexivity.
  - vm_compute. reflexivity.
Defined.

(** ** The extractor: header rows and failures *)

Section ExtractorEdges.

Variable lower : str -> str.
Variable env : environment.

(** Before a header row no row gives a record. *)
Lemma records_of_rows_no_header (rows : table_text) :
  (forall row, In row rows ->
               is_header_row lower (List.map strip row) = false) ->
  records_of_rows lower rows false = [].
Proof.
  induction rows as [|row rows IH]; intros H; [reflexivity|].
  assert (IH' : records_of_rows lower rows false = [])
    by (apply IH; intros r Hr; apply H; right; exact Hr).
  destruct row as [|cell cells]; [exact IH'|].
  cbn [records_of_rows]. unfold classify_row.
  rewrite (H (cell :: cells) (or_introl eq_refl)).
  destruct (negb (has_content (List.map strip (cell :: cells))));
    cbn [andb]; exact IH'.
Qed.

Lemma records_of_tables_app (before after : list table_text) :
  records_of_tables lower (before ++ after)
  = records_of_tables lower before ++ records_of_tables lower after.
Proof.
  unfold records_of_tables. apply flat_map_app.
Qed.

(** The rows read before the rest of the loop. *)
Lemma rows_loop_app (rows : list elem) (texts : table_text) :
  shows_rows env rows texts ->
  forall more header_found keywords t, exists header_found' t',
    rows_loop lower env (rows ++ more) header_found keywords t
    = rows_loop lower env more header_found'
                (keywords ++ records_of_rows lower texts header_found) t'.
Proof.
  induction 1 as [|row cell_texts rows texts [cells [Hq Hc]] _ IH];
    intros more hf kws t.
  - cbn [app records_of_rows]. rewrite app_nil_r. eauto.
  - cbn [app rows_loop records_of_rows].
    unfold row_step, bind, call. rewrite Hq. cbn [wrap].
    destruct Hc as [|cell text cells cell_texts Hc1 Hc2].
    + unfold ret. apply IH.
    + destruct (inner_texts_shows env (cell :: cells) (text :: cell_texts)
                  (Forall2_cons _ _ Hc1 Hc2)
                  (t ++ [ElemQuerySelectorAll row (u "td, th")])) as [t1 E].
      rewrite E. unfold ret.
      destruct (classify_row lower hf (List.map strip (text :: cell_texts)))
        as [hf' [k|]].
      * destruct (IH more hf' (kws ++ [k]) t1) as (hf2 & t' & E').
        rewrite E'. rewrite <- app_assoc. cbn [app]. eauto.
      * apply IH.
Qed.

Lemma tables_loop_app (handles : list elem) (tables : list table_text) :
  Forall2 (fun table texts =>
             exists rows,
               (forall t, env t (ElemQuerySelectorAll table (u "tr"))
                          = Returns rows)
               /\ shows_rows env rows texts)
          handles tables ->
  forall more keywords t, exists t',
    tables_loop lower env (handles ++ more) keywords t
    = tables_loop lower env more
                  (keywords ++ records_of_tables lower tables) t'.
Proof.
  induction 1 as [|table texts handles tables [rows [Hq Hr]] _ IH];
    intros more kws t.
  - cbn [app]. unfold records_of_tables. cbn [flat_map].
    rewrite app_nil_r. eauto.
  - cbn [app tables_loop]. unfold call. rewrite Hq. cbn [wrap].
    destruct (rows_loop_shows lower env _ _ Hr false kws
                (t ++ [ElemQuerySelectorAll table (u "tr")])) as [t1 E].
    rewrite E.
    destruct (IH more (kws ++ records_of_rows lower texts false) t1)
      as [t' E'].
    rewrite E'. unfold records_of_tables. cbn [flat_map].
    rewrite <- app_assoc. eauto.
Qed.

End ExtractorEdges.

(** X14.  The header row counts for its own table only.  On a page
    that shows tables of which one has no header row (no row whose first
    cell, lowered, holds "keyword", "search term", "phrase" or "query"),
    the extractor returns the records of the other tables: the rows of
    that table give none, whatever they hold and whether or not a table
    before it had a header row. *)
Theorem table_without_header_gives_no_record :
  forall (lower : str -> str) (env : environment) (t : trace)
         (before : list table_text) (table : table_text)
         (after : list table_text),
    shows_tables env (before ++ table :: after) ->
    (forall row, In row table ->
                 is_header_row lower (List.map strip row) = false) ->
    exists t',
      extract_keywords_from_table lower env t
      = (Ok (records_of_tables lower (before ++ after)), t').
Proof.
  intros lower env t before table after Hs Hn.
  destruct (extract_shows lower env _ t Hs) as [t' E].
  exists t'. rewrite E. do 2 f_equal.
  rewrite !records_of_tables_app.
  change (records_of_tables lower (table :: after))
    with (records_of_rows lower table false ++ records_of_tables lower after).
  rewrite (records_of_rows_no_header lower table Hn). reflexivity.
Qed.

Lemma table_without_header_witness :
  shows_tables (table_page [example_table; headerless_table])
               ([example_table] ++ headerless_table :: [])
  /\ exists t',
      extract_keywords_from_table
        ascii_lower (table_page [example_table; headerless_table]) []
      = (Ok (records_of_tables ascii_lower ([example_table] ++ [])), t').
Proof.
  assert (Hs : shows_tables (table_page [example_table; headerless_table])
                            ([example_table] ++ headerless_table :: [])).
  { unfold shows_tables, shows_rows, shows_cells.
    eexists. split; [intros t; reflexivity|].
    repeat (first [ apply Forall2_nil
                  | apply Forall2_cons
                  | eexists; split; [intros t; reflexivity|]
                  | intros t; reflexivity ]). }
  split; [exact Hs|].
  apply (table_without_header_gives_no_record
           ascii_lower (table_page [example_table; headerless_table]) []
           [example_table] headerless_table [] Hs).
  intros row [<-|[<-|[]]]; vm_compute; reflexivity.
Defined.

(** X15.  A failure in the middle of a table ends the extraction and
    keeps what was found: when the page shows some tables and then a
    table in which, after some rows, the query for the cells of a row
    raises, the extractor returns, and its records are those of the
    tables read and of the rows read before the failure.  The rows and
    the tables after the failure give nothing. *)
Theorem failed_row_keeps_the_records_found :
  forall (lower : str -> str) (env : environment) (t : trace)
         (tables : list table_text) (rows_read : table_text),
    breaks_after env tables rows_read ->
    exists t',
      extract_keywords_from_table lower env t
      = (Ok (records_of_tables lower tables
               ++ records_of_rows lower rows_read false), t').
Proof.
  intros lower env t tables rows_read
         (handles & bad & rest & Hq & Hs & rows & bad_row & rest_rows
          & Hr & Hrows & Hbad).
  unfold extract_keywords_from_table, call. rewrite Hq. cbn [wrap].
  destruct (tables_loop_app lower env _ _ Hs (bad :: rest) []
              (t ++ [QuerySelectorAll (u "table")])) as [t1 E1].
  rewrite E1. cbn [app tables_loop]. unfold call. rewrite Hr. cbn [wrap].
  destruct (rows_loop_app lower env _ _ Hrows (bad_row :: rest_rows) false
              (records_of_tables lower tables)
              (t1 ++ [ElemQuerySelectorAll bad (u "tr")]))
    as (hf & t2 & E2).
  rewrite E2. cbn [rows_loop]. unfold row_step, bind, call.
  destruct (Hbad t2) as [e Ee]. rewrite Ee. cbn [wrap]. eauto.
Qed.

Lemma failed_row_witness :
  breaks_after broken_page [] (firstn 3 example_table)
  /\ fst (extract_keywords_from_table ascii_lower broken_page [])
     = Ok [running_shoes]
  /\ exists t',
      extract_keywords_from_table ascii_lower broken_page []
      = (Ok (records_of_tables ascii_lower []
               ++ records_of_rows ascii_lower (firstn 3 example_table) false),
         t').
Proof.
  assert (Hb : breaks_after broken_page [] (firstn 3 example_table)).
  { exists [], 1%N, []. split; [intros t; reflexivity|].
    split; [constructor|].
    exists [1001%N; 1002%N; 1003%N], 1004%N, [].
    split; [intros t; reflexivity|]. split.
    - unfold shows_rows, shows_cells.
      repeat (first [ apply Forall2_nil
                    | apply Forall2_cons
                    | eexists; split; [intros t; reflexivity|]
                    | intros t; reflexivity ]).
    - intros t. eexists. reflexivity. }
  split; [exact Hb|]. split; [vm_compute; reflexivity|].
  exact (failed_row_keeps_the_records_found
           ascii_lower broken_page [] [] (firstn 3 example_table) Hb).
Defined.

(** ** The scraper's internal links *)

Section ScraperFacts.

Variable urljoin : str -> str -> str.
Variable netloc : str -> str.
Variable url : str.
Variable max_links : Z.

Local Abbreviation internal := (internal_link urljoin netloc url).

Lemma internal_links_loop_inv (links : list (reply (option str))) :
  forall acc result,
    Forall internal acc ->
    (acc = [] \/ (Z.of_nat (List.length acc) < max_links)%Z) ->
    internal_links_loop urljoin netloc url (netloc url) max_links links acc
    = Ok result ->
    Forall internal result
    /\ (Z.of_nat (List.length result) <= Z.max max_links 1)%Z
    /\ List.length result <= List.length acc + List.length links.
Proof.
  induction links as [|[href|e] rest IH]; intros acc result Hacc Hlen H;
    cbn [internal_links_loop] in H.
  - assert (result = acc) by congruence. subst result.
    split; [exact Hacc|]. split; [|cbn [List.length]; lia].
    destruct Hlen as [->|Hlen]; [cbn [List.length]; lia | lia].
  - set (acc' := match href with
                 | Some href =>
                     if truthy href
                     then if str_eqb (netloc (urljoin url href)) (netloc url)
                             && negb (str_eqb (urljoin url href) url)
                          then acc ++ [urljoin url href]
                          else acc
                     else acc
                 | None => acc
                 end) in H.
    assert (Hacc' : Forall internal acc'
                    /\ List.length acc <= List.length acc'
                       <= List.length acc + 1).
    { subst acc'. destruct href as [href|]; [|split; [exact Hacc | lia]].
      destruct (truthy href) eqn:Ht; [|split; [exact Hacc | lia]].
      destruct (str_eqb (netloc (urljoin url href)) (netloc url)) eqn:Hn;
        cbn [andb]; [|split; [exact Hacc | lia]].
      destruct (str_eqb (urljoin url href) url) eqn:Hu;
        cbn [negb]; [split; [exact Hacc | lia]|].
      split.
      - apply Forall_app. split; [exact Hacc|]. constructor; [|constructor].
        split; [apply str_eqb_eq; exact Hn|]. split.
        + intros E. apply str_eqb_eq in E. congruence.
        + exists href. split; [|reflexivity].
          intros E. subst href. discriminate Ht.
      - rewrite length_app. cbn [List.length]. lia. }
    destruct Hacc' as [Hf Hl].
    destruct (max_links <=? Z.of_nat (List.length acc'))%Z eqn:Hm.
    + assert (result = acc') by congruence. subst result.
      split; [exact Hf|]. split; [|cbn [List.length]; lia].
      destruct Hlen as [->|Hlen]; cbn [List.length] in *; lia.
    + apply Z.leb_gt in Hm.
      destruct (IH acc' result Hf (or_intror Hm) H) as (R1 & R2 & R3).
      split; [exact R1|]. split; [exact R2|]. cbn [List.length]. lia.
  - discriminate H.
Qed.

End ScraperFacts.

(** X16.  The links [scrape] goes on to crawl.  Each of them is the
    address of the page joined with a non-empty [href], has the host of
    the page and is not the page's own address.  There are at most
    [max_links] of them, or at most one when [max_links] is below one,
    and no more than there are anchors. *)
Theorem internal_links_are_internal_and_bounded :
  forall (urljoin : str -> str -> str) (netloc : str -> str)
         (url : str) (max_links : Z) (links : list (reply (option str)))
         (result : list str),
    internal_links urljoin netloc url max_links links = Ok result ->
    Forall (internal_link urljoin netloc url) result
    /\ (Z.of_nat (List.length result) <= Z.max max_links 1)%Z
    /\ List.length result <= List.length links.
Proof.
  intros urljoin netloc url max_links links result H.
  apply (internal_links_loop_inv urljoin netloc url max_links links [] result);
    [constructor | left; reflexivity | exact H].
Qed.

Lemma internal_links_witness :
  let url := u "https://example.com" in
  let links := [ Returns (Some (u "/shoes")); Returns None;
                 Returns (Some []); Returns (Some (u ".evil.org/x"));
                 Returns (Some (u "/boots")); Returns (Some (u "/hats")) ] in
  let result := [ u "https://example.com/shoes"; u "https://example.com/boots" ] in
  internal_links append_join host_of url 2 links = Ok result
  /\ Forall (internal_link append_join host_of url) result
  /\ (Z.of_nat (List.length result) <= Z.max 2 1)%Z
  /\ List.length result <= List.length links.
Proof.
  intros url links result.
  assert (E : internal_links append_join host_of url 2 links = Ok result)
    by (vm_compute; reflexivity).
  split; [exact E|].
  exact (internal_links_are_internal_and_bounded
           append_join host_of url 2 links result E).
Defined.

(** X17.  A limit of zero does not mean no link.  The limit is tested
    after the anchor has been dealt with, so with [max_links] at zero or
    below the loop stops after the first anchor whatever it is, the
    anchors after it are not read, and if the first anchor is an
    internal link it is kept: the result holds one link. *)
Theorem zero_limit_still_takes_the_first_link :
  forall (urljoin : str -> str -> str) (netloc : str -> str)
         (url : str) (max_links : Z) (href : option str)
         (rest : list (reply (option str))),
    (max_links <= 0)%Z ->
    internal_links urljoin netloc url max_links (Returns href :: rest)
    = internal_links urljoin netloc url max_links [Returns href]
    /\ (forall h,
           href = Some h -> h <> [] ->
           netloc (urljoin url h) = netloc url -> urljoin url h <> url ->
           internal_links urljoin netloc url max_links (Returns href :: rest)
           = Ok [urljoin url h]).
Proof.
  intros urljoin netloc url max_links href rest Hm.
  assert (Hle : forall l : list str,
             (max_links <=? Z.of_nat (List.length l))%Z = true)
    by (intros l; apply Z.leb_le; lia).
  split.
  - unfold internal_links. cbn [internal_links_loop]. rewrite !Hle.
    reflexivity.
  - intros h -> Hh Hn Hu.
    unfold internal_links. cbn [internal_links_loop]. rewrite Hle.
    destruct h as [|c h]; [contradiction Hh; reflexivity|]. cbn [truthy].
    apply str_eqb_eq in Hn. rewrite Hn.
    destruct (str_eqb (urljoin url (c :: h)) url) eqn:E;
      [apply str_eqb_eq in E; contradiction|].
    reflexivity.
Qed.

Lemma zero_limit_witness :
  internal_links append_join host_of (u "https://example.com") 0
    [ Returns (Some (u "/shoes")); Raises timeout_error ]
  = Ok [ u "https://example.com/shoes" ].
Proof.
  destruct (zero_limit_still_takes_the_first_link
              append_join host_of (u "https://example.com") 0
              (Some (u "/shoes")) [Raises timeout_error]) as [_ H];
    [lia|].
  apply (H (u "/shoes")).
  - reflexivity.
  - discriminate.
  - vm_compute. reflexivity.
  - vm_compute. discriminate.
Defined.

(** ** The scan for results *)

Section ScanFacts.

Variable lower : str -> str.
Variable env : environment.

(** One step of the loop on a selector that matches nothing. *)
Lemma scan_results_skip (selector : str) (rest : list str) (found : bool)
      (keywords : list keyword_data) (t : trace) :
  (forall els, env t (QuerySelectorAll selector) = Returns els -> els = []) ->
  scan_results lower env (selector :: rest) found keywords t
  = scan_results lower env rest found keywords (t ++ [QuerySelectorAll selector]).
Proof.
  intros H. cbn [scan_results]. unfold bind, try_except, call, ret.
  destruct (env t (QuerySelectorAll selector)) as [els|x] eqn:E; cbn [wrap];
    [|reflexivity].
  rewrite (H els eq_refl). reflexivity.
Qed.

Lemma scan_results_first_match (selectors : list str) :
  forall (keywords0 : list keyword_data) (t : trace),
    exists found keywords t',
      scan_results lower env selectors false keywords0 t
      = (Ok (found, keywords), t')
      /\ (found = false ->
          keywords = keywords0 /\ t' = t ++ queries selectors)
      /\ (found = true ->
          exists before selector after elements,
            first_match env t selectors before selector after elements
            /\ (contains (u "table") selector = true ->
                extract_keywords_from_table lower env
                  (t ++ queries before ++ [QuerySelectorAll selector])
                = (Ok keywords, t'))
            /\ (contains (u "table") selector = false ->
                keywords = keywords0
                /\ t' = t ++ queries before ++ [QuerySelectorAll selector])).
Proof.
  induction selectors as [|s rest IH]; intros kws0 t.
  - exists false, kws0, t. split; [reflexivity|]. split; [|discriminate].
    intros _. cbn. rewrite app_nil_r. auto.
  - destruct (env t (QuerySelectorAll s)) as [[|el els]|x] eqn:Es.
    2:{ (* the selector matches *)
        destruct (contains (u "table") s) eqn:Hc.
        - destruct (extract_returns lower env (t ++ [QuerySelectorAll s]))
            as (k & t' & Ex).
          exists true, k, t'. split.
          + cbn [scan_results]. unfold bind, try_except, call, ret.
            rewrite Es. cbn [wrap]. rewrite Hc, Ex. reflexivity.
          + split; [discriminate|]. intros _.
            exists [], s, rest, (el :: els). split; [|split].
            * unfold first_match. cbn [queries List.map app].
              rewrite app_nil_r. repeat split; auto; [discriminate|].
              intros [|? ?] ? ? ? E; discriminate E.
            * intros _. exact Ex.
            * congruence.
        - exists true, kws0, (t ++ [QuerySelectorAll s]). split.
          + cbn [scan_results]. unfold bind, try_except, call, ret.
            rewrite Es. cbn [wrap]. rewrite Hc. reflexivity.
          + split; [discriminate|]. intros _.
            exists [], s, rest, (el :: els). split; [|split].
            * unfold first_match. cbn [queries List.map app].
              rewrite app_nil_r. repeat split; auto; [discriminate|].
              intros [|? ?] ? ? ? E; discriminate E.
            * congruence.
            * intros _. split; reflexivity. }
    all: assert (Hskip : forall els0,
                    env t (QuerySelectorAll s) = Returns els0 -> els0 = [])
        by (intros els0; rewrite Es; congruence);
      rewrite (scan_results_skip s rest false kws0 t Hskip);
      destruct (IH kws0 (t ++ [QuerySelectorAll s]))
        as (found & kws & t' & E & Hnone & Hsome);
      exists found, kws, t'; (split; [exact E|]); split.
    1,3: intros Hf; destruct (Hnone Hf) as [-> ->]; split; [reflexivity|];
      cbn [queries List.map]; rewrite <- app_assoc; reflexivity.
    all: intros Hf;
      destruct (Hsome Hf)
        as (before & selector & after & elements & Hm & Ht & Hn);
      destruct Hm as (-> & He & Hne & Hb);
      exists (s :: before), selector, after, elements;
      cbn [queries List.map app] in *;
      rewrite <- ?app_assoc in *; cbn [app] in *;
      (split; [|split; [exact Ht | exact Hn]]);
      unfold first_match; cbn [queries List.map app];
      (split; [reflexivity|]); (split; [exact He|]);
      (split; [exact Hne|]);
      intros [|b0 b] s0 a els0 Eb; cbn [app] in Eb;
      injection Eb as <- Eb;
      [ cbn [List.map app]; rewrite app_nil_r; apply Hskip
      | cbn [List.map app]; intros Hq; apply (Hb b s0 a els0 Eb);
        fold (queries b); rewrite <- app_assoc; exact Hq ].
Qed.

End ScanFacts.

(** X18.  The scan for results is decided by the first of the ten
    result selectors whose query returns elements; a query that raises
    counts as one that returned none, and the selectors after the match
    are not queried.  Only a selector that holds "table" has the
    extractor read the page, and three of the ten do: table tbody tr,
    table tr td and the role table; after a match of one of the seven
    others (the Material UI table among them) the results count as found
    and the list of records stays empty.  With no match the list is
    empty and all ten were queried. *)
Theorem results_scan_is_decided_by_first_match :
  forall (lower : str -> str) (env : environment) (t : trace),
    (exists found keywords t',
        scan_results lower env results_selectors false [] t
        = (Ok (found, keywords), t')
        /\ (found = false ->
            keywords = [] /\ t' = t ++ queries results_selectors)
        /\ (found = true ->
            exists before selector after elements,
              first_match env t results_selectors before selector after
                          elements
              /\ (contains (u "table") selector = true ->
                  extract_keywords_from_table lower env
                    (t ++ queries before ++ [QuerySelectorAll selector])
                  = (Ok keywords, t'))
              /\ (contains (u "table") selector = false ->
                  keywords = []
                  /\ t' = t ++ queries before ++ [QuerySelectorAll selector])))
    /\ filter (contains (u "table")) results_selectors
       = [ nth 0 results_selectors []; nth 1 results_selectors [];
           nth 9 results_selectors [] ].
Proof.
  intros lower env t. split; [|vm_compute; reflexivity].
  exact (scan_results_first_match lower env results_selectors [] t).
Qed.

(** ** The text patterns of the completion waiter *)

Section TextPatterns.

Variable env : environment.
Variable P : op -> Prop.
Hypothesis P_visible : forall e, P (IsVisible e).

Lemma any_visible_issues (elements : list elem) :
  issues P (any_visible env elements).
Proof.
  induction elements as [|el rest IH]; cbn [any_visible].
  - apply issues_ret.
  - apply issues_bind; [apply issues_call; apply P_visible|].
    intros v. destruct v; [apply issues_ret | exact IH].
Qed.

Lemma any_loading_issues (selectors : list str) :
  (forall selector,
      In selector selectors -> P (QuerySelectorAll (loading_query selector))) ->
  issues P (any_loading env selectors).
Proof.
  induction selectors as [|selector rest IH]; intros H; cbn [any_loading].
  - apply issues_ret.
  - apply issues_bind.
    + apply issues_try_except; [|intros e; apply issues_ret].
      apply issues_bind; [apply issues_call; apply H; left; reflexivity|].
      intros elements. apply any_visible_issues.
    + intros seen. destruct seen; [apply issues_ret|].
      apply IH. intros s0 Hin. apply H. right. exact Hin.
Qed.

End TextPatterns.

(** X19.  The check of the completion waiter never queries a text
    pattern as the list has it.  The four patterns of the list,
    [text="Loading"], [text="Please wait"], [text="Analyzing"] and
    [text="Processing"], already hold their quotes; the check drops the
    prefix and puts what is left between quotes again, so each is
    queried with doubled quotes, and these four and the four attribute,
    class and role selectors are the only queries the check makes.  So
    when none of the eight selectors as queried finds a visible element
    the check finds no indicator, whatever the text patterns of the
    list would find. *)
Theorem text_patterns_are_queried_with_doubled_quotes :
  forall (env : environment) (t : trace),
    let queried :=
      [ u "[data-testid*=" ++ q (u "loading") ++ u "]";
        u ".loading";
        u "[class*=" ++ q (u "loading") ++ u "]";
        u "[role=" ++ q (u "progressbar") ++ u "]";
        u "text=" ++ q (q (u "Loading"));
        u "text=" ++ q (q (u "Please wait"));
        u "text=" ++ q (q (u "Analyzing"));
        u "text=" ++ q (q (u "Processing")) ] in
    (exists new,
        snd (any_loading env loading_selectors t) = t ++ new
        /\ Forall (fun o => match o with
                            | QuerySelectorAll selector => In selector queried
                            | IsVisible _ => True
                            | _ => False
                            end) new)
    /\ (forall found shown,
           shows_at env t found shown ->
           (forall selector,
               In selector queried -> existsb shown (found selector) = false) ->
           fst (any_loading env loading_selectors t) = Ok false).
Proof.
  intros env t queried. split.
  - apply (any_loading_issues env
             (fun o => match o with
                       | QuerySelectorAll selector => In selector queried
                       | IsVisible _ => True
                       | _ => False
                       end)); [intros e; exact I|].
    intros selector Hin. unfold loading_selectors in Hin. cbn [In] in Hin.
    unfold queried.
    repeat (destruct Hin as [<-|Hin];
            [vm_compute; repeat (first [left; reflexivity | right])|]).
    contradiction.
  - intros found shown Hs Hnone.
    destruct (any_loading_at env found shown loading_selectors t Hs)
      as (t' & E & _).
    rewrite E. cbn [fst]. f_equal.
    apply not_true_is_false. intros Hex.
    apply existsb_exists in Hex. destruct Hex as (selector & Hin & Hv).
    rewrite Hnone in Hv; [discriminate|].
    unfold loading_selectors in Hin. cbn [In] in Hin. unfold queried.
    repeat (destruct Hin as [<-|Hin];
            [vm_compute; repeat (first [left; reflexivity | right])|]).
    contradiction.
Qed.

Lemma text_patterns_witness :
  let found := fun selector =>
                 if str_eqb selector (u "text=" ++ q (u "Loading"))
                 then [9%N] else [] in
  let shown := fun _ : elem => true in
  shows_at text_indicator_page [Time] found shown
  /\ existsb shown (found (u "text=" ++ q (u "Loading"))) = true
  /\ fst (any_loading text_indicator_page loading_selectors [Time]) = Ok false
  /\ loading_loop text_indicator_page 50 0%float []
     = (Ok tt,
        Time :: List.map (fun selector => QuerySelectorAll selector)
                  [ u "[data-testid*=" ++ q (u "loading") ++ u "]";
                    u ".loading";
                    u "[class*=" ++ q (u "loading") ++ u "]";
                    u "[role=" ++ q (u "progressbar") ++ u "]";
                    u "text=" ++ q (q (u "Loading"));
                    u "text=" ++ q (q (u "Please wait"));
                    u "text=" ++ q (q (u "Analyzing"));
                    u "text=" ++ q (q (u "Processing")) ]).
Proof.
  intros found shown.
  assert (Hs : shows_at text_indicator_page [Time] found shown).
  { intros new _. split; [intros selector | intros e; reflexivity].
    unfold text_indicator_page, found.
    destruct (str_eqb selector (u "text=" ++ q (u "Loading"))); reflexivity. }
  split; [exact Hs|]. split; [reflexivity|].
  split; [|vm_compute; reflexivity].
  destruct (text_patterns_are_queried_with_doubled_quotes
              text_indicator_page [Time]) as [_ H].
  apply (H found shown Hs).
  intros selector Hin. cbn [In] in Hin.
  repeat (destruct Hin as [<-|Hin]; [reflexivity|]). contradiction.
Defined.
